(** * Gym Habit: the database layer ([database.py]) in Rocq

    A shallow embedding of the gym store, the plan calculator and the
    subscription request log, followed by the properties stated about them.

    Conventions.
    - A Python [int] is a [Z]; a Python [float] is an IEEE-754 binary64 value,
      taken from the Standard Library's specification of floating-point
      arithmetic ([spec_float] at precision 53 and maximal exponent 1024).
    - A Python [str] is a [string].
    - Python objects that are shared and mutated ([dict] and [list] objects)
      live in a heap indexed by references; a method is a function from the
      state before the call to its result and the state after it.
    - An exception is a value of [exn]; a computation that may raise returns
      a [result]. *)

From Stdlib Require Import ZArith List Bool Ascii String Lia SpecFloat.
From Stdlib Require Import Sorted Permutation.
From stdpp Require Import gmap strings list.

Local Open Scope string_scope.
Local Open Scope Z_scope.
Local Open Scope list_scope.

(** ** Python basics: exceptions, floats, integers *)

Module Py.

Inductive exn :=
| OverflowError | ValueError | KeyError | AttributeError | TypeError
| FileNotFoundError | OSError.

Inductive result (A : Type) :=
| Ok (a : A)
| Raise (e : exn).
Arguments Ok {A} a.
Arguments Raise {A} e.

Definition bind {A B} (r : result A) (k : A -> result B) : result B :=
  match r with
  | Ok a => k a
  | Raise e => Raise e
  end.


(** *** binary64 *)

Definition float := spec_float.
Definition prec : Z := 53.
Definition emax : Z := 1024.

Definition fmul : float -> float -> float := SFmul prec emax.
Definition fdiv : float -> float -> float := SFdiv prec emax.
Definition fadd : float -> float -> float := SFadd prec emax.
Definition fsub : float -> float -> float := SFsub prec emax.
Definition flt : float -> float -> bool := SFltb.
Definition fle : float -> float -> bool := SFleb.
Definition feq : float -> float -> bool := SFeqb.

Definition is_nan (x : float) : bool :=
  match x with S754_nan => true | _ => false end.

(** The nearest binary64 value to an integer (ties to even). *)
Definition round_int (z : Z) : float := binary_normalize prec emax z 0 false.

(** [float(z)] for an [int]: correctly rounded; [OverflowError] ("int too
    large to convert to float") when the rounded value is not finite. *)
Definition float_of_int (z : Z) : result float :=
  match round_int z with
  | S754_infinity _ => Raise OverflowError
  | x => Ok x
  end.

(** [int(x)] for a [float]: truncation towards zero; [ValueError] on a NaN,
    [OverflowError] on an infinity. *)
Definition int_of_float (x : float) : result Z :=
  match x with
  | S754_nan => Raise ValueError
  | S754_infinity _ => Raise OverflowError
  | S754_zero _ => Ok 0
  | S754_finite s m e => Ok (cond_Zopp s (Z.shiftl (Zpos m) e))
  end.

(** The integers from [float_limit] on round to an infinity: the largest
    binary64 value is [2^1024 - 2^971], and [float_limit] is half a unit in
    the last place above it. *)
Definition float_limit : Z := 2 ^ 1024 - 2 ^ 970.

(** A zero or a finite value of sign [s] within the range of binary64. *)
Definition ordinary (s : bool) (x : float) : Prop :=
  x = S754_zero s \/
  exists m e, x = S754_finite s m e /\ Zpos m < 2 ^ 53 /\ e <= 971.

(** [z * x] with [z] an [int] and [x] a [float]: the integer is converted
    first. *)
Definition int_mul_float (z : Z) (x : float) : result float :=
  bind (float_of_int z) (fun fz => Ok (fmul fz x)).

(** A decimal literal [n / 10^k] denotes the binary64 value nearest to it;
    for the two-digit literals below, numerator and denominator are exact
    in binary64, so the correctly rounded quotient is that value. *)
Definition literal (num den : Z) : float := fdiv (round_int num) (round_int den).

End Py.

Notation "'let*' x := e 'in' k" := (Py.bind e (fun x => k))
  (at level 10, x name, e at level 100, k at level 200).

(** ** PlanCalculator: [calculate_subscription_plans] *)

Module Plans.
Import Py.

Record Plan := {
  duration : string;
  total : Z;
  monthly : Z;
  savings : Z
}.

Definition f0_93 : float := Eval vm_compute in literal 93 100.
Definition f0_07 : float := Eval vm_compute in literal 7 100.
Definition f0_83 : float := Eval vm_compute in literal 83 100.
Definition f0_17 : float := Eval vm_compute in literal 17 100.

(** A discount factor: a positive binary64 constant below 1. *)
Definition factor (c : float) : Prop :=
  exists mc ec, c = S754_finite false mc ec /\ Zpos mc < 2 ^ 53 /\ ec <= -53.

(** [int(z * x)] *)
Definition int_scaled (z : Z) (x : float) : result Z :=
  let* p := int_mul_float z x in int_of_float p.

(** The dictionary display is evaluated entry by entry, in source order. *)
Definition calculate_subscription_plans (base_monthly : Z)
  : result (gmap string Plan) :=
  let p1 := {| duration := "1 month"; total := base_monthly;
               monthly := base_monthly; savings := 0 |} in
  let* t3 := int_scaled (base_monthly * 3) f0_93 in
  let* m3 := int_scaled base_monthly f0_93 in
  let* s3 := int_scaled (base_monthly * 3) f0_07 in
  let* t12 := int_scaled (base_monthly * 12) f0_83 in
  let* m12 := int_scaled base_monthly f0_83 in
  let* s12 := int_scaled (base_monthly * 12) f0_17 in
  Ok (<["12-month" := {| duration := "12 months"; total := t12;
                         monthly := m12; savings := s12 |}]>
      (<["3-month" := {| duration := "3 months"; total := t3;
                         monthly := m3; savings := s3 |}]>
      (<["1-month" := p1]> ∅))).

End Plans.

(** ** Strings: the [str] methods used by the store

    A [str] is modelled as a [string] whose characters are the code points
    below 256. *)

Module Str.

Definition code (c : ascii) : N := N_of_ascii c.

(** [c.isspace()]: the characters [str.strip()] removes. *)
Definition is_space (c : ascii) : bool :=
  let n := code c in
  ((9 <=? n) && (n <=? 13) || (28 <=? n) && (n <=? 32)
   || (n =? 133) || (n =? 160))%N.

Fixpoint lstrip (s : string) : string :=
  match s with
  | EmptyString => EmptyString
  | String c s' => if is_space c then lstrip s' else s
  end.

Fixpoint rstrip (s : string) : string :=
  match s with
  | EmptyString => EmptyString
  | String c s' =>
      match rstrip s' with
      | EmptyString => if is_space c then EmptyString else String c EmptyString
      | r => String c r
      end
  end.

(** [s.strip()] *)
Definition strip (s : string) : string := rstrip (lstrip s).

(** A string none of whose characters is whitespace. *)
Fixpoint no_space (s : string) : bool :=
  match s with
  | EmptyString => true
  | String c s' => negb (is_space c) && no_space s'
  end.

(** [c.lower()] on one character: A-Z and the capital letters of Latin-1. *)
Definition lower_char (c : ascii) : ascii :=
  let n := code c in
  if ((65 <=? n) && (n <=? 90)
      || (192 <=? n) && (n <=? 222) && negb (n =? 215))%N
  then ascii_of_N (n + 32) else c.

(** [s.lower()] *)
Fixpoint lower (s : string) : string :=
  match s with
  | EmptyString => EmptyString
  | String c s' => String (lower_char c) (lower s')
  end.

(** Reading in text mode: a line end ["\r\n"] or ["\r"] arrives as
    ["\n"]. *)
Fixpoint universal_newlines (s : string) : string :=
  match s with
  | EmptyString => EmptyString
  | String c s' =>
      if Ascii.eqb c "013" then
        String "010"
          match s' with
          | String d s'' =>
              if Ascii.eqb d "010" then universal_newlines s''
              else universal_newlines s'
          | EmptyString => EmptyString
          end
      else String c (universal_newlines s')
  end.

(** [s.startswith(p)] *)
Fixpoint startswith (p s : string) : bool :=
  match p, s with
  | EmptyString, _ => true
  | String a p', String b s' => if Ascii.eqb a b then startswith p' s' else false
  | String _ _, EmptyString => false
  end.

(** *** Decimal integers: [str(z)] and [int(s)] *)

Definition is_digit (c : ascii) : bool := ((48 <=? code c) && (code c <=? 57))%N.

Definition digit_val (c : ascii) : Z := Z.of_N (code c) - 48.

Definition digit_char (d : Z) : ascii := ascii_of_N (Z.to_N (d + 48)).

(** The decimal digits of [n], most significant first, stacked on [acc];
    [fuel] bounds the number of digits. *)
Fixpoint digits_of (fuel : nat) (n : Z) (acc : string) : string :=
  match fuel with
  | O => acc
  | S fuel' =>
      let acc' := String (digit_char (n mod 10)) acc in
      if n <? 10 then acc' else digits_of fuel' (n / 10) acc'
  end.

(** [str(n)] for [0 <= n]: a number has no more digits than its binary
    size plus one. *)
Definition str_of_nonneg (n : Z) : string :=
  digits_of (S (Z.to_nat (Z.log2 n))) n EmptyString.

(** [str(z)] *)
Definition str_of_int (z : Z) : string :=
  if z <? 0 then String "-" (str_of_nonneg (- z)) else str_of_nonneg z.

(** The digits of an integer literal, read left to right: groups of digits
    separated by single underscores. [after_digit] tells whether the
    previous character was a digit. *)
Fixpoint read_digits (s : string) (acc : Z) (after_digit : bool) : option Z :=
  match s with
  | EmptyString => if after_digit then Some acc else None
  | String c s' =>
      if is_digit c then read_digits s' (acc * 10 + digit_val c) true
      else if (Ascii.eqb c "_" && after_digit)%bool then read_digits s' acc false
      else None
  end.

(** [int(s)]: surrounding whitespace is ignored, a sign is allowed;
    [None] stands for [ValueError]. *)
Definition int_of_str (s : string) : option Z :=
  match strip s with
  | String "-" s' => Z.opp <$> read_digits s' 0 false
  | String "+" s' => read_digits s' 0 false
  | s' => read_digits s' 0 false
  end.

(** [f"{n:03d}"]: decimal, padded with zeros on the left to at least three
    characters (the sign, if any, comes first and counts). *)
Definition zfill (width : nat) (s : string) : string :=
  String.concat "" (repeat "0" (width - String.length s)%nat) +:+ s.

Definition format_03d (n : Z) : string :=
  if n <? 0 then String "-" (zfill 2 (str_of_nonneg (- n)))
  else zfill 3 (str_of_nonneg n).

End Str.

(** ** The library functions the store relies on

    The [math] module (the platform's C library behind it), float
    exponentiation, [round], and the conversions between [float] and [str]
    are not part of the repository; they are taken as parameters. A function
    that can raise ([math.sin] on an infinity, [math.asin] outside [-1, 1],
    ...) returns a [result]; [float(s)] returns [None] for [ValueError]. *)

Class Builtins := {
  math_radians : Py.float -> Py.float;
  math_sin : Py.float -> Py.result Py.float;
  math_cos : Py.float -> Py.result Py.float;
  math_asin : Py.float -> Py.result Py.float;
  math_sqrt : Py.float -> Py.result Py.float;
  float_pow : Py.float -> Z -> Py.result Py.float;
  round_ndigits : Py.float -> Z -> Py.float;
  str_of_float : Py.float -> string;
  float_of_str : string -> option Py.float
}.

(** ** DistanceFunction: [haversine_distance] *)

Module Distance.
Import Py.

Section WithBuiltins.
Context `{Builtins}.

Definition R : float := Eval vm_compute in round_int 6371.
Definition two : float := Eval vm_compute in round_int 2.

Definition haversine_distance (lat1 lon1 lat2 lon2 : float) : result float :=
  let lat1_rad := math_radians lat1 in
  let lon1_rad := math_radians lon1 in
  let lat2_rad := math_radians lat2 in
  let lon2_rad := math_radians lon2 in
  let dlat := fsub lat2_rad lat1_rad in
  let dlon := fsub lon2_rad lon1_rad in
  let* s1 := math_sin (fdiv dlat two) in
  let* s1sq := float_pow s1 2 in
  let* c1 := math_cos lat1_rad in
  let* c2 := math_cos lat2_rad in
  let* s2 := math_sin (fdiv dlon two) in
  let* s2sq := float_pow s2 2 in
  let a := fadd s1sq (fmul (fmul c1 c2) s2sq) in
  let* sq := math_sqrt a in
  let* as_ := math_asin sq in
  let c := fmul two as_ in
  let distance := fmul R c in
  Ok (round_ndigits distance 2).

(** The formula, as a function of the two differences and the two latitudes
    in radians. *)
Definition haversine_formula (dlat dlon lat1_rad lat2_rad : float)
  : result float :=
  let* s1 := math_sin (fdiv dlat two) in
  let* s1sq := float_pow s1 2 in
  let* c1 := math_cos lat1_rad in
  let* c2 := math_cos lat2_rad in
  let* s2 := math_sin (fdiv dlon two) in
  let* s2sq := float_pow s2 2 in
  let a := fadd s1sq (fmul (fmul c1 c2) s2sq) in
  let* sq := math_sqrt a in
  let* as_ := math_asin sq in
  let c := fmul two as_ in
  let distance := fmul R c in
  Ok (round_ndigits distance 2).

(** What the symmetry of the distance takes from the library: the sine is
    odd (also where it raises), squaring is even, and the cosine raises
    nothing but [ValueError]. *)
Record symmetric_library : Prop := {
  sin_odd : forall x,
    math_sin (SFopp x)
    = match math_sin x with Ok y => Ok (SFopp y) | Raise e => Raise e end;
  square_even : forall x, float_pow (SFopp x) 2 = float_pow x 2;
  cos_raises : forall x e, math_cos x = Raise e -> e = ValueError
}.

(** What a distance of zero takes from the library: a finite angle has
    finite radians and a cosine of magnitude at most 1, and the sine, the
    square, the square root, the arc sine and the rounding of [0.0] are
    [0.0]. *)
Record exact_at_zero : Prop := {
  radians_finite : forall s x,
    ordinary s x -> exists s', ordinary s' (math_radians x);
  cos_bounded : forall s x,
    ordinary s x ->
    exists s' c, math_cos x = Ok c /\ ordinary s' c /\
                 fle (SFabs c) (round_int 1) = true;
  sin_zero : math_sin (S754_zero false) = Ok (S754_zero false);
  square_zero : float_pow (S754_zero false) 2 = Ok (S754_zero false);
  sqrt_zero : math_sqrt (S754_zero false) = Ok (S754_zero false);
  asin_zero : math_asin (S754_zero false) = Ok (S754_zero false);
  round_zero : round_ndigits (S754_zero false) 2 = S754_zero false
}.

End WithBuiltins.
End Distance.

(** ** GymStore: [GymDatabase] *)

Module Store.
Import Py Str Distance.

(** A reference to a heap object (the identity of a Python object). *)
Definition ref := positive.

(** A gym dictionary. The key ['id'] is the field [gid]; the key
    ['distance'] exists only on the copies made by [get_nearby_gyms]. *)
Record Gym := {
  gid : Z;
  partner_name : string;
  gym_name : string;
  address : string;
  pincode : string;
  latitude : float;
  longitude : float;
  subscription_amount : Z;
  amenities : string;
  distance : option float
}.

Definition set_distance (d : option float) (g : Gym) : Gym :=
  {| gid := gid g; partner_name := partner_name g; gym_name := gym_name g;
     address := address g; pincode := pincode g; latitude := latitude g;
     longitude := longitude g; subscription_amount := subscription_amount g;
     amenities := amenities g; distance := d |}.

Definition set_gid (i : Z) (g : Gym) : Gym :=
  {| gid := i; partner_name := partner_name g; gym_name := gym_name g;
     address := address g; pincode := pincode g; latitude := latitude g;
     longitude := longitude g; subscription_amount := subscription_amount g;
     amenities := amenities g; distance := distance g |}.

(** The argument of [add_gym]: the dictionary of a validated
    [GymAddRequest], whose numeric fields already are a [float] or an
    [int], so that [float(..)] and [int(..)] return them unchanged. *)
Record GymData := {
  data_partner_name : string;
  data_gym_name : string;
  data_address : string;
  data_pincode : string;
  data_latitude : float;
  data_longitude : float;
  data_subscription_amount : Z;
  data_amenities : string
}.

Inductive obj :=
| Dict (g : Gym)
| List (rs : list ref).

(** The backing file, as the [csv] module presents it: missing, unreadable,
    or a table of rows of cells (the first row is the header; a blank line
    is the empty row). *)
Inductive file :=
| Missing
| Unreadable
| Table (rows : list (list string)).

(** [gyms] is the attribute [self.gyms]: a reference to a list object.
    [writable] tells whether opening the backing file for writing
    succeeds. *)
Record state := {
  heap : gmap ref obj;
  gyms : ref;
  csv : file;
  writable : bool
}.

Definition set_heap (h : gmap ref obj) (st : state) : state :=
  {| heap := h; gyms := gyms st; csv := csv st; writable := writable st |}.
Definition set_gyms (r : ref) (st : state) : state :=
  {| heap := heap st; gyms := r; csv := csv st; writable := writable st |}.
Definition set_csv (f : file) (st : state) : state :=
  {| heap := heap st; gyms := gyms st; csv := f; writable := writable st |}.

(** A new object gets a reference no live object has. *)
Definition alloc (o : obj) (st : state) : ref * state :=
  let r := fresh (dom (heap st)) in
  (r, set_heap (<[r := o]> (heap st)) st).

(** Any mutation of the object at [r] through a reference to it. *)
Definition write (r : ref) (o : obj) (st : state) : state :=
  set_heap (<[r := o]> (heap st)) st.

Definition get_list (st : state) (r : ref) : list ref :=
  match heap st !! r with
  | Some (List rs) => rs
  | _ => []
  end.

Definition get_dict (st : state) (r : ref) : option Gym :=
  match heap st !! r with
  | Some (Dict g) => Some g
  | _ => None
  end.

(** [gym['id'] = i] through a reference [r] to a dictionary: what a caller
    can do with a reference it was handed. *)
Definition setitem_id (r : ref) (i : Z) (st : state) : state :=
  match get_dict st r with
  | Some g => write r (Dict (set_gid i g)) st
  | None => st
  end.

(** [lst.append(x)], in place. *)
Definition list_append (l : ref) (x : ref) (st : state) : state :=
  write l (List (get_list st l ++ [x])) st.

(** A new dictionary appended to [self.gyms]: what [self.gyms.append(gym)]
    does with a dictionary that was just built. *)
Definition push (g : Gym) (st : state) : state :=
  list_append (gyms (snd (alloc (Dict g) st))) (fst (alloc (Dict g) st))
    (snd (alloc (Dict g) st)).

(** The dictionaries a list of references points to. *)
Fixpoint records (st : state) (rs : list ref) : list Gym :=
  match rs with
  | [] => []
  | r :: rs' =>
      match get_dict st r with
      | Some g => g :: records st rs'
      | None => records st rs'
      end
  end.

(** The collection: what [self.gyms] holds. *)
Definition collection (st : state) : list Gym :=
  records st (get_list st (gyms st)).

(** The states a store can be in: [self.gyms] is a list object, and every
    reference in it is a dictionary. *)
Definition well_formed (st : state) : Prop :=
  exists rs, heap st !! gyms st = Some (List rs) /\
             Forall (fun r => is_Some (get_dict st r)) rs.

(** The invariant of the data model: identifiers are unique within the
    collection. *)
Definition unique_ids (st : state) : Prop :=
  NoDup (map gid (collection st)).

(** [test] on the dictionary behind a reference. *)
Definition on_dict (st : state) (test : Gym -> bool) (r : ref) : bool :=
  match get_dict st r with
  | Some g => test g
  | None => false
  end.

Definition fieldnames : list string :=
  ["PartnerName"; "GymName"; "Address"; "Pincode";
   "Latitude"; "Longitude"; "SubscriptionAmount"; "Amenities"].

(** *** [csv.DictReader] *)

(** One row as a dictionary: [dict(zip(fieldnames, row))], and the columns
    the row is too short for hold [None]. *)
Definition dict_row (header row : list string) : gmap string (option string) :=
  fold_left (fun d kv => <[fst kv := snd kv]> d)
    (combine header (map Some row ++ repeat None (length header - length row)))
    ∅.

Definition is_blank (row : list string) : bool :=
  match row with [] => true | _ => false end.

(** The first row gives the field names; blank rows are skipped. *)
Definition dict_reader (rows : list (list string))
  : list (gmap string (option string)) :=
  match rows with
  | [] => []
  | header :: rest =>
      map (dict_row header) (List.filter (fun r => negb (is_blank r)) rest)
  end.

(** [row[key]] *)
Definition getitem (row : gmap string (option string)) (key : string)
  : result (option string) :=
  match row !! key with
  | Some v => Ok v
  | None => Raise KeyError
  end.

(** [v.strip()], where [v] may be [None] *)
Definition strip_cell (v : option string) : result string :=
  match v with
  | Some s => Ok (strip s)
  | None => Raise AttributeError
  end.

Section WithBuiltins.
Context `{Builtins}.

(** [float(v)] *)
Definition float_cell (v : option string) : result float :=
  match v with
  | None => Raise TypeError
  | Some s =>
      match float_of_str s with
      | Some x => Ok x
      | None => Raise ValueError
      end
  end.

(** [int(v)] *)
Definition int_cell (v : option string) : result Z :=
  match v with
  | None => Raise TypeError
  | Some s =>
      match int_of_str s with
      | Some z => Ok z
      | None => Raise ValueError
      end
  end.

(** The body of the loop of [load_gyms]: the dictionary built from one
    row. *)
Definition gym_of_row (idx : Z) (row : gmap string (option string))
  : result Gym :=
  let* pn := let* v := getitem row "PartnerName" in strip_cell v in
  let* gn := let* v := getitem row "GymName" in strip_cell v in
  let* ad := let* v := getitem row "Address" in strip_cell v in
  let* pc := let* v := getitem row "Pincode" in strip_cell v in
  let* la := let* v := getitem row "Latitude" in float_cell v in
  let* lo := let* v := getitem row "Longitude" in float_cell v in
  let* sa := let* v := getitem row "SubscriptionAmount" in int_cell v in
  let* am := let* v := getitem row "Amenities" in strip_cell v in
  Ok {| gid := idx; partner_name := pn; gym_name := gn; address := ad;
        pincode := pc; latitude := la; longitude := lo;
        subscription_amount := sa; amenities := am; distance := None |}.

(** [for idx, row in enumerate(reader, start=idx)]: each gym is appended
    to [self.gyms] as soon as it is built; an exception leaves the loop
    with the state reached so far. *)
Fixpoint load_loop (idx : Z) (rows : list (gmap string (option string)))
    (st : state) : result unit * state :=
  match rows with
  | [] => (Ok tt, st)
  | row :: rows' =>
      match gym_of_row idx row with
      | Raise e => (Raise e, st)
      | Ok gym =>
          let (r, st1) := alloc (Dict gym) st in
          load_loop (idx + 1) rows' (list_append (gyms st1) r st1)
      end
  end.

(** [self.gyms = []] *)
Definition reset_gyms (st : state) : state :=
  let (l, st1) := alloc (List []) st in set_gyms l st1.

Definition load_gyms (st : state) : state :=
  match csv st with
  | Missing => reset_gyms st           (* except FileNotFoundError *)
  | Unreadable => reset_gyms st        (* except Exception *)
  | Table rows =>
      match load_loop 1 (dict_reader rows) (reset_gyms st) with
      | (Ok _, st1) => st1
      | (Raise _, st1) => reset_gyms st1   (* except Exception *)
      end
  end.

(** What the loop builds when no row raises, as a function of the rows
    alone; the first exception otherwise. *)
Fixpoint gyms_of_rows (idx : Z) (rows : list (gmap string (option string)))
  : result (list Gym) :=
  match rows with
  | [] => Ok []
  | row :: rows' =>
      let* gym := gym_of_row idx row in
      let* rest := gyms_of_rows (idx + 1) rows' in
      Ok (gym :: rest)
  end.

(** [if partner]: neither [None] nor the empty string. *)
Definition truthy (partner : option string) : bool :=
  match partner with
  | Some (String _ _) => true
  | _ => false
  end.

(** Returns the list object [self.gyms] itself for an empty filter, and a
    new list of the matching stored dictionaries otherwise. *)
Definition get_gyms_by_partner (partner : option string) (st : state)
  : ref * state :=
  match partner with
  | Some (String _ _ as p) =>
      alloc (List (List.filter
                     (on_dict st (fun gym =>
                        String.eqb (lower (partner_name gym)) (lower p)))
                     (get_list st (gyms st)))) st
  | _ => (gyms st, st)
  end.

(** Returns the stored dictionary itself, or [None]. *)
Definition get_gym_by_id (gym_id : Z) (st : state) : option ref :=
  List.find (on_dict st (fun gym => gid gym =? gym_id))
    (get_list st (gyms st)).

(** The loop of [get_nearby_gyms]: a copy of each gym with its distance,
    paired here with the sort key ([x['distance']]). *)
Fixpoint distance_loop (user_lat user_lon : float) (gs : list ref)
    (st : state) : result (list (float * ref)) * state :=
  match gs with
  | [] => (Ok [], st)
  | r :: gs' =>
      match get_dict st r with
      | None => (Raise TypeError, st)
      | Some gym =>
          match haversine_distance user_lat user_lon
                  (latitude gym) (longitude gym) with
          | Raise e => (Raise e, st)
          | Ok d =>
              let (c, st1) := alloc (Dict (set_distance (Some d) gym)) st in
              match distance_loop user_lat user_lon gs' st1 with
              | (Ok rest, st2) => (Ok ((d, c) :: rest), st2)
              | (Raise e, st2) => (Raise e, st2)
              end
          end
      end
  end.

(** [lst.sort(key=...)] on float keys: a stable sort that compares keys
    with [<]. Stable sorts agree on every input whose keys are totally
    ordered by [<]; the model is an insertion sort. *)
Fixpoint insert_by_key {A} (x : float * A) (l : list (float * A))
  : list (float * A) :=
  match l with
  | [] => [x]
  | y :: l' =>
      if flt (fst y) (fst x) then y :: insert_by_key x l' else x :: l
  end.

Fixpoint sort_by_key {A} (l : list (float * A)) : list (float * A) :=
  match l with
  | [] => []
  | x :: l' => insert_by_key x (sort_by_key l')
  end.

(** The order of the sort keys, and the lists no key of which is NaN. *)
Definition key_le {A} (x y : float * A) : Prop := fle (fst x) (fst y) = true.

Definition keys_ordinary {A} (l : list (float * A)) : Prop :=
  Forall (fun x => is_nan (fst x) = false) l.

(** [lst[:limit]] *)
Definition slice_to {A} (limit : Z) (l : list A) : list A :=
  if 0 <=? limit then firstn (Z.to_nat limit) l
  else firstn (length l - Z.to_nat (- limit)) l.

(** The working list [gyms_with_distance] never leaves the method: it is
    kept as a value, and the slice that is returned is a new list
    object. *)
Definition get_nearby_gyms (user_lat user_lon : float)
    (partner : option string) (limit : Z) (st : state)
  : result ref * state :=
  let (gs, st1) :=
    if truthy partner then get_gyms_by_partner partner st
    else (gyms st, st) in
  match distance_loop user_lat user_lon (get_list st1 gs) st1 with
  | (Raise e, st2) => (Raise e, st2)
  | (Ok gyms_with_distance, st2) =>
      let (res, st3) :=
        alloc (List (slice_to limit
                       (map snd (sort_by_key gyms_with_distance)))) st2 in
      (Ok res, st3)
  end.

(** The gyms [get_nearby_gyms] ranks: those of the partner, or the whole
    collection when there is no filter. *)
Definition candidates (partner : option string) (st : state) : list Gym :=
  match partner with
  | Some (String _ _ as p) =>
      List.filter
        (fun gym => String.eqb (lower (partner_name gym)) (lower p))
        (collection st)
  | _ => collection st
  end.

(** [gym['distance']], with NaN for a missing key. *)
Definition distance_of (gym : Gym) : float :=
  match distance gym with
  | Some d => d
  | None => S754_nan
  end.

(** Non-decreasing distances: [dist(l[i]) <= dist(l[j])] whenever [i < j]. *)
Definition sorted_by_distance (l : list Gym) : Prop :=
  forall (i j : nat) gi gj,
    (i < j)%nat -> l !! i = Some gi -> l !! j = Some gj ->
    fle (distance_of gi) (distance_of gj) = true.

(** The gyms of [l] at a distance equal ([==]) to [d], in the order of [l]. *)
Definition at_distance (d : float) (l : list Gym) : list Gym :=
  List.filter (fun gym => feq (distance_of gym) d) l.

(** Each candidate with its distance, as the loop of [get_nearby_gyms] builds
    the copies, paired with the sort key. *)
Definition keyed (gs : list Gym) (dists : list float) : list (float * Gym) :=
  zip_with (fun g d => (d, set_distance (Some d) g)) gs dists.

(** A reference with its key stands for a gym with the same key. *)
Definition stands_for (st : state) (dc : float * ref) (dg : float * Gym) : Prop :=
  fst dc = fst dg /\ get_dict st (snd dc) = Some (snd dg).

(** [max(ids, default=0)] *)
Definition max_default (ids : list Z) : Z :=
  match ids with
  | [] => 0
  | i :: ids' => fold_left Z.max ids' i
  end.

Definition row_of_gym (gym : Gym) : list string :=
  [partner_name gym; gym_name gym; address gym; pincode gym;
   str_of_float (latitude gym); str_of_float (longitude gym);
   str_of_int (subscription_amount gym); amenities gym].

(** The file is written as it is ([newline='']) and read in text mode, so a
    cell that was written is read back with its line ends translated. The
    rest of the encoding of a table as text (delimiters, quoting) is the
    [csv] module's own, and reading undoes it. *)
Definition row_as_read (gym : Gym) : list string :=
  map universal_newlines (row_of_gym gym).

(** A failure to write is reported and swallowed: the file keeps its
    content. *)
Definition _save_to_csv (st : state) : state :=
  if writable st
  then set_csv (Table (fieldnames :: map row_as_read (collection st))) st
  else st.

(** The gyms [gs] with the identifiers [idx], [idx + 1], ... in order. *)
Fixpoint renumber (idx : Z) (gs : list Gym) : list Gym :=
  match gs with
  | [] => []
  | g :: gs' => set_gid idx g :: renumber (idx + 1) gs'
  end.




(** The dictionary [new_gym] of [add_gym]. *)
Definition gym_of_data (new_id : Z) (gym_data : GymData) : Gym :=
  {| gid := new_id;
     partner_name := data_partner_name gym_data;
     gym_name := data_gym_name gym_data;
     address := data_address gym_data;
     pincode := data_pincode gym_data;
     latitude := data_latitude gym_data;
     longitude := data_longitude gym_data;
     subscription_amount := data_subscription_amount gym_data;
     amenities := data_amenities gym_data;
     distance := None |}.

Definition add_gym (gym_data : GymData) (st : state) : Z * state :=
  let new_id := max_default (map gid (collection st)) + 1 in
  let new_gym := gym_of_data new_id gym_data in
  let (r, st1) := alloc (Dict new_gym) st in
  let st2 := list_append (gyms st1) r st1 in
  (new_id, _save_to_csv st2).

Definition delete_gym (gym_id : Z) (st : state) : bool * state :=
  let old := get_list st (gyms st) in
  let kept :=
    List.filter (fun r => negb (on_dict st (fun g => gid g =? gym_id) r)) old in
  let (l, st1) := alloc (List kept) st in
  let st2 := set_gyms l st1 in
  if (length kept <? length old)%nat then (true, _save_to_csv st2)
  else (false, st2).

(** The states a store goes through: [load_gyms] builds it, and then its
    own methods act on it. *)
Inductive reachable : state -> Prop :=
| reach_load st : reachable (load_gyms st)
| reach_filter partner st :
    reachable st -> reachable (snd (get_gyms_by_partner partner st))
| reach_nearby user_lat user_lon partner limit st :
    reachable st ->
    reachable (snd (get_nearby_gyms user_lat user_lon partner limit st))
| reach_add gym_data st : reachable st -> reachable (snd (add_gym gym_data st))
| reach_delete gym_id st : reachable st -> reachable (snd (delete_gym gym_id st)).

End WithBuiltins.
End Store.

(** ** RequestLog: [SubscriptionManager] *)

Module RequestLog.
Import Py Str.

(** The dictionary of a validated [SubscriptionRequest]: it has every key,
    so no default of [.get] is ever used; an optional entry may hold
    [None]. *)
Record RequestData := {
  data_gym_id : Z;
  data_gym_name : string;
  data_partner_name : string;
  data_full_name : string;
  data_email : string;
  data_phone : string;
  data_preferred_plan : string;
  data_billing_address : option string;
  data_message : option string;
  data_user_latitude : option float;
  data_user_longitude : option float;
  data_user_city : option string
}.

Record Request := {
  request_id : string;
  timestamp : string;
  gym_id : Z;
  gym_name : string;
  partner_name : string;
  full_name : string;
  email : string;
  phone : string;
  preferred_plan : string;
  billing_address : option string;
  message : option string;
  user_latitude : option float;
  user_longitude : option float;
  user_city : option string;
  status : string
}.

(** The JSON file: missing, not a JSON document, or a document whose
    ['requests'] entry, when there is one, is a list of requests. *)
Inductive log_file :=
| LogMissing
| LogCorrupt
| LogDoc (requests : option (list Request)).

Record state := {
  log : log_file;
  log_writable : bool
}.

Definition _ensure_file_exists (st : state) : result unit * state :=
  match log st with
  | LogMissing =>
      if log_writable st
      then (Ok tt, {| log := LogDoc (Some []); log_writable := true |})
      else (Raise OSError, st)
  | _ => (Ok tt, st)
  end.

(** Reading never raises: every failure yields the empty list. *)
Definition get_all_requests (st : state) : list Request :=
  match log st with
  | LogDoc (Some requests) => requests
  | _ => []
  end.

(** [date_str] and [now] are what the clock gives at the call:
    [datetime.now()] formatted as [%Y%m%d] and as ISO-8601. *)
Definition save_request (date_str now : string) (request_data : RequestData)
    (st : state) : result string * state :=
  let requests := get_all_requests st in
  let request_count :=
    Z.of_nat (length (List.filter
                        (fun r => startswith ("REQ_" +:+ date_str) (request_id r))
                        requests)) + 1 in
  let request_id_ := "REQ_" +:+ date_str +:+ "_" +:+ format_03d request_count in
  let new_request :=
    {| request_id := request_id_;
       timestamp := now;
       gym_id := data_gym_id request_data;
       gym_name := data_gym_name request_data;
       partner_name := data_partner_name request_data;
       full_name := data_full_name request_data;
       email := data_email request_data;
       phone := data_phone request_data;
       preferred_plan := data_preferred_plan request_data;
       billing_address := data_billing_address request_data;
       message := data_message request_data;
       user_latitude := data_user_latitude request_data;
       user_longitude := data_user_longitude request_data;
       user_city := data_user_city request_data;
       status := "pending" |} in
  if log_writable st
  then (Ok request_id_,
        {| log := LogDoc (Some (requests ++ [new_request]));
           log_writable := true |})
  else (Raise OSError, st).

End RequestLog.

(** ** A stand-in for the library, and sample data

    Used only to run the definitions on concrete inputs. The trigonometric
    functions are replaced by their small-angle approximations, [round] by
    the identity, and [repr] by an exact "mantissa p exponent" notation. *)

Module Sample.
Import Py Str Store.

Definition pi : float := S754_finite false 884279719003555 (-48).
Definition deg_to_rad : float := Eval vm_compute in fdiv pi (round_int 180).
Definition one : float := Eval vm_compute in round_int 1.

Definition finite_or_nan (x : float) : bool :=
  match x with S754_infinity _ => false | _ => true end.

Definition sin_ (x : float) : result float :=
  if finite_or_nan x then Ok x else Raise ValueError.
Definition cos_ (x : float) : result float :=
  if finite_or_nan x then Ok (if is_nan x then x else one) else Raise ValueError.
Definition asin_ (x : float) : result float :=
  if is_nan x then Ok x
  else if fle (SFabs x) one then Ok x else Raise ValueError.
Definition sqrt_ (x : float) : result float :=
  if flt x (S754_zero false) then Raise ValueError else Ok (SFsqrt prec emax x).
Definition pow_ (x : float) (n : Z) : result float := Ok (fmul x x).

Fixpoint split_at (c : ascii) (s : string) : option (string * string) :=
  match s with
  | EmptyString => None
  | String a s' =>
      if Ascii.eqb a c then Some (EmptyString, s')
      else match split_at c s' with
           | Some (l, r) => Some (String a l, r)
           | None => None
           end
  end.

Definition repr_ (x : float) : string :=
  match x with
  | S754_nan => "nan"
  | S754_infinity s => if s then "-inf" else "inf"
  | S754_zero s => if s then "-0.0" else "0.0"
  | S754_finite s m e =>
      (if s then "-" else "") +:+ str_of_int (Zpos m) +:+ "p" +:+ str_of_int e
  end.

Definition parse_ (s : string) : option float :=
  let t := strip s in
  if String.eqb t "nan" then Some S754_nan
  else if String.eqb t "inf" then Some (S754_infinity false)
  else if String.eqb t "-inf" then Some (S754_infinity true)
  else if String.eqb t "0.0" then Some (S754_zero false)
  else if String.eqb t "-0.0" then Some (S754_zero true)
  else
    match split_at "p" t with
    | Some (ms, es) =>
        match int_of_str ms, int_of_str es with
        | Some (Zpos m), Some e => Some (S754_finite false m e)
        | Some (Zneg m), Some e => Some (S754_finite true m e)
        | _, _ => None
        end
    | None => None
    end.

#[export] Instance sample_builtins : Builtins := {|
  math_radians := fun x => fmul x deg_to_rad;
  math_sin := sin_;
  math_cos := cos_;
  math_asin := asin_;
  math_sqrt := sqrt_;
  float_pow := pow_;
  round_ndigits := fun x _ => x;
  str_of_float := repr_;
  float_of_str := parse_
|}.

Definition f (z : Z) : float := round_int z.

Definition header : list string := fieldnames.

Definition rows3 : list (list string) :=
  [ header;
    ["Cult"; " Cult Andheri "; "Link Road"; "400053";
     repr_ (f 19); repr_ (f 72); "2499"; "AC, Parking"];
    [];
    ["Gold"; "Gold Bandra"; "Hill Road"; "400050";
     repr_ (f 21); repr_ (f 72); "1999"; "Pool"];
    ["cult"; "Cult Powai"; "Lake Road"; "400076";
     repr_ (f 19); repr_ (f 74); "2999"; "AC"] ].

Definition empty_state (file_ : file) : state :=
  {| heap := ∅; gyms := 1%positive; csv := file_; writable := true |}.

(** A store right after construction from a three-gym file. *)
Definition st3 : state := load_gyms (empty_state (Table rows3)).

Definition new_data : GymData :=
  {| data_partner_name := "Gold"; data_gym_name := "Gold Juhu";
     data_address := "Beach Road"; data_pincode := "400049";
     data_latitude := f 19; data_longitude := f 73;
     data_subscription_amount := 1500; data_amenities := "Sauna" |}.

(** The gyms a nearest-gym query returns, or [None] when it raises. *)
Definition nearby (user_lat user_lon : float) (partner : option string)
    (limit : Z) (st : state) : option (list Gym) :=
  match get_nearby_gyms user_lat user_lon partner limit st with
  | (Ok l, st') => Some (records st' (get_list st' l))
  | (Raise _, _) => None
  end.

(** The distances of the gyms of [st3] from the point (20, 72). *)
Definition st3_dists : list float :=
  Eval vm_compute in
    map (fun g =>
           match Distance.haversine_distance (f 20) (f 72)
                   (latitude g) (longitude g) with
           | Ok d => d
           | Raise _ => S754_nan
           end) (collection st3).

(** A file whose first gym has the latitude ["nan"], which [float] accepts. *)
Definition rows_nan : list (list string) :=
  [ header;
    ["Cult"; "Cult Nowhere"; "Link Road"; "400053";
     "nan"; repr_ (f 72); "2499"; "AC"];
    ["Gold"; "Gold Bandra"; "Hill Road"; "400050";
     repr_ (f 21); repr_ (f 72); "1999"; "Pool"] ].

Definition st_nan : state := load_gyms (empty_state (Table rows_nan)).

Definition request_data : RequestLog.RequestData :=
  {| RequestLog.data_gym_id := 1;
     RequestLog.data_gym_name := "Cult Andheri";
     RequestLog.data_partner_name := "Cult";
     RequestLog.data_full_name := "Asha Rao";
     RequestLog.data_email := "asha@example.com";
     RequestLog.data_phone := "9876543210";
     RequestLog.data_preferred_plan := "3-month";
     RequestLog.data_billing_address := Some "Mumbai";
     RequestLog.data_message := Some "";
     RequestLog.data_user_latitude := None;
     RequestLog.data_user_longitude := None;
     RequestLog.data_user_city := None |}.

Definition empty_log : RequestLog.state :=
  {| RequestLog.log := RequestLog.LogDoc (Some []);
     RequestLog.log_writable := true |}.

(** The request that [save_request] stores as number [n] of the day. *)
Definition stored_request (date_str : string) (n : Z) : RequestLog.Request :=
  {| RequestLog.request_id := "REQ_" +:+ date_str +:+ "_" +:+ format_03d n;
     RequestLog.timestamp := "2024-01-01T10:00:00";
     RequestLog.gym_id := 1;
     RequestLog.gym_name := "Cult Andheri";
     RequestLog.partner_name := "Cult";
     RequestLog.full_name := "Asha Rao";
     RequestLog.email := "asha@example.com";
     RequestLog.phone := "9876543210";
     RequestLog.preferred_plan := "3-month";
     RequestLog.billing_address := Some "Mumbai";
     RequestLog.message := Some "";
     RequestLog.user_latitude := None;
     RequestLog.user_longitude := None;
     RequestLog.user_city := None;
     RequestLog.status := "pending" |}.

(** A log holding the 999 requests of one busy day. *)
Definition log999 : RequestLog.state :=
  {| RequestLog.log :=
       RequestLog.LogDoc (Some (map (stored_request "20240101") (seqZ 1 999)));
     RequestLog.log_writable := true |}.

End Sample.


(** ** More on strings *)

Module Text.
Import Str.

(** A string that does not start with whitespace. *)
Definition head_ok (s : string) : bool :=
  match s with
  | EmptyString => true
  | String c _ => negb (is_space c)
  end.

(** A string of whitespace only. *)
Fixpoint all_space (s : string) : bool :=
  match s with
  | EmptyString => true
  | String c s' => is_space c && all_space s'
  end.

End Text.

(** ** The order of the identifiers *)

Module Numbering.
Import Store.


End Numbering.

(** ** The partner list: [GymDatabase.get_all_partners] *)

Module Partners.
Import Py Str Store.

(** An entry [{"name": .., "count": ..}] of the result. *)
Record Partner := {
  name : string;
  count : Z
}.

(** [partner_counts[partner] = partner_counts.get(partner, 0) + 1]. A [dict]
    keeps its keys in the order of their first insertion, and an update
    leaves a key where it is. *)
Fixpoint count_partner (partner : string) (partner_counts : list (string * Z))
  : list (string * Z) :=
  match partner_counts with
  | [] => [(partner, 0 + 1)]
  | item :: rest =>
      if String.eqb (fst item) partner then (fst item, snd item + 1) :: rest
      else item :: count_partner partner rest
  end.

(** The loop over [self.gyms]. *)
Definition partner_counts (gs : list Gym) : list (string * Z) :=
  fold_left (fun d gym => count_partner (partner_name gym) d) gs [].

(** [x < y] on [(name, count)] tuples: the first components that differ
    decide; strings are compared code point by code point. *)
Definition item_lt (x y : string * Z) : bool :=
  if String.eqb (fst x) (fst y)
  then (if snd x =? snd y then false else snd x <? snd y)
  else String.ltb (fst x) (fst y).

(** [sorted(items)]: a stable sort that compares with [<]; as for
    [sort_by_key], the model is an insertion sort. *)
Fixpoint insert_item (x : string * Z) (l : list (string * Z))
  : list (string * Z) :=
  match l with
  | [] => [x]
  | y :: l' => if item_lt y x then y :: insert_item x l' else x :: l
  end.

Fixpoint sorted (l : list (string * Z)) : list (string * Z) :=
  match l with
  | [] => []
  | x :: l' => insert_item x (sorted l')
  end.

Definition get_all_partners (st : state) : list Partner :=
  map (fun item => {| name := fst item; count := snd item |})
    (sorted (partner_counts (collection st))).

(** The number of gyms whose partner name is exactly [p]. *)
Definition gyms_of (p : string) (gs : list Gym) : Z :=
  Z.of_nat (length (List.filter (fun gym => String.eqb (partner_name gym) p) gs)).

(** The sum of the counts of a partner list. *)
Definition total_count (ps : list Partner) : Z :=
  fold_right (fun p acc => count p + acc) 0 ps.

(** The count a dictionary of counts holds for [p], and 0 without one. *)
Definition count_at (p : string) (d : list (string * Z)) : Z :=
  match List.find (fun item => String.eqb (fst item) p) d with
  | Some item => snd item
  | None => 0
  end.

(** The sum of the counts of the keys that satisfy [test]. *)
Definition sum_if (test : string -> bool) (d : list (string * Z)) : Z :=
  fold_right (fun item acc => (if test (fst item) then snd item else 0) + acc)
    0 d.

(** Items in increasing order of their keys. *)
Definition by_name (x y : string * Z) : Prop :=
  String.ltb (fst x) (fst y) = true.

End Partners.

(** ** Files beside the backing file: [GymDatabase.replace_all_gyms] *)

Module Files.
Import Py Str Store.

(** The database object among the files: [csv_path] is the attribute
    [self.csv_path]; [store] is the rest of the object together with the
    file at that path; [others] holds the files at the other paths (a path
    that is no key, or whose entry is [Missing], has no file). A path is the
    string it is written as. *)
Record world := {
  csv_path : string;
  store : state;
  others : gmap string file
}.

Definition set_store (st : state) (w : world) : world :=
  {| csv_path := csv_path w; store := st; others := others w |}.

Definition read_path (p : string) (w : world) : file :=
  if String.eqb p (csv_path w) then csv (store w)
  else default Missing (others w !! p).

Definition write_path (p : string) (f : file) (w : world) : world :=
  if String.eqb p (csv_path w) then set_store (set_csv f (store w)) w
  else {| csv_path := csv_path w; store := store w;
          others := <[p := f]> (others w) |}.

(** [Path(src).replace(dst)]: the file is renamed and takes the place of
    the one at [dst], if any; [FileNotFoundError] when there is no file at
    [src]. Renaming a file to itself does nothing. *)
Definition path_replace (src dst : string) (w : world) : result unit * world :=
  match read_path src w with
  | Missing => (Raise FileNotFoundError, w)
  | f =>
      if String.eqb src dst then (Ok tt, w)
      else (Ok tt, write_path src Missing (write_path dst f w))
  end.

(** [Path(p).unlink()] *)
Definition unlink (p : string) (w : world) : result unit * world :=
  match read_path p w with
  | Missing => (Raise FileNotFoundError, w)
  | _ => (Ok tt, write_path p Missing w)
  end.

Section WithBuiltins.
Context `{Builtins}.

(** The backup is attempted and its failure ignored ([except: pass]); the
    second rename is not guarded. *)
Definition replace_all_gyms (new_csv_path : string) (w : world)
  : result Z * world :=
  let backup_path := csv_path w +:+ ".backup" in
  let w1 := snd (path_replace (csv_path w) backup_path w) in
  match path_replace new_csv_path (csv_path w1) w1 with
  | (Raise e, w2) => (Raise e, w2)
  | (Ok _, w2) =>
      let st := load_gyms (store w2) in
      (Ok (Z.of_nat (length (get_list st (gyms st)))), set_store st w2)
  end.

End WithBuiltins.
End Files.

(** ** The request log over time *)

Module Journal.
Import Py Str RequestLog.

(** [saves len st0 st]: the log [st] is reached from [st0] by calls of
    [save_request], on days whose date string has [len] characters
    ([%Y%m%d] gives 8 characters for the years 1000 to 9999). *)
Inductive saves (len : nat) (st0 : state) : state -> Prop :=
| saves_none : saves len st0 st0
| saves_next date_str now request_data st :
    saves len st0 st -> String.length date_str = len ->
    saves len st0 (snd (save_request date_str now request_data st)).

(** The identifier [save_request] builds from a date and a sequence number. *)
Definition request_id_of (date_str : string) (n : Z) : string :=
  "REQ_" +:+ date_str +:+ "_" +:+ format_03d n.

(** The identifiers of a day, in the order of the log. *)
Definition of_day (d : string) (requests : list Request) : list string :=
  map request_id
    (List.filter (fun r => startswith ("REQ_" +:+ d) (request_id r)) requests).

(** The identifiers of each day are numbered 1, 2, ... in the order of the
    log. *)
Definition numbered (len : nat) (requests : list Request) : Prop :=
  forall d, String.length d = len ->
    of_day d requests
    = map (request_id_of d) (seqZ 1 (Z.of_nat (length (of_day d requests)))).

End Journal.

(** ** Request validation: the validators of [main.py] *)

Module Validators.
Import Py Str.

(** [c.isdigit()] on one character: the decimal digits, and the superscript
    digits of Latin-1 (code points 178, 179 and 185). *)
Definition isdigit_char (c : ascii) : bool :=
  (is_digit c || (code c =? 178) || (code c =? 179) || (code c =? 185))%N.

Fixpoint all_chars (p : ascii -> bool) (s : string) : bool :=
  match s with
  | EmptyString => true
  | String c s' => p c && all_chars p s'
  end.

(** [s.isdigit()]: every character is a digit, and there is at least one. *)
Definition isdigit (s : string) : bool :=
  match s with
  | EmptyString => false
  | _ => all_chars isdigit_char s
  end.

(** [v[0] in chars], where [v] is not empty. *)
Definition first_in (chars : list ascii) (v : string) : bool :=
  match v with
  | String c _ => existsb (Ascii.eqb c) chars
  | EmptyString => false
  end.

Definition validate_phone (v : string) : result string :=
  if negb (isdigit v) || negb (String.length v =? 10)%nat then Raise ValueError
  else if negb (first_in ["6"; "7"; "8"; "9"]%char v) then Raise ValueError
  else Ok v.

Definition validate_name (v : string) : result string :=
  if (String.length v <? 3)%nat then Raise ValueError
  else if (100 <? String.length v)%nat then Raise ValueError
  else Ok (strip v).

Definition valid_plans : list string := ["1-month"; "3-month"; "12-month"].

Definition validate_plan (v : string) : result string :=
  if negb (existsb (String.eqb v) valid_plans) then Raise ValueError
  else Ok v.

Definition validate_pincode (v : string) : result string :=
  if negb (isdigit v) || negb (String.length v =? 6)%nat then Raise ValueError
  else Ok v.

(** [lo <= v <= hi] with integer bounds that binary64 represents exactly. *)
Definition between (lo hi : Z) (v : float) : bool :=
  fle (round_int lo) v && fle v (round_int hi).

Definition validate_latitude (v : float) : result float :=
  if negb (between (-90) 90 v) then Raise ValueError else Ok v.

Definition validate_longitude (v : float) : result float :=
  if negb (between (-180) 180 v) then Raise ValueError else Ok v.

(** A float that is neither NaN nor an infinity. *)
Definition is_finite (x : float) : bool :=
  match x with
  | S754_zero _ | S754_finite _ _ _ => true
  | _ => false
  end.

End Validators.

(** ** The endpoints of [main.py] *)

Module Api.
Import Py Str Plans Store Files.

(** What a call of an endpoint ends with: the body it returns, an
    [HTTPException] with its status code, or another exception that no
    handler of the endpoint catches. The detail text of an [HTTPException]
    is left out, and so is what the framework does with the outcome (it
    renders a body as JSON, and answers an exception nobody caught with
    status 500). *)
Inductive response (A : Type) :=
| Respond (body : A)
| HTTPException (status_code : Z)
| Unhandled (e : exn).
Arguments Respond {A} body.
Arguments HTTPException {A} status_code.
Arguments Unhandled {A} e.

(** The module-level objects [db] and [sub_manager]. *)
Record app := {
  db : world;
  sub_manager : RequestLog.state
}.

Definition set_db (w : world) (a : app) : app :=
  {| db := w; sub_manager := sub_manager a |}.

Definition set_gyms_store (st : state) (a : app) : app :=
  set_db (set_store st (db a)) a.

Definition set_sub_manager (s : RequestLog.state) (a : app) : app :=
  {| db := db a; sub_manager := s |}.

(** [try: body except Exception as e: raise HTTPException(status_code)]:
    an [HTTPException] raised in the body is an [Exception] too. *)
Definition except_Exception {A S} (status_code : Z) (body : response A * S)
  : response A * S :=
  match body with
  | (Respond b, s) => (Respond b, s)
  | (_, s) => (HTTPException status_code, s)
  end.

Definition ADMIN_PASSWORD : string := "habitadmin2025".

Definition verify_admin (password : string) : response unit :=
  if negb (String.eqb password ADMIN_PASSWORD) then HTTPException 401
  else Respond tt.

(** [s.split(sep)] for a one-character separator. *)
Fixpoint split (sep : ascii) (s : string) : list string :=
  match s with
  | EmptyString => [EmptyString]
  | String c s' =>
      if Ascii.eqb c sep then EmptyString :: split sep s'
      else match split sep s' with
           | piece :: pieces => String c piece :: pieces
           | [] => [String c EmptyString]
           end
  end.

(** [s.endswith(suffix)] *)
Fixpoint endswith (suffix s : string) : bool :=
  String.eqb s suffix ||
  match s with
  | EmptyString => false
  | String _ s' => endswith suffix s'
  end.

(** The number of occurrences of a character. *)
Fixpoint occurrences (c : ascii) (s : string) : nat :=
  match s with
  | EmptyString => 0
  | String a s' => ((if Ascii.eqb a c then 1 else 0) + occurrences c s')%nat
  end.

(** The body of the answer of [get_gym_details]: a copy of the gym with two
    more keys. *)
Record GymDetails := {
  gym : Gym;
  subscription_plans : gmap string Plan;
  amenities_list : list string
}.

(** No handler surrounds the body: an exception of the plan calculator
    leaves the endpoint as it is. *)
Definition get_gym_details (gym_id : Z) (a : app) : response GymDetails :=
  match get_gym_by_id gym_id (store (db a)) with
  | None => HTTPException 404
  | Some r =>
      match get_dict (store (db a)) r with
      | None => Unhandled TypeError
      | Some gym_ =>
          match calculate_subscription_plans (subscription_amount gym_) with
          | Raise e => Unhandled e
          | Ok plans =>
              Respond {| gym := gym_;
                         subscription_plans := plans;
                         amenities_list :=
                           map strip (split "," (amenities gym_)) |}
          end
      end
  end.

(** [request] is the dictionary of a validated [SubscriptionRequest];
    [date_str] and [now] are what the clock gives. The check that the gym
    exists is inside the [try] block. *)
Definition submit_subscription_request (date_str now : string)
    (request : RequestLog.RequestData) (a : app) : response string * app :=
  except_Exception 500
    match get_gym_by_id (RequestLog.data_gym_id request) (store (db a)) with
    | None => (HTTPException 404, a)
    | Some _ =>
        match RequestLog.save_request date_str now request (sub_manager a) with
        | (Ok request_id, s) => (Respond request_id, set_sub_manager s a)
        | (Raise e, s) => (Unhandled e, set_sub_manager s a)
        end
    end.

(** What is uploaded: bytes that are not a table the [csv] module can read,
    or a table. *)
Inductive upload :=
| Garbled
| Rows (rows : list (list string)).

Definition file_of_upload (u : upload) : file :=
  match u with
  | Garbled => Unreadable
  | Rows rows => Table rows
  end.

Definition upload_path : string := "uploaded_gyms.csv".

Section WithBuiltins.
Context `{Builtins}.

(** [gym_data] is the validated body; the parameter defaults to [None], and
    without a body [gym_data.dict()] raises inside the [try] block. *)
Definition admin_add_gym (password : string) (gym_data : option GymData)
    (a : app) : response Z * app :=
  match verify_admin password with
  | Respond _ =>
      except_Exception 500
        match gym_data with
        | None => (Unhandled AttributeError, a)
        | Some data =>
            let (new_id, st) := add_gym data (store (db a)) in
            (Respond new_id, set_gyms_store st a)
        end
  | HTTPException c => (HTTPException c, a)
  | Unhandled e => (Unhandled e, a)
  end.

Definition admin_delete_gym (gym_id : Z) (password : string) (a : app)
  : response unit * app :=
  match verify_admin password with
  | Respond _ =>
      let (success, st) := delete_gym gym_id (store (db a)) in
      if negb success then (HTTPException 404, set_gyms_store st a)
      else (Respond tt, set_gyms_store st a)
  | HTTPException c => (HTTPException c, a)
  | Unhandled e => (Unhandled e, a)
  end.

(** The upload is written to [upload_path], the store is replaced by it,
    and [upload_path] is removed, all inside one [try] block; the answer
    carries the number of gyms loaded. *)
Definition admin_upload_csv (password filename : string) (content : upload)
    (a : app) : response Z * app :=
  match verify_admin password with
  | Respond _ =>
      if negb (endswith ".csv" filename) then (HTTPException 400, a)
      else
        except_Exception 500
          (let w1 := write_path upload_path (file_of_upload content) (db a) in
           match replace_all_gyms upload_path w1 with
           | (Raise e, w2) => (Unhandled e, set_db w2 a)
           | (Ok count, w2) =>
               match unlink upload_path w2 with
               | (Raise e, w3) => (Unhandled e, set_db w3 a)
               | (Ok _, w3) => (Respond count, set_db w3 a)
               end
           end)
  | HTTPException c => (HTTPException c, a)
  | Unhandled e => (Unhandled e, a)
  end.

(** The endpoint [get_nearby_gyms] of [main.py]. The query parameter
    [limit] is declared with [ge=1, le=50]: a value outside is refused with
    status 422 before the body runs. The answer carries the list that the
    store's [get_nearby_gyms] returns. *)
Definition get_nearby_gyms (lat lon : float) (partner : option string)
    (limit : Z) (a : app) : response ref * app :=
  if negb ((1 <=? limit) && (limit <=? 50)) then (HTTPException 422, a)
  else
    match Store.get_nearby_gyms lat lon partner limit (store (db a)) with
    | (Ok gyms_, st) => (Respond gyms_, set_gyms_store st a)
    | (Raise e, st) => (Unhandled e, set_gyms_store st a)
    end.

End WithBuiltins.
End Api.

(** ** Sample data for the endpoints *)

Module SampleApp.
Import Py Str Store Files Api Sample.

Definition world3 : world :=
  {| csv_path := "gyms.csv"; store := st3; others := ∅ |}.

Definition app3 : app :=
  {| db := world3; sub_manager := empty_log |}.

(** A file with one gym, and the sample store beside it. *)
Definition rows1 : list (list string) :=
  [ header;
    ["Fit"; "Fit Dadar"; "Station Road"; "400014";
     repr_ (f 19); repr_ (f 73); "999"; "AC"] ].


(** The sample store over a file that cannot be written. *)
Definition st3_readonly : state :=
  load_gyms {| heap := ∅; gyms := 1%positive; csv := Table rows3;
               writable := false |}.

(** A file whose gym has the latitude ["inf"], which [float] accepts. *)
Definition rows_inf : list (list string) :=
  [ header;
    ["Cult"; "Cult Far"; "Link Road"; "400053";
     "inf"; repr_ (f 72); "2499"; "AC"] ].

Definition st_inf : state := load_gyms (empty_state (Table rows_inf)).

Definition gym_inf : Gym :=
  {| gid := 1; partner_name := "Cult"; gym_name := "Cult Far";
     address := "Link Road"; pincode := "400053";
     latitude := S754_infinity false; longitude := f 72;
     subscription_amount := 2499; amenities := "AC"; distance := None |}.

(** A log after a request on each of two days. *)
Definition log2 : RequestLog.state :=
  snd (RequestLog.save_request "20240102" "2024-01-02T09:00:00" request_data
         (snd (RequestLog.save_request "20240101" "2024-01-01T10:00:00"
                 request_data empty_log))).

End SampleApp.

(** * Properties *)

(** ** Rounding to binary64

    The lemmas below follow [binary_round_aux]: a right shift of the
    mantissa, a rounding to nearest even, and a second shift in case the
    rounding carried. *)

Module RoundingFacts.
Import Py.

Lemma iter_pos_nat {A} (f : A -> A) p : forall x, SpecFloat.iter_pos f p x = Nat.iter (Pos.to_nat p) f x.
Proof.
  induction p as [p IH|p IH|]; intros x; simpl SpecFloat.iter_pos.
  - rewrite !IH, Pos2Nat.inj_xI.
    replace (S (2 * Pos.to_nat p)) with (Pos.to_nat p + S (Pos.to_nat p))%nat by lia.
    rewrite Nat.iter_add. f_equal. by rewrite Nat.iter_succ_r.
  - rewrite !IH, Pos2Nat.inj_xO.
    replace (2 * Pos.to_nat p)%nat with (Pos.to_nat p + Pos.to_nat p)%nat by lia.
    by rewrite Nat.iter_add.
  - reflexivity.
Qed.

Lemma shr_1_m mrs : 0 <= shr_m mrs -> shr_m (shr_1 mrs) = shr_m mrs / 2 /\ shr_r (shr_1 mrs) = Z.odd (shr_m mrs).
Proof.
  destruct mrs as [m r s]. simpl. intros Hm.
  destruct m as [|[p|p|]|p]; try lia; simpl; split; try reflexivity.
  - rewrite Pos2Z.inj_xI. apply Z.div_unique with (r := 1); lia.
  - rewrite Pos2Z.inj_xO. apply Z.div_unique with (r := 0); lia.
Qed.

Lemma shr_iter_m (k : nat) mrs : 0 <= shr_m mrs ->
  shr_m (Nat.iter k shr_1 mrs) = shr_m mrs / 2 ^ Z.of_nat k.
Proof.
  intros Hm. induction k as [|k IH].
  - simpl. by rewrite Z.div_1_r.
  - simpl Nat.iter.
    assert (0 <= shr_m (Nat.iter k shr_1 mrs)).
    { rewrite IH. apply Z.div_pos; [done|]. apply Z.pow_pos_nonneg; lia. }
    destruct (shr_1_m _ H) as [-> _]. rewrite IH.
    rewrite Nat2Z.inj_succ, Z.pow_succ_r by lia.
    assert (0 < 2 ^ Z.of_nat k) by (apply Z.pow_pos_nonneg; lia).
    rewrite Z.div_div by lia. f_equal. lia.
Qed.

Lemma shr_iter_r (k : nat) mrs : 0 <= shr_m mrs ->
  shr_r (Nat.iter (S k) shr_1 mrs) = Z.odd (shr_m mrs / 2 ^ Z.of_nat k).
Proof.
  intros Hm. simpl Nat.iter.
  assert (0 <= shr_m (Nat.iter k shr_1 mrs)).
  { rewrite shr_iter_m by done. apply Z.div_pos; [done|]. apply Z.pow_pos_nonneg; lia. }
  destruct (shr_1_m _ H) as [_ ->]. by rewrite shr_iter_m.
Qed.

Lemma digits2_pos_spec p :
  2 ^ (Zpos (digits2_pos p) - 1) <= Zpos p < 2 ^ Zpos (digits2_pos p).
Proof.
  induction p as [p IH|p IH|]; simpl digits2_pos.
  - rewrite Pos2Z.inj_succ. replace (Z.succ (Zpos (digits2_pos p)) - 1) with (Z.succ (Zpos (digits2_pos p) - 1)) by lia.
    rewrite !Z.pow_succ_r by lia. lia.
  - rewrite Pos2Z.inj_succ. replace (Z.succ (Zpos (digits2_pos p)) - 1) with (Z.succ (Zpos (digits2_pos p) - 1)) by lia.
    rewrite !Z.pow_succ_r by lia. lia.
  - simpl. lia.
Qed.

Lemma fexp64_eq x : fexp 53 1024 x = Z.max (x - 53) (-1074).
Proof. reflexivity. Qed.

(** Shifting a non-negative mantissa, starting from an exact location. *)
Lemma shr_fexp_exact m e :
  0 <= m ->
  let e1 := Z.max (Zdigits2 m + e - 53) (-1074) in
  (e1 <= e -> shr_fexp 53 1024 m e loc_Exact = (Build_shr_record m false false, e)) /\
  (e < e1 -> exists mrs,
     shr_fexp 53 1024 m e loc_Exact = (mrs, e1) /\
     shr_m mrs = m / 2 ^ (e1 - e) /\
     (shr_r mrs = true -> Z.odd (m / 2 ^ (e1 - e - 1)) = true)).
Proof.
  intros Hm e1. unfold shr_fexp. rewrite fexp64_eq. fold e1.
  unfold shr. simpl shr_record_of_loc. split.
  - intros Hle. destruct (e1 - e) as [|p|p] eqn:E; try reflexivity. lia.
  - intros Hlt. destruct (e1 - e) as [|p|p] eqn:E; try lia.
    eexists. split; [f_equal; lia|].
    rewrite iter_pos_nat. split.
    + rewrite shr_iter_m by done. simpl shr_m. by rewrite positive_nat_Z.
    + destruct (Pos.to_nat p) as [|k] eqn:Ek; [lia|].
      rewrite shr_iter_r by done. simpl shr_m.
      replace (Z.pos p - 1) with (Z.of_nat k) by lia. done.
Qed.

Lemma round_cases mrs :
  let m2 := round_nearest_even (shr_m mrs) (loc_of_shr_record mrs) in
  m2 = shr_m mrs \/ (m2 = shr_m mrs + 1 /\ shr_r mrs = true).
Proof.
  destruct mrs as [m [] []]; simpl; auto; destruct (Z.even m); auto.
Qed.

Lemma pow2_pos k : 0 <= k -> 0 < 2 ^ k.
Proof. intros. apply Z.pow_pos_nonneg; lia. Qed.

(** The last step of [binary_round_aux]: a non-negative mantissa [m2] below
    [2^(1024 - e1)] gives zero or a finite float. *)
Lemma finish_round s m2 e1 :
  0 <= m2 -> -1074 <= e1 <= 971 -> m2 < 2 ^ (1024 - e1) ->
  ordinary s
    (let '(mrs, e2) := shr_fexp 53 1024 m2 e1 loc_Exact in
     match shr_m mrs with
     | Z0 => S754_zero s
     | Zpos m => if e2 <=? 1024 - 53 then S754_finite s m e2 else S754_infinity s
     | Zneg _ => S754_nan
     end).
Proof.
  intros Hm He Hb.
  destruct (shr_fexp_exact m2 e1 Hm) as [Hsame Hshift]. cbv zeta in *.
  destruct m2 as [|q|q]; [| |lia].
  - rewrite Hsame by (simpl; lia). simpl. by left.
  - pose proof (digits2_pos_spec q) as [Hlo Hhi].
    simpl Zdigits2 in *. set (d2 := Zpos (digits2_pos q)) in *.
    assert (Hd2 : d2 <= 1024 - e1).
    { destruct (Z_lt_le_dec (1024 - e1) d2) as [Hgt|]; [|done].
      assert (2 ^ (1024 - e1) <= 2 ^ (d2 - 1)) by (apply Z.pow_le_mono_r; lia). lia. }
    destruct (Z_le_gt_dec (Z.max (d2 + e1 - 53) (-1074)) e1) as [Hle|Hgt].
    + rewrite Hsame by done. simpl shr_m.
      destruct (Z.leb_spec e1 (1024 - 53)); [|lia]. right. exists q, e1.
      repeat split; [|lia].
      assert (2 ^ d2 <= 2 ^ 53) by (apply Z.pow_le_mono_r; lia). lia.
    + destruct Hshift as (mrs & -> & Hm3 & _); [lia|].
      rewrite Hm3.
      assert (Hn : Z.max (d2 + e1 - 53) (-1074) - e1 = d2 - 53) by lia.
      rewrite Hn. 
      assert (Hp : 0 < 2 ^ (d2 - 53)) by (apply pow2_pos; lia).
      assert (H52 : 2 ^ 52 <= Zpos q / 2 ^ (d2 - 53)).
      { apply Z.div_le_lower_bound; [done|].
        rewrite <- Z.pow_add_r by lia. replace (d2 - 53 + 52) with (d2 - 1) by lia. done. }
      assert (H53 : Zpos q / 2 ^ (d2 - 53) < 2 ^ 53).
      { apply Z.div_lt_upper_bound; [done|].
        rewrite <- Z.pow_add_r by lia. replace (d2 - 53 + 53) with d2 by lia. done. }
      destruct (Zpos q / 2 ^ (d2 - 53)) as [|m3|m3] eqn:E3; try lia.
      destruct (Z.leb_spec (Z.max (d2 + e1 - 53) (-1074)) (1024 - 53)); [|lia].
      right. eexists _, _. repeat split; [done|lia].
Qed.

(** Rounding a positive mantissa whose value [M * 2^E] is below
    [2^1024 - 2^970] never overflows. *)
Lemma binary_round_aux_finite s (M : positive) E :
  E <= 970 -> Zpos M < (2 ^ 54 - 1) * 2 ^ (970 - E) ->
  ordinary s (binary_round_aux 53 1024 s (Zpos M) E loc_Exact).
Proof.
  intros HE HM. unfold binary_round_aux.
  destruct (shr_fexp_exact (Zpos M) E ltac:(lia)) as [Hsame Hshift]. cbv zeta in *.
  pose proof (digits2_pos_spec M) as [Hlo Hhi].
  simpl Zdigits2 in *. set (d := Zpos (digits2_pos M)) in *.
  assert (Hd : d + E <= 1024).
  { destruct (Z_lt_le_dec 1024 (d + E)) as [Hgt|]; [|done].
    assert (2 ^ (1024 - E) <= 2 ^ (d - 1)) by (apply Z.pow_le_mono_r; lia).
    assert (2 ^ (1024 - E) = 2 ^ 54 * 2 ^ (970 - E)).
    { rewrite <- Z.pow_add_r by lia. f_equal. lia. }
    assert (0 < 2 ^ (970 - E)) by (apply pow2_pos; lia). lia. }
  set (e1 := Z.max (d + E - 53) (-1074)) in *.
  destruct (Z_le_gt_dec e1 E) as [Hle|Hgt].
  - rewrite Hsame by done. cbn [shr_m loc_of_shr_record round_nearest_even].
    apply finish_round; [lia | lia |].
    assert (2 ^ d <= 2 ^ (1024 - E)) by (apply Z.pow_le_mono_r; lia). lia.
  - destruct Hshift as (mrs & -> & Hm1 & Hr); [lia|].
    pose proof (round_cases mrs) as Hround. cbv zeta in Hround.
    set (m2 := round_nearest_even (shr_m mrs) (loc_of_shr_record mrs)) in *.
    set (n1 := e1 - E) in *. set (K := 971 - e1).
    assert (HK : 0 <= K) by (unfold K; lia).
    set (P := 2 ^ (n1 - 1)). set (Q := 2 ^ K).
    assert (HP : 0 < P) by (apply pow2_pos; lia).
    assert (HQ : 0 < Q) by (apply pow2_pos; lia).
    assert (H2P : 2 ^ n1 = 2 * P).
    { unfold P. rewrite <- Z.pow_succ_r by lia. f_equal. lia. }
    assert (HMb : Zpos M < (2 ^ 54 - 1) * Q * P).
    { unfold Q, P. rewrite <- Z.mul_assoc, <- Z.pow_add_r by lia.
      replace (K + (n1 - 1)) with (970 - E) by (unfold K, n1; lia). done. }
    assert (Hm1lo : shr_m mrs * (2 * P) <= Zpos M).
    { rewrite Hm1, H2P. rewrite Z.mul_comm. apply Z.mul_div_le. lia. }
    assert (Hm1nn : 0 <= shr_m mrs).
    { rewrite Hm1. apply Z.div_pos; [lia|]. rewrite H2P. lia. }
    assert (Hb1 : 2 * shr_m mrs < (2 ^ 54 - 1) * Q) by nia.
    assert (Hm2 : 0 <= m2 /\ m2 < 2 ^ 53 * Q).
    { destruct Hround as [-> | [-> Hrt]]; [lia|].
      specialize (Hr Hrt). fold P in Hr.
      assert (Hq : Zpos M / P = 2 * shr_m mrs + 1).
      { rewrite Hm1, H2P. rewrite (Z.mul_comm 2 P), <- Z.div_div by lia.
        pose proof (Z.div_mod (Zpos M / P) 2 ltac:(lia)) as Hdm.
        pose proof (Zmod_odd (Zpos M / P)) as Hmo. rewrite Hr in Hmo. lia. }
      assert ((2 * shr_m mrs + 1) * P <= Zpos M).
      { rewrite <- Hq. rewrite Z.mul_comm. apply Z.mul_div_le. lia. }
      assert (2 * shr_m mrs + 1 < (2 ^ 54 - 1) * Q) by nia. lia. }
    apply finish_round; [lia | lia |].
    replace (1024 - e1) with (53 + K) by (unfold K; lia).
    rewrite Z.pow_add_r by lia. fold Q. lia.
Qed.

Lemma pos_iter_xO p d : Zpos (Pos.iter xO p d) = Zpos p * 2 ^ Zpos d.
Proof.
  induction d as [|d IH] using Pos.peano_ind.
  - simpl. lia.
  - rewrite Pos.iter_succ, Pos2Z.inj_xO, IH, Pos2Z.inj_succ, Z.pow_succ_r by lia. lia.
Qed.

(** The conversion of an integer below [2^1024 - 2^970] is zero or finite. *)
Lemma round_int_ordinary z :
  0 <= z < float_limit -> ordinary false (round_int z).
Proof.
  intros [Hz HT]. destruct z as [|p|p]; [by left | | lia].
  unfold round_int, binary_normalize, binary_round, shl_align, prec, emax.
  rewrite fexp64_eq.
  pose proof (digits2_pos_spec p) as [Hlo Hhi].
  set (d := Zpos (digits2_pos p)) in *.
  assert (Hd : 0 < d) by (unfold d; lia).
  destruct (Z.max (d + 0 - 53) (-1074) - 0) as [|k|k] eqn:Ek.
  - apply binary_round_aux_finite; [lia|]. 
    change ((2 ^ 54 - 1) * 2 ^ (970 - 0)) with float_limit. done.
  - apply binary_round_aux_finite; [lia|].
    change ((2 ^ 54 - 1) * 2 ^ (970 - 0)) with float_limit. done.
  - apply binary_round_aux_finite; [lia|].
    rewrite pos_iter_xO.
    assert (Hk : Zpos k = 53 - d) by lia.
    assert (Zpos p * 2 ^ Zpos k < 2 ^ 53).
    { rewrite Hk. replace 53 with (d + (53 - d)) at 2 by lia.
      rewrite (Z.pow_add_r 2 d) by lia.
      apply Z.mul_lt_mono_pos_r; [apply pow2_pos; lia | done]. }
    assert (2 ^ 970 <= 2 ^ (970 - Z.max (d + 0 - 53) (-1074))).
    { apply Z.pow_le_mono_r; lia. }
    assert (2 ^ 53 < (2 ^ 54 - 1) * 2 ^ 970) by (by vm_compute).
    nia.
Qed.

(** Multiplying by a positive constant below 1 keeps a float ordinary. *)
Lemma mul_ordinary s x mc ec :
  ordinary s x -> Zpos mc < 2 ^ 53 -> ec <= -53 ->
  ordinary s (fmul x (S754_finite false mc ec)).
Proof.
  intros [-> | (m & e & -> & Hm & He)] Hmc Hec.
  - left. simpl. by destruct s.
  - simpl. replace (xorb s false) with s by (by destruct s).
    apply binary_round_aux_finite; [lia|].
    assert (2 ^ 52 <= 2 ^ (970 - (e + ec))) by (apply Z.pow_le_mono_r; lia).
    rewrite Pos2Z.inj_mul.
    assert (Zpos m * Zpos mc <= (2 ^ 53 - 1) * (2 ^ 53 - 1)) by nia.
    assert ((2 ^ 53 - 1) * (2 ^ 53 - 1) < (2 ^ 54 - 1) * 2 ^ 52) by (by vm_compute).
    nia.
Qed.

(** [float(z)] succeeds below [float_limit]. *)
Lemma float_of_int_ok z :
  0 <= z < float_limit -> exists x, float_of_int z = Ok x /\ ordinary false x.
Proof.
  intros Hz. pose proof (round_int_ordinary z Hz) as Ho.
  exists (round_int z). split; [|done]. unfold float_of_int.
  by destruct Ho as [-> | (m & e & -> & _)].
Qed.

(** [int(x)] succeeds on a zero or a finite float. *)
Lemma int_of_float_ok s x : ordinary s x -> exists v, int_of_float x = Ok v.
Proof. intros [-> | (m & e & -> & _)]; simpl; eauto. Qed.

(** *** Overflow: the integers from [float_limit] on *)

(** The round bit after a right shift is the last bit shifted out. *)
Lemma shr_fexp_round_bit m e :
  0 <= m ->
  let e1 := Z.max (Zdigits2 m + e - 53) (-1074) in
  e < e1 ->
  exists mrs,
    shr_fexp 53 1024 m e loc_Exact = (mrs, e1) /\
    shr_m mrs = m / 2 ^ (e1 - e) /\
    shr_r mrs = Z.odd (m / 2 ^ (e1 - e - 1)).
Proof.
  intros Hm e1 Hlt. unfold shr_fexp. rewrite fexp64_eq. fold e1.
  unfold shr. simpl shr_record_of_loc.
  destruct (e1 - e) as [|p|p] eqn:E; try lia.
  eexists. split; [f_equal; lia|].
  rewrite iter_pos_nat. split.
  - rewrite shr_iter_m by done. simpl shr_m. by rewrite positive_nat_Z.
  - destruct (Pos.to_nat p) as [|k] eqn:Ek; [lia|].
    rewrite shr_iter_r by done. simpl shr_m.
    replace (Z.pos p - 1) with (Z.of_nat k) by lia. done.
Qed.

(** A tie or more above an odd mantissa rounds up. *)
Lemma round_up mrs :
  shr_r mrs = true -> Z.odd (shr_m mrs) = true ->
  round_nearest_even (shr_m mrs) (loc_of_shr_record mrs) = shr_m mrs + 1.
Proof.
  destruct mrs as [m r s]. simpl. intros -> Ho.
  destruct s; simpl; [done|]. by rewrite <- Z.negb_odd, Ho.
Qed.

(** The last step of [binary_round_aux] on a mantissa of 53 bits above the
    largest exponent, or on [2^53] at the largest exponent. *)
Lemma finish_overflow s m2 e1 :
  2 ^ 52 <= m2 <= 2 ^ 53 -> 972 <= e1 \/ (e1 = 971 /\ m2 = 2 ^ 53) ->
  (let '(mrs, e2) := shr_fexp 53 1024 m2 e1 loc_Exact in
   match shr_m mrs with
   | Z0 => S754_zero s
   | Zpos m => if e2 <=? 1024 - 53 then S754_finite s m e2 else S754_infinity s
   | Zneg _ => S754_nan
   end) = S754_infinity s.
Proof.
  intros Hm He.
  destruct (shr_fexp_exact m2 e1 ltac:(lia)) as [Hsame Hshift]. cbv zeta in *.
  destruct m2 as [|q|q]; [lia| |lia].
  pose proof (digits2_pos_spec q) as [Hlo Hhi].
  simpl Zdigits2 in *. set (d := Zpos (digits2_pos q)) in *.
  assert (Hd : 53 <= d <= 54).
  { split.
    - destruct (Z_lt_le_dec d 53) as [Hlt|]; [|done].
      assert (2 ^ d <= 2 ^ 52) by (apply Z.pow_le_mono_r; lia). lia.
    - destruct (Z_lt_le_dec 54 d) as [Hlt|]; [|done].
      assert (2 ^ 54 <= 2 ^ (d - 1)) by (apply Z.pow_le_mono_r; lia).
      assert (2 ^ 53 < 2 ^ 54) by (by vm_compute). lia. }
  destruct (Z.eq_dec d 53) as [E53|N53].
  - rewrite Hsame by lia. simpl shr_m.
    destruct (Z.leb_spec e1 (1024 - 53)); [|done].
    rewrite E53 in Hhi. lia.
  - assert (E54 : d = 54) by lia. rewrite E54 in *.
    assert (Hq : Zpos q = 2 ^ 53) by (change (54 - 1) with 53 in Hlo; lia).
    destruct Hshift as (mrs & -> & Hm3 & _); [lia|].
    rewrite Hm3.
    replace (Z.max (54 + e1 - 53) (-1074) - e1) with 1 by lia.
    rewrite Hq. change (2 ^ 53 / 2 ^ 1) with (Zpos (2 ^ 52)).
    destruct (Z.leb_spec (Z.max (54 + e1 - 53) (-1074)) (1024 - 53)); [lia|done].
Qed.

(** Rounding an integer from [float_limit] on gives an infinity. *)
Lemma binary_round_aux_overflow s (M : positive) :
  float_limit <= Zpos M ->
  binary_round_aux 53 1024 s (Zpos M) 0 loc_Exact = S754_infinity s.
Proof.
  intros HM. unfold binary_round_aux.
  pose proof (digits2_pos_spec M) as [Hlo Hhi].
  assert (H1023 : 2 ^ 1023 < float_limit) by (by vm_compute).
  destruct (shr_fexp_round_bit (Zpos M) 0 ltac:(lia)) as (mrs & -> & Hm1 & Hr).
  all: simpl Zdigits2 in *; set (d := Zpos (digits2_pos M)) in *.
  all: assert (Hd : 1024 <= d)
         by (destruct (Z_lt_le_dec d 1024) as [Hlt|]; [|done];
             assert (2 ^ d <= 2 ^ 1023) by (apply Z.pow_le_mono_r; lia); lia).
  { lia. }
  replace (Z.max (d + 0 - 53) (-1074)) with (d - 53) in * by lia.
  replace (d - 53 - 0) with (d - 53) in * by lia.
  assert (Hp : 0 < 2 ^ (d - 53)) by (apply pow2_pos; lia).
  assert (H52 : 2 ^ 52 <= shr_m mrs).
  { rewrite Hm1. apply Z.div_le_lower_bound; [done|].
    rewrite <- Z.pow_add_r by lia. replace (d - 53 + 52) with (d - 1) by lia. done. }
  assert (H53 : shr_m mrs < 2 ^ 53).
  { rewrite Hm1. apply Z.div_lt_upper_bound; [done|].
    rewrite <- Z.pow_add_r by lia. replace (d - 53 + 53) with d by lia. done. }
  pose proof (round_cases mrs) as Hround. cbv zeta in Hround.
  destruct (Z.eq_dec d 1024) as [E|N].
  - rewrite E in *. change (1024 - 53) with 971 in *.
    change (971 - 1) with 970 in Hr.
    assert (Hhi' : Zpos M < 2 ^ 1024) by done.
    assert (Hm : shr_m mrs = 2 ^ 53 - 1).
    { assert (2 ^ 53 - 1 <= shr_m mrs); [|lia].
      rewrite Hm1. apply Z.div_le_lower_bound; [done|].
      assert ((2 ^ 53 - 1) * 2 ^ 971 <= float_limit) by (by vm_compute). lia. }
    assert (Hq : Zpos M / 2 ^ 970 = 2 ^ 54 - 1).
    { assert (0 < 2 ^ 970) by (apply pow2_pos; lia).
      assert (2 ^ 54 - 1 <= Zpos M / 2 ^ 970).
      { apply Z.div_le_lower_bound; [done|].
        assert ((2 ^ 54 - 1) * 2 ^ 970 <= float_limit) by (by vm_compute). lia. }
      assert (Zpos M / 2 ^ 970 < 2 ^ 54); [|lia].
      apply Z.div_lt_upper_bound; [done|].
      assert (2 ^ 970 * 2 ^ 54 = 2 ^ 1024) by (by vm_compute). lia. }
    rewrite Hq in Hr.
    rewrite round_up; [|done|by rewrite Hm].
    apply finish_overflow; [lia|]. right. split; [done|]. lia.
  - apply finish_overflow; [|left; lia].
    destruct Hround as [-> | [-> _]]; lia.
Qed.

Lemma round_int_overflow z :
  float_limit <= z -> round_int z = S754_infinity false.
Proof.
  intros Hz. assert (H0 : 0 < float_limit) by (by vm_compute).
  destruct z as [|p|p]; [lia| |lia].
  unfold round_int, binary_normalize, binary_round, shl_align, prec, emax.
  rewrite fexp64_eq.
  pose proof (digits2_pos_spec p) as [Hlo Hhi].
  set (d := Zpos (digits2_pos p)) in *.
  assert (Hd : 0 < d) by (unfold d; lia).
  destruct (Z.max (d + 0 - 53) (-1074) - 0) as [|k|k] eqn:Ek.
  - by apply binary_round_aux_overflow.
  - by apply binary_round_aux_overflow.
  - assert (H1023 : 2 ^ 1023 < float_limit) by (by vm_compute).
    assert (1024 <= d); [|lia].
    destruct (Z_lt_le_dec d 1024) as [Hlt|]; [|done].
    assert (2 ^ d <= 2 ^ 1023) by (apply Z.pow_le_mono_r; lia). lia.
Qed.

(** [float(z)] raises from [float_limit] on. *)
Lemma float_of_int_overflow z :
  float_limit <= z -> float_of_int z = Raise OverflowError.
Proof. intros Hz. unfold float_of_int. by rewrite round_int_overflow. Qed.

End RoundingFacts.

(** ** The plan calculator *)

Module PlansFacts.
Import Py Plans RoundingFacts.

Lemma factors : factor f0_93 /\ factor f0_07 /\ factor f0_83 /\ factor f0_17.
Proof. repeat split; eexists _, _; (split; [reflexivity|]); split; by vm_compute. Qed.

(** [int(z * c)] returns for every [z] that converts and every factor. *)
Lemma int_scaled_ok z c :
  0 <= z < float_limit -> factor c -> exists v, int_scaled z c = Ok v.
Proof.
  intros Hz (mc & ec & -> & Hmc & Hec). unfold int_scaled, int_mul_float.
  destruct (float_of_int_ok z Hz) as (x & -> & Hx). simpl.
  apply (int_of_float_ok false). by apply mul_ordinary.
Qed.

(** C4, as the code has it. For a base price that is not negative and whose
    12-fold is below [float_limit] (so that every product converts to a
    float), the result has exactly the three tags; the totals are the base,
    [int(base*3*0.93)] and [int(base*12*0.83)]; the savings are the
    truncations [int(base*3*0.07)] and [int(base*12*0.17)] of the discount
    itself. At 2499 the totals are 6972 and 24890 and the savings 524 and
    5097, one less than the differences [7497 - 6972] and [29988 - 24890].
    For every larger base price, the one whose 12-fold is [float_limit]
    included, the call raises [OverflowError]: at the first product when
    already the 3-fold does not convert, and at the first 12-fold
    otherwise. *)
Theorem calculate_subscription_plans_spec base_monthly :
  0 <= base_monthly ->
  (base_monthly * 12 < float_limit ->
  exists t3 m3 s3 t12 m12 s12 plans,
    calculate_subscription_plans base_monthly = Ok plans /\
    dom plans = ({["1-month"; "3-month"; "12-month"]} : gset string) /\
    plans !! "1-month" =
      Some {| duration := "1 month"; total := base_monthly;
              monthly := base_monthly; savings := 0 |} /\
    plans !! "3-month" =
      Some {| duration := "3 months"; total := t3; monthly := m3;
              savings := s3 |} /\
    plans !! "12-month" =
      Some {| duration := "12 months"; total := t12; monthly := m12;
              savings := s12 |} /\
    int_scaled (base_monthly * 3) f0_93 = Ok t3 /\
    int_scaled base_monthly f0_93 = Ok m3 /\
    int_scaled (base_monthly * 3) f0_07 = Ok s3 /\
    int_scaled (base_monthly * 12) f0_83 = Ok t12 /\
    int_scaled base_monthly f0_83 = Ok m12 /\
    int_scaled (base_monthly * 12) f0_17 = Ok s12 /\
    (base_monthly = 2499 ->
       t3 = 6972 /\ s3 = 524 /\ base_monthly * 3 - t3 = 525 /\
       t12 = 24890 /\ s12 = 5097 /\ base_monthly * 12 - t12 = 5098)) /\
  (float_limit <= base_monthly * 12 ->
   calculate_subscription_plans base_monthly = Raise OverflowError).
Proof.
  intros Hb. destruct factors as (F93 & F07 & F83 & F17). split.
  - intros Hlim.
    destruct (int_scaled_ok (base_monthly * 3) f0_93) as [t3 Ht3]; [lia|done|].
    destruct (int_scaled_ok base_monthly f0_93) as [m3 Hm3]; [lia|done|].
    destruct (int_scaled_ok (base_monthly * 3) f0_07) as [s3 Hs3]; [lia|done|].
    destruct (int_scaled_ok (base_monthly * 12) f0_83) as [t12 Ht12]; [lia|done|].
    destruct (int_scaled_ok base_monthly f0_83) as [m12 Hm12]; [lia|done|].
    destruct (int_scaled_ok (base_monthly * 12) f0_17) as [s12 Hs12]; [lia|done|].
    exists t3, m3, s3, t12, m12, s12. eexists. split.
    { unfold calculate_subscription_plans.
      rewrite Ht3, Hm3, Hs3, Ht12, Hm12, Hs12. reflexivity. }
    split; [by rewrite !dom_insert_L, dom_empty_L; set_solver|].
    repeat (split; [done|]).
    intros ->. vm_compute in Ht3, Hs3, Ht12, Hs12.
    injection Ht3 as <-. injection Hs3 as <-.
    injection Ht12 as <-. injection Hs12 as <-. done.
  - intros Hlim. unfold calculate_subscription_plans.
    destruct (Z_lt_le_dec (base_monthly * 3) float_limit) as [H3|H3].
    + destruct (int_scaled_ok (base_monthly * 3) f0_93) as [t3 ->]; [lia|done|].
      destruct (int_scaled_ok base_monthly f0_93) as [m3 ->]; [lia|done|].
      destruct (int_scaled_ok (base_monthly * 3) f0_07) as [s3 ->]; [lia|done|].
      cbn [bind]. unfold int_scaled at 1, int_mul_float.
      by rewrite float_of_int_overflow.
    + unfold int_scaled at 1, int_mul_float.
      by rewrite float_of_int_overflow.
Qed.

End PlansFacts.

(** ** Float comparisons *)

Module FloatFacts.
Import Py.

Ltac cmp_cases :=
  repeat match goal with
  | |- context [Z.compare ?a ?b] => destruct (Z.compare_spec a b)
  | |- context [Pos.compare_cont Eq ?a ?b] =>
      change (Pos.compare_cont Eq a b) with (Pos.compare a b);
      destruct (Pos.compare_spec a b)
  end.

Ltac by_cases :=
  simpl; try congruence; cmp_cases; simpl; try congruence; try lia.

(** [<] and [<=] involve no NaN. *)
Lemma flt_not_nan x y : flt x y = true -> is_nan x = false /\ is_nan y = false.
Proof.
  unfold flt, SFltb.
  destruct x as [[]|[]| |[] mx ex], y as [[]|[]| |[] my ey]; by_cases; done.
Qed.

Lemma fle_not_nan x y : fle x y = true -> is_nan x = false /\ is_nan y = false.
Proof.
  unfold fle, SFleb.
  destruct x as [[]|[]| |[] mx ex], y as [[]|[]| |[] my ey]; by_cases; done.
Qed.

(** Without NaN, [not (y < x)] is [x <= y]. *)
Lemma fle_total x y :
  is_nan x = false -> is_nan y = false -> flt y x = false -> fle x y = true.
Proof.
  unfold flt, fle, SFltb, SFleb.
  destruct x as [[]|[]| |[] mx ex], y as [[]|[]| |[] my ey]; by_cases.
Qed.

Lemma fle_trans x y z : fle x y = true -> fle y z = true -> fle x z = true.
Proof.
  unfold fle, SFleb.
  destruct x as [[]|[]| |[] mx ex], y as [[]|[]| |[] my ey], z as [[]|[]| |[] mz ez];
    by_cases.
Qed.

Lemma flt_fle x y : flt x y = true -> fle x y = true.
Proof. unfold flt, fle, SFltb, SFleb. destruct (SFcompare x y) as [[]|]; congruence. Qed.

(** A float below [x] is not equal to what [x] is equal to. *)
Lemma flt_feq x y d : flt y x = true -> feq x d = true -> feq y d = false.
Proof.
  unfold flt, feq, SFltb, SFeqb.
  destruct x as [[]|[]| |[] mx ex], y as [[]|[]| |[] my ey], d as [[]|[]| |[] mz ez];
    by_cases.
Qed.

End FloatFacts.

(** ** The distance *)

Module DistanceFacts.
Import Py Distance RoundingFacts.

(** *** The sign in binary64 arithmetic *)

Lemma binary_round_aux_opp s m e l :
  binary_round_aux prec emax (negb s) m e l
  = SFopp (binary_round_aux prec emax s m e l).
Proof.
  unfold binary_round_aux.
  destruct (shr_fexp prec emax m e l) as [mrs1 e1].
  destruct (shr_fexp prec emax _ e1 loc_Exact) as [mrs2 e2].
  destruct (shr_m mrs2); [done| |done]. by destruct (e2 <=? emax - prec).
Qed.

Lemma binary_normalize_opp m e :
  m <> 0 ->
  binary_normalize prec emax (- m) e false
  = SFopp (binary_normalize prec emax m e false).
Proof.
  intros Hm. destruct m as [|p|p]; [done| |].
  - change (- Z.pos p) with (Z.neg p). unfold binary_normalize, binary_round.
    destruct (shl_align _ _ _) as [mz ez]. apply (binary_round_aux_opp false).
  - change (- Z.neg p) with (Z.pos p). unfold binary_normalize, binary_round.
    destruct (shl_align _ _ _) as [mz ez]. apply (binary_round_aux_opp true).
Qed.

(** [b - a] is [-(a - b)], except that both are [+0.0] when [a = b]. *)
Lemma fsub_swap a b : fsub b a = SFopp (fsub a b) \/ fsub b a = fsub a b.
Proof.
  destruct a as [sa|sa| |sa ma ea], b as [sb|sb| |sb mb eb];
    try (destruct sa, sb; by auto); try (destruct sa; by auto);
    try (destruct sb; by auto); try by auto.
  unfold fsub, SFsub. rewrite (Z.min_comm eb ea).
  set (X := cond_Zopp sa _). set (Y := cond_Zopp sb _).
  destruct (Z.eq_dec (X - Y) 0) as [E|N].
  - right. replace (Y - X) with 0 by lia. by rewrite E.
  - left. replace (Y - X) with (- (X - Y)) by lia.
    by apply binary_normalize_opp.
Qed.

Lemma fdiv_opp x y : fdiv (SFopp x) y = SFopp (fdiv x y).
Proof.
  destruct x as [sx|sx| |sx mx ex], y as [sy|sy| |sy my ey];
    try (by destruct sx, sy); try done.
  unfold fdiv, SFdiv, SFopp.
  destruct (SFdiv_core_binary _ _ _ _ _ _) as [[mz ez] lz].
  replace (xorb (negb sx) sy) with (negb (xorb sx sy)) by (by destruct sx, sy).
  apply binary_round_aux_opp.
Qed.

Lemma fmul_comm x y : fmul x y = fmul y x.
Proof.
  destruct x as [sx|sx| |sx mx ex], y as [sy|sy| |sy my ey];
    try (by destruct sx, sy); try done.
  unfold fmul, SFmul. by rewrite xorb_comm, Pos.mul_comm, Z.add_comm.
Qed.

(** A finite value minus itself is [+0.0]. *)
Lemma fsub_diag s x : ordinary s x -> fsub x x = S754_zero false.
Proof.
  intros [-> | (m & e & -> & _)]; [by destruct s|].
  unfold fsub, SFsub. by rewrite Z.sub_diag.
Qed.

(** The product of two values of magnitude at most 1 is finite, and so its
    product with [+0.0] is a zero. *)
Lemma fmul_bounded s1 c1 s2 c2 :
  ordinary s1 c1 -> fle (SFabs c1) (round_int 1) = true ->
  ordinary s2 c2 -> fle (SFabs c2) (round_int 1) = true ->
  ordinary (xorb s1 s2) (fmul c1 c2).
Proof.
  intros [-> | (m1 & e1 & -> & Hm1 & _)] Hb1 [-> | (m2 & e2 & -> & Hm2 & _)] Hb2;
    try (left; reflexivity).
  assert (He : forall m e, fle (S754_finite false m e) (round_int 1) = true ->
                           e <= -52).
  { intros m e. change (round_int 1) with (S754_finite false 4503599627370496 (-52)).
    unfold fle, SFleb, SFcompare. destruct (Z.compare_spec e (-52)); [lia|lia|done]. }
  apply He in Hb1, Hb2. unfold fmul, SFmul.
  apply binary_round_aux_finite; [lia|].
  assert (2 ^ 52 <= 2 ^ (970 - (e1 + e2))) by (apply Z.pow_le_mono_r; lia).
  rewrite Pos2Z.inj_mul.
  assert (Zpos m1 * Zpos m2 <= (2 ^ 53 - 1) * (2 ^ 53 - 1)) by nia.
  assert ((2 ^ 53 - 1) * (2 ^ 53 - 1) < (2 ^ 54 - 1) * 2 ^ 52) by (by vm_compute).
  nia.
Qed.

Lemma fmul_zero s x : ordinary s x -> fmul x (S754_zero false) = S754_zero s.
Proof. intros [-> | (m & e & -> & _)]; by destruct s. Qed.

(** [d == d] holds for every float but NaN. *)
Lemma feq_refl d : is_nan d = false -> feq d d = true.
Proof.
  destruct d as [[]|[]| |[] m e]; try done; intros _;
    unfold feq, SFeqb, SFcompare;
    by rewrite Z.compare_refl, ?Pos.compare_cont_refl.
Qed.

Section WithBuiltins.
Context `{Builtins}.

(** *** The formula *)

Lemma haversine_distance_formula lat1 lon1 lat2 lon2 :
  haversine_distance lat1 lon1 lat2 lon2
  = haversine_formula
      (fsub (math_radians lat2) (math_radians lat1))
      (fsub (math_radians lon2) (math_radians lon1))
      (math_radians lat1) (math_radians lat2).
Proof. reflexivity. Qed.

Lemma formula_opp_dlat dlat dlon r1 r2 :
  symmetric_library ->
  haversine_formula (SFopp dlat) dlon r1 r2 = haversine_formula dlat dlon r1 r2.
Proof.
  intros [Hsin Hsq _]. unfold haversine_formula.
  rewrite fdiv_opp, Hsin.
  destruct (math_sin (fdiv dlat two)) as [s1|e]; cbn [bind]; [|done].
  by rewrite Hsq.
Qed.

Lemma formula_opp_dlon dlat dlon r1 r2 :
  symmetric_library ->
  haversine_formula dlat (SFopp dlon) r1 r2 = haversine_formula dlat dlon r1 r2.
Proof.
  intros [Hsin Hsq _]. unfold haversine_formula.
  destruct (math_sin (fdiv dlat two)) as [s1|e]; cbn [bind]; [|done].
  destruct (float_pow s1 2) as [s1sq|e]; cbn [bind]; [|done].
  destruct (math_cos r1) as [c1|e]; cbn [bind]; [|done].
  destruct (math_cos r2) as [c2|e]; cbn [bind]; [|done].
  rewrite fdiv_opp, Hsin.
  destruct (math_sin (fdiv dlon two)) as [s2|e]; cbn [bind]; [|done].
  by rewrite Hsq.
Qed.

Lemma formula_swap dlat dlon r1 r2 :
  symmetric_library ->
  haversine_formula dlat dlon r2 r1 = haversine_formula dlat dlon r1 r2.
Proof.
  intros [_ _ Hcos]. unfold haversine_formula.
  destruct (math_sin (fdiv dlat two)) as [s1|e]; cbn [bind]; [|done].
  destruct (float_pow s1 2) as [s1sq|e]; cbn [bind]; [|done].
  destruct (math_cos r1) as [c1|e1] eqn:E1, (math_cos r2) as [c2|e2] eqn:E2;
    cbn [bind]; try done.
  - by rewrite (fmul_comm c2 c1).
  - by rewrite (Hcos _ _ E1), (Hcos _ _ E2).
Qed.

(** C6, as far as the code decides it. The distance is computed by the
    platform's [math] functions, which the repository does not define, so
    the claim is proved from what it needs of them. When the sine is odd,
    squaring is even and the cosine raises nothing but [ValueError]
    ([symmetric_library]), the two calls [distance(a, b)] and
    [distance(b, a)] have the same outcome for all coordinates: the same
    exception, or the same float, and these are [==] unless they are NaN.
    When moreover the library is exact at zero and the cosine is bounded
    ([exact_at_zero]), the distance from a point with finite coordinates to
    itself is [0.0]. *)
Theorem haversine_distance_symmetry lat1 lon1 lat2 lon2 :
  (symmetric_library ->
   haversine_distance lat1 lon1 lat2 lon2
   = haversine_distance lat2 lon2 lat1 lon1 /\
   (forall d, haversine_distance lat1 lon1 lat2 lon2 = Ok d ->
      is_nan d = false ->
      exists d', haversine_distance lat2 lon2 lat1 lon1 = Ok d' /\
                 feq d d' = true)) /\
  (exact_at_zero ->
   forall s1 s2, ordinary s1 lat1 -> ordinary s2 lon1 ->
     haversine_distance lat1 lon1 lat1 lon1 = Ok (S754_zero false) /\
     feq (S754_zero false) (round_int 0) = true).
Proof.
  split.
  - intros Hlib.
    assert (Hsym : haversine_distance lat1 lon1 lat2 lon2
                   = haversine_distance lat2 lon2 lat1 lon1).
    { rewrite !haversine_distance_formula.
      rewrite (formula_swap _ _ (math_radians lat2) (math_radians lat1) Hlib).
      destruct (fsub_swap (math_radians lat1) (math_radians lat2)) as [-> | ->],
               (fsub_swap (math_radians lon1) (math_radians lon2)) as [-> | ->];
        by rewrite ?formula_opp_dlat, ?formula_opp_dlon. }
    split; [done|]. intros d Hd Hnan. exists d.
    split; [by rewrite <- Hsym|by apply feq_refl].
  - intros [Hrad Hcos Hsin Hsq Hsqrt Hasin Hround] s1 s2 Hlat Hlon.
    split; [|done].
    destruct (Hrad _ _ Hlat) as [t1 Hr1]. destruct (Hrad _ _ Hlon) as [t2 Hr2].
    destruct (Hcos _ _ Hr1) as (sc & c & Ec & Hc & Hb).
    rewrite haversine_distance_formula.
    rewrite (fsub_diag _ _ Hr1), (fsub_diag _ _ Hr2).
    unfold haversine_formula.
    change (fdiv (S754_zero false) two) with (S754_zero false).
    rewrite Hsin. cbn [bind]. rewrite Hsq. cbn [bind]. rewrite Ec. cbn [bind].
    rewrite (fmul_zero _ _ (fmul_bounded _ _ _ _ Hc Hb Hc Hb)).
    replace (xorb sc sc) with false by (by destruct sc).
    change (fadd (S754_zero false) (S754_zero false)) with (S754_zero false).
    rewrite Hsqrt. cbn [bind]. rewrite Hasin. cbn [bind].
    change (fmul two (S754_zero false)) with (S754_zero false).
    change (fmul R (S754_zero false)) with (S754_zero false).
    by rewrite Hround.
Qed.

End WithBuiltins.
End DistanceFacts.

(** ** Strings and decimal integers *)

Module StrFacts.
Import Str.

Lemma rstrip_no_space s : no_space s = true -> rstrip s = s.
Proof.
  induction s as [|c s IH]; simpl; [done|].
  intros [Hc Hs]%andb_true_iff. rewrite (IH Hs).
  apply negb_true_iff in Hc. rewrite Hc. by destruct s.
Qed.

Lemma strip_no_space s : no_space s = true -> strip s = s.
Proof.
  intros Hs. unfold strip.
  assert (lstrip s = s) as ->; [|by apply rstrip_no_space].
  destruct s as [|c s]; simpl in *; [done|].
  apply andb_true_iff in Hs as [Hc _]. apply negb_true_iff in Hc. by rewrite Hc.
Qed.

Lemma no_space_app s t : no_space (s +:+ t) = no_space s && no_space t.
Proof. induction s as [|c s IH]; simpl; [done|]. by rewrite IH, andb_assoc. Qed.

Lemma digit_cases d : 0 <= d < 10 ->
  d = 0 \/ d = 1 \/ d = 2 \/ d = 3 \/ d = 4 \/ d = 5 \/ d = 6 \/ d = 7 \/ d = 8 \/ d = 9.
Proof. lia. Qed.

Lemma digit_char_spec d : 0 <= d < 10 ->
  is_digit (digit_char d) = true /\ digit_val (digit_char d) = d /\
  is_space (digit_char d) = false.
Proof.
  intros Hd. destruct (digit_cases d Hd) as [->|[->|[->|[->|[->|[->|[->|[->|[->| ->]]]]]]]]];
    by vm_compute.
Qed.

(** Reading the digits that [digits_of] writes gives the number back. *)
Lemma read_digits_of fuel : forall n acc,
  (0 < fuel)%nat -> 0 <= n < 10 ^ Z.of_nat fuel ->
  exists k, 0 <= k /\ forall a b,
    read_digits (digits_of fuel n acc) a b = read_digits acc (a * 10 ^ k + n) true.
Proof.
  induction fuel as [|fuel IH]; intros n acc Hf Hn; [lia|].
  simpl digits_of.
  assert (Hd : 0 <= n mod 10 < 10) by (apply Z.mod_pos_bound; lia).
  destruct (digit_char_spec _ Hd) as (Hdig & Hval & _).
  destruct (Z.ltb_spec n 10) as [Hlt|Hge].
  - exists 1. split; [lia|]. intros a b. simpl. rewrite Hdig, Hval.
    rewrite Z.mod_small by lia. f_equal; lia.
  - assert (Hfuel : (0 < fuel)%nat).
    { destruct fuel; [|lia]. simpl in Hn. lia. }
    assert (Hn' : 0 <= n / 10 < 10 ^ Z.of_nat fuel).
    { split; [apply Z.div_pos; lia|].
      apply Z.div_lt_upper_bound; [lia|].
      rewrite Nat2Z.inj_succ, Z.pow_succ_r in Hn by lia. lia. }
    destruct (IH (n / 10) (String (digit_char (n mod 10)) acc) Hfuel Hn')
      as (k & Hk & Hread).
    exists (k + 1). split; [lia|]. intros a b. rewrite Hread. simpl.
    rewrite Hdig, Hval. f_equal.
    rewrite Z.pow_add_r by lia. pose proof (Z.div_mod n 10 ltac:(lia)). lia.
Qed.

Lemma digits_of_no_space fuel : forall n acc,
  0 <= n -> no_space acc = true -> no_space (digits_of fuel n acc) = true.
Proof.
  induction fuel as [|fuel IH]; intros n acc Hn Hacc; simpl; [done|].
  assert (Hd : 0 <= n mod 10 < 10) by (apply Z.mod_pos_bound; lia).
  destruct (digit_char_spec _ Hd) as (_ & _ & Hsp).
  destruct (n <? 10).
  - simpl. by rewrite Hsp, Hacc.
  - apply IH; [apply Z.div_pos; lia|]. simpl. by rewrite Hsp, Hacc.
Qed.

(** The first character of a decimal number is a digit. *)
Lemma digits_of_head fuel : forall n acc,
  (0 < fuel)%nat -> 0 <= n ->
  exists c s, digits_of fuel n acc = String c s /\ is_digit c = true.
Proof.
  induction fuel as [|fuel IH]; intros n acc Hf Hn; [lia|]. simpl.
  assert (Hd : 0 <= n mod 10 < 10) by (apply Z.mod_pos_bound; lia).
  destruct (digit_char_spec _ Hd) as (Hdig & _ & _).
  destruct (n <? 10); [eauto|].
  destruct fuel as [|fuel]; [simpl; eauto|].
  apply IH; [lia | apply Z.div_pos; lia].
Qed.

Lemma fuel_enough n : 0 <= n -> n < 10 ^ Z.of_nat (S (Z.to_nat (Z.log2 n))).
Proof.
  intros Hn. rewrite Nat2Z.inj_succ, Z2Nat.id by apply Z.log2_nonneg.
  destruct (Z.eq_dec n 0) as [->|Hne]; [done|].
  pose proof (Z.log2_spec n ltac:(lia)) as [_ Hlt].
  eapply Z.lt_le_trans; [exact Hlt|].
  apply Z.pow_le_mono_l. pose proof (Z.log2_nonneg n). lia.
Qed.

Lemma read_str_of_nonneg n : 0 <= n -> forall b,
  read_digits (str_of_nonneg n) 0 b = Some n.
Proof.
  intros Hn b. unfold str_of_nonneg.
  destruct (read_digits_of (S (Z.to_nat (Z.log2 n))) n EmptyString)
    as (k & _ & Hread); [lia | split; [done | by apply fuel_enough] |].
  rewrite Hread. simpl. f_equal; lia.
Qed.

(** A string that starts with a digit has no sign to strip. *)
Lemma int_of_digits c s :
  is_digit c = true -> no_space (String c s) = true ->
  int_of_str (String c s) = read_digits (String c s) 0 false.
Proof.
  intros Hc Hs. unfold int_of_str. rewrite (strip_no_space _ Hs).
  destruct c as [[] [] [] [] [] [] [] []]; try done; by vm_compute in Hc.
Qed.




End StrFacts.

(** ** The heap *)

Module HeapFacts.
Import Py Str Store.

Lemma alloc_fresh o st : heap st !! fst (alloc o st) = None.
Proof. apply not_elem_of_dom, is_fresh. Qed.

Lemma alloc_heap o st : heap (snd (alloc o st)) = <[fst (alloc o st) := o]> (heap st).
Proof. reflexivity. Qed.

Lemma alloc_spec o st c st1 :
  alloc o st = (c, st1) ->
  heap st !! c = None /\ heap st1 = <[c := o]> (heap st) /\
  heap st ⊆ heap st1 /\ heap st1 !! c = Some o /\
  gyms st1 = gyms st /\ csv st1 = csv st /\ writable st1 = writable st.
Proof.
  intros E. pose proof (alloc_fresh o st) as Hf. rewrite E in Hf. simpl in Hf.
  assert (st1 = set_heap (<[c := o]> (heap st)) st) as ->.
  { unfold alloc in E. by injection E as <- <-. }
  simpl. repeat split; try done.
  - by apply insert_subseteq.
  - apply lookup_insert_eq.
Qed.

Lemma alloc_extends o st : heap st ⊆ heap (snd (alloc o st)).
Proof. rewrite alloc_heap. apply insert_subseteq, alloc_fresh. Qed.

Lemma get_dict_mono st st' r g :
  heap st ⊆ heap st' -> get_dict st r = Some g -> get_dict st' r = Some g.
Proof.
  unfold get_dict. intros Hsub Hg.
  destruct (heap st !! r) as [[g0|rs]|] eqn:E; try discriminate.
  by rewrite (lookup_weaken _ _ _ _ E Hsub).
Qed.

Lemma get_list_Some st r rs : heap st !! r = Some (List rs) -> get_list st r = rs.
Proof. intros E. unfold get_list. by rewrite E. Qed.

Lemma get_list_mono st st' r rs :
  heap st ⊆ heap st' -> heap st !! r = Some (List rs) -> get_list st' r = rs.
Proof.
  intros Hsub E. unfold get_list. by rewrite (lookup_weaken _ _ _ _ E Hsub).
Qed.

Lemma records_mono st st' rs :
  heap st ⊆ heap st' ->
  Forall (fun r => is_Some (get_dict st r)) rs ->
  records st' rs = records st rs.
Proof.
  intros Hsub. induction 1 as [|r rs [g Hg] _ IH]; simpl; [done|].
  by rewrite (get_dict_mono _ _ _ _ Hsub Hg), Hg, IH.
Qed.

Lemma records_app st rs1 rs2 :
  records st (rs1 ++ rs2) = records st rs1 ++ records st rs2.
Proof.
  induction rs1 as [|r rs1 IH]; simpl; [done|].
  destruct (get_dict st r); simpl; by rewrite IH.
Qed.

Lemma records_length st rs :
  Forall (fun r => is_Some (get_dict st r)) rs ->
  length (records st rs) = length rs.
Proof.
  induction 1 as [|r rs [g Hg] _ IH]; simpl; [done|]. rewrite Hg. simpl. lia.
Qed.

(** Filtering the references by a test on their dictionaries filters the
    dictionaries. *)
Lemma records_filter st test rs :
  records st (List.filter (on_dict st test) rs) = List.filter test (records st rs).
Proof.
  induction rs as [|r rs IH]; simpl; [done|]. unfold on_dict at 1.
  destruct (get_dict st r) as [g|] eqn:E; simpl; [|done].
  destruct (test g); simpl; by rewrite ?E, IH.
Qed.

Lemma records_filter_neg st test rs :
  Forall (fun r => is_Some (get_dict st r)) rs ->
  records st (List.filter (fun r => negb (on_dict st test r)) rs)
  = List.filter (fun g => negb (test g)) (records st rs).
Proof.
  induction 1 as [|r rs [g Hg] _ IH]; simpl; [done|]. unfold on_dict at 1.
  rewrite Hg. simpl. destruct (test g); simpl; by rewrite ?Hg, IH.
Qed.

Lemma Forall_filter_dict st (p : ref -> bool) rs :
  Forall (fun r => is_Some (get_dict st r)) rs ->
  Forall (fun r => is_Some (get_dict st r)) (List.filter p rs).
Proof.
  induction 1 as [|r rs Hr _ IH]; simpl; [constructor|].
  destruct (p r); [by constructor | done].
Qed.

Lemma well_formed_collection st rs :
  heap st !! gyms st = Some (List rs) -> collection st = records st rs.
Proof. intros E. unfold collection, get_list. by rewrite E. Qed.

(** A list object allocated on top of a well-formed store holds the
    dictionaries it held in the store. *)
Lemma records_alloc st o rs :
  Forall (fun r => is_Some (get_dict st r)) rs ->
  records (snd (alloc o st)) rs = records st rs.
Proof. apply records_mono, alloc_extends. Qed.

Lemma get_list_alloc_new st rs : get_list (snd (alloc (List rs) st)) (fst (alloc (List rs) st)) = rs.
Proof. unfold get_list. rewrite alloc_heap. by rewrite lookup_insert_eq. Qed.

Lemma get_dict_Some st r g : get_dict st r = Some g <-> heap st !! r = Some (Dict g).
Proof.
  unfold get_dict. destruct (heap st !! r) as [[g0|rs]|]; split; congruence.
Qed.

Lemma push_spec g st :
  well_formed st ->
  well_formed (push g st) /\
  collection (push g st) = collection st ++ [g] /\
  get_dict (push g st) (fst (alloc (Dict g) st)) = Some g /\
  get_list (push g st) (gyms (push g st))
    = get_list st (gyms st) ++ [fst (alloc (Dict g) st)] /\
  gyms (push g st) = gyms st /\ csv (push g st) = csv st /\
  writable (push g st) = writable st.
Proof.
  intros (rs & Hl & Hrs). unfold push.
  pose proof (alloc_fresh (Dict g) st) as Hf.
  set (r := fst (alloc (Dict g) st)) in *.
  assert (Hne : r <> gyms st) by (intros ->; congruence).
  assert (Hgl : get_list (snd (alloc (Dict g) st)) (gyms st) = rs).
  { unfold get_list. rewrite alloc_heap. fold r.
    by rewrite lookup_insert_ne, Hl. }
  unfold list_append, write. simpl gyms. rewrite Hgl.
  set (st2 := set_heap _ _).
  assert (Hh : heap st2 = <[gyms st := List (rs ++ [r])]> (<[r := Dict g]> (heap st)))
    by reflexivity.
  assert (Hold : forall x, In x rs -> get_dict st2 x = get_dict st x).
  { intros x Hx. rewrite Forall_forall in Hrs.
    destruct (Hrs x) as [gx Hgx]; [by apply list_elem_of_In|].
    rewrite Hgx. apply get_dict_Some in Hgx. apply get_dict_Some.
    rewrite Hh, !lookup_insert_ne; [done | congruence | congruence]. }
  assert (Hnew : get_dict st2 r = Some g).
  { apply get_dict_Some. rewrite Hh, lookup_insert_ne by done.
    by rewrite lookup_insert_eq. }
  assert (Hrec : forall xs, (forall x, In x xs -> In x rs) -> records st2 xs = records st xs).
  { induction xs as [|x xs IH]; simpl; intros Hin; [done|].
    rewrite Hold by auto. rewrite IH by auto. done. }
  assert (Hl2 : heap st2 !! gyms st = Some (List (rs ++ [r])))
    by (by rewrite Hh, lookup_insert_eq).
  repeat split; try done.
  - exists (rs ++ [r]). split; [done|].
    apply Forall_app. split.
    + apply Forall_forall. intros x Hx%list_elem_of_In. rewrite Hold by done.
      rewrite Forall_forall in Hrs. by apply Hrs, list_elem_of_In.
    + repeat constructor. by rewrite Hnew.
  - unfold collection. change (gyms st2) with (gyms st).
    unfold get_list at 1. rewrite Hl2, records_app, Hrec by auto.
    simpl. rewrite Hnew. unfold get_list. by rewrite Hl.
  - change (gyms st2) with (gyms st). unfold get_list. by rewrite Hl2, Hl.
Qed.

(** [self.gyms = []] on any state. *)
Lemma reset_gyms_spec st :
  well_formed (reset_gyms st) /\ collection (reset_gyms st) = [] /\
  csv (reset_gyms st) = csv st /\ writable (reset_gyms st) = writable st.
Proof.
  unfold reset_gyms.
  pose proof (get_list_alloc_new st []) as Hg.
  destruct (alloc (List []) st) as [l st1] eqn:Ea. simpl in Hg.
  assert (Hl : heap st1 !! l = Some (List [])).
  { replace st1 with (snd (alloc (List []) st)) by (by rewrite Ea).
    replace l with (fst (alloc (List []) st)) by (by rewrite Ea).
    rewrite alloc_heap. apply lookup_insert_eq. }
  repeat split.
  - exists []. split; [done | constructor].
  - unfold collection, get_list. simpl. by rewrite Hl.
  - by injection Ea as _ <-.
  - by injection Ea as _ <-.
Qed.

Lemma records_heap st st' rs :
  heap st = heap st' -> records st rs = records st' rs.
Proof.
  intros E. induction rs as [|r rs IH]; simpl; [done|].
  unfold get_dict. by rewrite E, IH.
Qed.

Lemma collection_heap st st' :
  heap st = heap st' -> gyms st = gyms st' -> collection st = collection st'.
Proof.
  intros E1 E2. unfold collection, get_list. rewrite E1, E2.
  by apply records_heap.
Qed.

Lemma collection_set_csv f st : collection (set_csv f st) = collection st.
Proof. by apply collection_heap. Qed.

End HeapFacts.

(** ** Lists *)

Module ListFacts.

Lemma filter_length_le {A} (p : A -> bool) l :
  (length (List.filter p l) <= length l)%nat.
Proof. induction l as [|x l IH]; simpl; [lia|]. destruct (p x); simpl; lia. Qed.

Lemma filter_length_lt {A} (p : A -> bool) l :
  (length (List.filter p l) < length l)%nat <-> exists x, In x l /\ p x = false.
Proof.
  induction l as [|x l IH]; simpl.
  - split; [lia | intros (x & [] & _)].
  - pose proof (filter_length_le p l). destruct (p x) eqn:E; simpl.
    + rewrite <- Nat.succ_lt_mono, IH. split.
      * intros (y & Hy & Hp). eauto.
      * intros (y & [-> | Hy] & Hp); [congruence | eauto].
    + split; [eauto | lia].
Qed.

Lemma filter_all {A} (p : A -> bool) l :
  (forall x, In x l -> p x = true) -> List.filter p l = l.
Proof.
  induction l as [|x l IH]; simpl; intros Hall; [done|].
  rewrite (Hall x) by auto. f_equal. apply IH. auto.
Qed.

(** Removing the elements with a given key removes exactly one element when
    keys are unique and the key occurs. *)
Lemma filter_key_length {A} (key : A -> Z) (k : Z) l :
  NoDup (map key l) -> (exists x, In x l /\ key x = k) ->
  S (length (List.filter (fun x => negb (key x =? k)) l)) = length l.
Proof.
  induction l as [|x l IH]; simpl; intros Hnd Hex.
  - by destruct Hex as (? & [] & _).
  - apply NoDup_cons in Hnd as [Hx Hnd].
    destruct (Z.eqb_spec (key x) k) as [Ex|Hne]; simpl.
    + rewrite filter_all; [lia|]. intros y Hy.
      apply negb_true_iff, Z.eqb_neq. intros E. apply Hx. rewrite Ex, <- E.
      apply list_elem_of_In, in_map, Hy.
    + rewrite <- IH; [lia | done |].
      destruct Hex as (y & [-> | Hy] & E); [done | eauto].
Qed.

Lemma firstn_In {A} (n : nat) (l : list A) x : In x (firstn n l) -> In x l.
Proof.
  revert n. induction l as [|y l IH]; intros [|n]; simpl; try done.
  intros [-> | Hx]; [by left | right; eauto].
Qed.

(** The matching elements of a prefix are a prefix of the matching
    elements. *)
Lemma filter_firstn_prefix {A} (p : A -> bool) (n : nat) (l : list A) :
  List.filter p (firstn n l) `prefix_of` List.filter p l.
Proof.
  revert n. induction l as [|y l IH]; intros [|n]; simpl;
    try apply prefix_nil.
  destruct (p y); [apply prefix_cons|]; apply IH.
Qed.

End ListFacts.

(** ** Sorting by a float key *)

Module SortFacts.
Import Py Store FloatFacts.

Section Sorting.
Context {A : Type}.
Implicit Types (x y : float * A) (l : list (float * A)).

Lemma insert_by_key_perm x l : Permutation (insert_by_key x l) (x :: l).
Proof.
  induction l as [|y l IH]; simpl; [done|].
  destruct (flt (fst y) (fst x)); [|done].
  rewrite IH. apply perm_swap.
Qed.

Lemma sort_by_key_perm l : Permutation (sort_by_key l) l.
Proof.
  induction l as [|x l IH]; simpl; [done|].
  rewrite insert_by_key_perm. by constructor.
Qed.

Lemma insert_by_key_sorted x l :
  is_nan (fst x) = false -> keys_ordinary l ->
  StronglySorted key_le l -> StronglySorted key_le (insert_by_key x l).
Proof.
  intros Hx Hl Hs. induction Hs as [|y l Hs IH Hy]; simpl.
  - repeat constructor.
  - apply Forall_cons in Hl as [Hyn Hl].
    destruct (flt (fst y) (fst x)) eqn:E.
    + constructor; [by apply IH|].
      rewrite (insert_by_key_perm x l). constructor; [|done].
      by apply flt_fle.
    + assert (Hxy : key_le x y) by (by apply fle_total).
      constructor; [by constructor|]. constructor; [done|].
      eapply Forall_impl; [exact Hy|]. intros z Hz.
      unfold key_le in *. by eapply fle_trans.
Qed.

Lemma sort_by_key_ordinary l : keys_ordinary l -> keys_ordinary (sort_by_key l).
Proof. intros Hl. unfold keys_ordinary. by rewrite sort_by_key_perm. Qed.

(** Without NaN keys the result is sorted. *)
Lemma sort_by_key_sorted l :
  keys_ordinary l -> StronglySorted key_le (sort_by_key l).
Proof.
  induction l as [|x l IH]; simpl; intros Hl; [constructor|].
  apply Forall_cons in Hl as [Hx Hl].
  apply insert_by_key_sorted; [done | by apply sort_by_key_ordinary | by apply IH].
Qed.

(** The sort is stable: the elements with keys equal to [d] keep their
    order. *)
Lemma insert_by_key_stable (d : float) x l :
  List.filter (fun y => feq (fst y) d) (insert_by_key x l)
  = List.filter (fun y => feq (fst y) d) (x :: l).
Proof.
  induction l as [|y l IH]; simpl; [done|].
  destruct (flt (fst y) (fst x)) eqn:E; [|done].
  simpl. rewrite IH. simpl.
  destruct (feq (fst x) d) eqn:Ex; [|done].
  by rewrite (flt_feq _ _ _ E Ex).
Qed.

Lemma sort_by_key_stable (d : float) l :
  List.filter (fun y => feq (fst y) d) (sort_by_key l)
  = List.filter (fun y => feq (fst y) d) l.
Proof.
  induction l as [|x l IH]; simpl; [done|].
  rewrite insert_by_key_stable. simpl. by rewrite IH.
Qed.

End Sorting.

(** Sorting does not look at the second components. *)
Lemma sort_by_key_map {A B} (f : A -> B) (l : list (float * A)) :
  sort_by_key (map (fun x => (fst x, f (snd x))) l)
  = map (fun x => (fst x, f (snd x))) (sort_by_key l).
Proof.
  induction l as [|x l IH]; simpl; [done|]. rewrite IH.
  generalize (sort_by_key l). intros s.
  induction s as [|y s IHs]; simpl; [done|].
  destruct (flt (fst y) (fst x)); simpl; [by rewrite IHs | done].
Qed.

Lemma slice_to_nonneg {A} (limit : Z) (l : list A) :
  0 <= limit -> slice_to limit l = firstn (Z.to_nat limit) l.
Proof. intros Hl. unfold slice_to. by destruct (Z.leb_spec 0 limit); [|lia]. Qed.

Lemma slice_to_In {A} (limit : Z) (l : list A) x : In x (slice_to limit l) -> In x l.
Proof. unfold slice_to. destruct (0 <=? limit); apply ListFacts.firstn_In. Qed.

End SortFacts.

(** ** The gym store *)

Module StoreFacts.
Import Py Str Distance Store HeapFacts ListFacts.

Section WithBuiltins.
Context `{Builtins}.

Lemma save_collection st : collection (_save_to_csv st) = collection st.
Proof. unfold _save_to_csv. destruct (writable st); [apply collection_set_csv | done]. Qed.

Lemma save_heap st : heap (_save_to_csv st) = heap st.
Proof. unfold _save_to_csv. by destruct (writable st). Qed.

Lemma save_gyms st : gyms (_save_to_csv st) = gyms st.
Proof. unfold _save_to_csv. by destruct (writable st). Qed.

(** Rebinding [self.gyms] to a new list of stored dictionaries. *)
Lemma collection_rebind st rs :
  Forall (fun r => is_Some (get_dict st r)) rs ->
  collection (set_gyms (fst (alloc (List rs) st)) (snd (alloc (List rs) st)))
  = records st rs.
Proof.
  intros Hrs. unfold collection. simpl gyms.
  change (get_list (set_gyms ?l ?s) ?r) with (get_list s r).
  rewrite get_list_alloc_new.
  rewrite <- (records_alloc st (List rs) rs Hrs). by apply records_heap.
Qed.

Lemma delete_collection gym_id st :
  well_formed st ->
  collection (snd (delete_gym gym_id st))
  = List.filter (fun g => negb (gid g =? gym_id)) (collection st).
Proof.
  intros (rs & Hl & Hrs). unfold delete_gym.
  assert (Hgl : get_list st (gyms st) = rs) by (unfold get_list; by rewrite Hl).
  rewrite Hgl. rewrite (well_formed_collection _ _ Hl).
  rewrite <- (records_filter_neg st _ rs Hrs).
  rewrite <- (collection_rebind st _ (Forall_filter_dict st _ rs Hrs)).
  destruct (alloc _ st) as [l st1] eqn:Ea. simpl fst. simpl snd.
  by destruct (_ <? _)%nat; simpl; rewrite ?save_collection.
Qed.

Lemma delete_signal gym_id st :
  well_formed st ->
  fst (delete_gym gym_id st) = true <-> exists g, In g (collection st) /\ gid g = gym_id.
Proof.
  intros (rs & Hl & Hrs). unfold delete_gym.
  assert (Hgl : get_list st (gyms st) = rs) by (unfold get_list; by rewrite Hl).
  rewrite Hgl, (well_formed_collection _ _ Hl).
  destruct (alloc _ st) as [l st1] eqn:Ea.
  pose proof (records_length st rs Hrs) as L1.
  pose proof (records_length st _ (Forall_filter_dict st
    (fun r => negb (on_dict st (fun g => gid g =? gym_id) r)) rs Hrs)) as L2.
  rewrite (records_filter_neg st _ rs Hrs) in L2.
  rewrite <- L1, <- L2.
  destruct (_ <? _)%nat eqn:E; simpl.
  - apply Nat.ltb_lt, filter_length_lt in E as (g & Hg & Hp).
    apply negb_false_iff, Z.eqb_eq in Hp. split; eauto.
  - split; [done|]. intros (g & Hg & Hp).
    apply Nat.ltb_ge in E. exfalso.
    assert (S (length (List.filter (fun g => negb (gid g =? gym_id)%Z) (records st rs)))
            <= length (records st rs))%nat; [|lia].
    apply filter_length_lt. exists g. split; [done|].
    by apply negb_false_iff, Z.eqb_eq.
Qed.

Lemma In_records st rs g :
  In g (records st rs) <-> exists r, In r rs /\ get_dict st r = Some g.
Proof.
  induction rs as [|r rs IH]; simpl.
  - split; [done | by intros (? & [] & _)].
  - destruct (get_dict st r) as [g0|] eqn:E; simpl; rewrite ?IH.
    + split.
      * intros [-> | (r' & Hr' & Hg)]; eauto.
      * intros (r' & [-> | Hr'] & Hg); [left; congruence | eauto].
    + split.
      * intros (r' & Hr' & Hg); eauto.
      * intros (r' & [-> | Hr'] & Hg); [congruence | eauto].
Qed.

(** Lookup by identifier finds nothing exactly when no gym of the collection
    has the identifier. *)
Lemma get_gym_by_id_None gym_id st :
  get_gym_by_id gym_id st = None <->
  forall g, In g (collection st) -> gid g <> gym_id.
Proof.
  unfold get_gym_by_id, collection. split.
  - intros Hf g (r & Hr & Hg)%In_records E.
    pose proof (find_none _ _ Hf r Hr) as Hn. unfold on_dict in Hn.
    rewrite Hg in Hn. apply Z.eqb_neq in Hn. done.
  - intros Hall. destruct (List.find _ _) as [r|] eqn:Ef; [|done].
    apply find_some in Ef as [Hr Ht]. unfold on_dict in Ht.
    destruct (get_dict st r) as [g|] eqn:Hg; [|done].
    apply Z.eqb_eq in Ht. exfalso. apply (Hall g); [|done].
    apply In_records. eauto.
Qed.

(** What lookup by identifier returns is a reference held by [self.gyms]. *)
Lemma get_gym_by_id_Some gym_id st r :
  get_gym_by_id gym_id st = Some r ->
  In r (get_list st (gyms st)) /\
  exists g, get_dict st r = Some g /\ gid g = gym_id.
Proof.
  unfold get_gym_by_id. intros [Hr Ht]%find_some. split; [done|].
  unfold on_dict in Ht. destruct (get_dict st r) as [g|]; [|done].
  apply Z.eqb_eq in Ht. eauto.
Qed.

Lemma load_loop_push idx row rows gym st :
  gym_of_row idx row = Ok gym ->
  load_loop idx (row :: rows) st = load_loop (idx + 1) rows (push gym st).
Proof. intros E. simpl. rewrite E. reflexivity. Qed.

(** The loop appends the gyms of the rows, or stops at the first row that
    raises. *)
Lemma load_loop_spec rows : forall idx st,
  well_formed st ->
  exists st',
    csv st' = csv st /\ writable st' = writable st /\
    match gyms_of_rows idx rows with
    | Ok gs =>
        load_loop idx rows st = (Ok tt, st') /\ well_formed st' /\
        collection st' = collection st ++ gs
    | Raise e => load_loop idx rows st = (Raise e, st')
    end.
Proof.
  induction rows as [|row rows IH]; intros idx st Hwf.
  - exists st. simpl. by rewrite app_nil_r.
  - simpl gyms_of_rows. destruct (gym_of_row idx row) as [gym|e] eqn:Eg.
    + rewrite (load_loop_push _ _ _ _ _ Eg).
      destruct (push_spec gym st Hwf) as (Hwf' & Hc & _ & _ & _ & Hcsv & Hw).
      destruct (IH (idx + 1) (push gym st) Hwf') as (st' & Hcsv' & Hw' & Hm).
      exists st'. split; [congruence|]. split; [congruence|].
      simpl. destruct (gyms_of_rows (idx + 1) rows) as [gs|e]; simpl; [|done].
      destruct Hm as (-> & Hwf'' & ->). rewrite Hc, <- app_assoc. done.
    + exists st. simpl. by rewrite Eg.
Qed.

(** The collection after [load_gyms], as a function of the backing file. *)
Lemma load_gyms_collection st :
  well_formed (load_gyms st) /\
  csv (load_gyms st) = csv st /\ writable (load_gyms st) = writable st /\
  collection (load_gyms st) =
    match csv st with
    | Table rows =>
        match gyms_of_rows 1 (dict_reader rows) with
        | Ok gs => gs
        | Raise _ => []
        end
    | _ => []
    end.
Proof.
  unfold load_gyms.
  destruct (reset_gyms_spec st) as (Hwf & Hc & Hcsv & Hw).
  destruct (csv st) as [| |rows] eqn:Ecsv; try done.
  destruct (load_loop_spec (dict_reader rows) 1 _ Hwf) as (st' & Hcsv' & Hw' & Hm).
  destruct (gyms_of_rows 1 (dict_reader rows)) as [gs|e].
  - destruct Hm as (-> & Hwf' & Hc'). rewrite Hc in Hc'.
    repeat split; (done || congruence).
  - rewrite Hm. destruct (reset_gyms_spec st') as (Hwf' & Hc' & Hcsv'' & Hw'').
    repeat split; (done || congruence).
Qed.


Lemma gym_of_row_gid idx row g : gym_of_row idx row = Ok g -> gid g = idx.
Proof.
  unfold gym_of_row, bind.
  repeat match goal with
         | |- context [match ?x with _ => _ end] => destruct x; try done
         end.
  by intros [= <-].
Qed.


Lemma gyms_of_rows_ids rows : forall idx gs,
  gyms_of_rows idx rows = Ok gs -> map gid gs = seqZ idx (Z.of_nat (length rows)).
Proof.
  induction rows as [|row rows IH]; simpl length; intros idx gs.
  - by intros [= <-].
  - simpl. destruct (gym_of_row idx row) as [g|] eqn:Eg; simpl; [|done].
    destruct (gyms_of_rows (idx + 1) rows) as [gs'|] eqn:E; simpl; [|done].
    intros [= <-]. rewrite Nat2Z.inj_succ, seqZ_cons by lia. simpl.
    rewrite (gym_of_row_gid _ _ _ Eg). f_equal.
    rewrite (IH _ _ E). f_equal; lia.
Qed.




(** *** [add_gym] *)

Lemma fold_max_ge l : forall a, a <= fold_left Z.max l a.
Proof.
  induction l as [|x l IH]; simpl; intros a; [lia|].
  specialize (IH (Z.max a x)). lia.
Qed.

Lemma fold_max_bound l : forall a x, In x l -> x <= fold_left Z.max l a.
Proof.
  induction l as [|y l IH]; simpl; intros a x; [done|].
  intros [-> | Hx]; [|by apply IH].
  pose proof (fold_max_ge l (Z.max a x)). lia.
Qed.

Lemma max_default_bound ids x : In x ids -> x <= max_default ids.
Proof.
  destruct ids as [|i ids]; simpl; [done|].
  intros [-> | Hx]; [apply fold_max_ge | by apply fold_max_bound].
Qed.

Lemma add_gym_unfold gym_data st :
  add_gym gym_data st =
  (max_default (map gid (collection st)) + 1,
   _save_to_csv (push (gym_of_data (max_default (map gid (collection st)) + 1)
                         gym_data) st)).
Proof. reflexivity. Qed.

Lemma add_gym_collection gym_data st :
  well_formed st ->
  well_formed (snd (add_gym gym_data st)) /\
  collection (snd (add_gym gym_data st))
  = collection st ++ [gym_of_data (fst (add_gym gym_data st)) gym_data].
Proof.
  intros Hwf. rewrite add_gym_unfold. simpl fst. simpl snd.
  destruct (push_spec (gym_of_data (max_default (map gid (collection st)) + 1)
                         gym_data) st Hwf) as (Hwf' & Hc & _).
  split.
  - destruct Hwf' as (rs & Hl & Hrs). exists rs.
    unfold get_dict in *. rewrite save_heap, save_gyms. done.
  - by rewrite save_collection.
Qed.

Lemma max_default_seqZ (n : nat) : max_default (seqZ 1 (Z.of_nat n)) = Z.of_nat n.
Proof.
  induction n as [|n IH]; [done|].
  rewrite Nat2Z.inj_succ, <- Z.add_1_r, seqZ_app by lia.
  change (seqZ (1 + Z.of_nat n) 1) with [1 + Z.of_nat n].
  destruct (seqZ 1 (Z.of_nat n)) as [|i ids] eqn:E.
  - cbn [max_default] in IH. cbn. lia.
  - cbn [max_default app] in *. rewrite fold_left_app. cbn [fold_left].
    rewrite IH. lia.
Qed.

(** Filtering the last identifier out of [1..n+1] leaves [1..n]. *)
Lemma filter_last_id (gs : list Gym) (n : nat) :
  map gid gs = seqZ 1 (Z.of_nat (S n)) ->
  map gid (List.filter (fun g => negb (gid g =? Z.of_nat (S n))) gs)
  = seqZ 1 (Z.of_nat n).
Proof.
  rewrite Nat2Z.inj_succ, <- Z.add_1_r, seqZ_app by lia.
  change (seqZ (1 + Z.of_nat n) 1) with [1 + Z.of_nat n].
  intros E. apply map_eq_app in E as (gs1 & gs2 & -> & E1 & E2).
  destruct gs2 as [|g [|g' gs2]]; try done. injection E2 as Eg.
  rewrite List.filter_app, map_app. cbn [List.filter].
  replace (gid g =? Z.of_nat n + 1) with true by (symmetry; apply Z.eqb_eq; lia).
  cbn [negb map]. rewrite app_nil_r.
  rewrite <- E1. f_equal. apply filter_all. intros g0 Hg0.
  apply negb_true_iff, Z.eqb_neq.
  assert (Hin : In (gid g0) (seqZ 1 (Z.of_nat n)))
    by (rewrite <- E1; by apply in_map).
  apply list_elem_of_In, elem_of_seqZ in Hin. lia.
Qed.

(** C1, as the code has it. [add_gym] returns the largest identifier of the
    collection plus 1, and 1 on an empty collection; the new identifier is
    larger than every identifier in the collection. Hence an identifier is
    not assigned while the collection holds a gym with that identifier or a
    larger one; in particular the identifier removed by a [delete_gym] is not
    assigned by the next [add_gym] when a gym with a larger identifier
    remains. It is assigned by the next [add_gym] exactly when it is the
    largest identifier that remains plus 1 (1 when none remains); this is so
    in a store whose identifiers are 1, ..., n + 1 in order, as after
    [load_gyms], when the gym n + 1 is deleted. *)
Theorem add_gym_identifier gym_data st :
  let new_id := fst (add_gym gym_data st) in
  new_id = max_default (map gid (collection st)) + 1 /\
  (collection st = [] -> new_id = 1) /\
  (forall g, In g (collection st) -> gid g < new_id) /\
  (forall x, (exists g, In g (collection st) /\ x <= gid g) -> new_id <> x) /\
  (forall gym_id,
     let st1 := snd (delete_gym gym_id st) in
     (exists g, In g (collection st1) /\ gym_id <= gid g) ->
     fst (add_gym gym_data st1) <> gym_id) /\
  (forall gym_id,
     let st1 := snd (delete_gym gym_id st) in
     (well_formed st ->
      collection st1
      = List.filter (fun g => negb (gid g =? gym_id)) (collection st)) /\
     (fst (add_gym gym_data st1) = gym_id <->
      gym_id = max_default (map gid (collection st1)) + 1)) /\
  (forall n : nat,
     well_formed st -> map gid (collection st) = seqZ 1 (Z.of_nat (S n)) ->
     fst (add_gym gym_data (snd (delete_gym (Z.of_nat (S n)) st)))
     = Z.of_nat (S n)).
Proof.
  intros new_id.
  assert (Hgt : forall s g, In g (collection s) ->
                gid g < fst (add_gym gym_data s)).
  { intros s g Hg. rewrite add_gym_unfold. simpl.
    pose proof (max_default_bound (map gid (collection s)) (gid g)
                  (in_map gid _ _ Hg)). lia. }
  subst new_id. repeat split.
  - intros E. rewrite add_gym_unfold, E. reflexivity.
  - by apply Hgt.
  - intros x (g & Hg & Hx) E. specialize (Hgt st g Hg). lia.
  - intros gym_id st1 (g & Hg & Hx) E. specialize (Hgt st1 g Hg). lia.
  - by apply delete_collection.
  - rewrite add_gym_unfold. cbn [fst]. lia.
  - rewrite add_gym_unfold. cbn [fst]. lia.
  - intros n Hwf Hids. rewrite add_gym_unfold. cbn [fst].
    rewrite (delete_collection _ _ Hwf), (filter_last_id _ n Hids).
    rewrite max_default_seqZ. lia.
Qed.

(** *** Saving, then loading *)









(** *** Reading *)

Lemma well_formed_distinct st r g :
  well_formed st -> get_dict st r = Some g -> r <> gyms st.
Proof.
  intros (rs & Hl & _) Hg%get_dict_Some ->. congruence.
Qed.

Lemma well_formed_dicts st r :
  well_formed st -> In r (get_list st (gyms st)) -> is_Some (get_dict st r).
Proof.
  intros (rs & Hl & Hrs) Hr. unfold get_list in Hr. rewrite Hl in Hr.
  rewrite Forall_forall in Hrs. by apply Hrs, list_elem_of_In.
Qed.

(** A state that extends the heap of a well-formed store, with the same
    [self.gyms], holds the same collection. *)
Lemma collection_extends st st' :
  well_formed st -> heap st ⊆ heap st' -> gyms st' = gyms st ->
  well_formed st' /\ collection st' = collection st.
Proof.
  intros (rs & Hl & Hrs) Hsub Hg.
  assert (Hl' : heap st' !! gyms st' = Some (List rs))
    by (rewrite Hg; by eapply lookup_weaken).
  split.
  - exists rs. split; [done|]. eapply Forall_impl; [exact Hrs|].
    intros r [g Hr]. exists g. by eapply get_dict_mono.
  - rewrite (well_formed_collection _ _ Hl), (well_formed_collection _ _ Hl').
    by apply records_mono.
Qed.

(** Writing to an object that is neither [self.gyms] nor one of its
    dictionaries leaves the collection as it is. *)
Lemma collection_write_other st l o :
  well_formed st -> l <> gyms st -> ~ In l (get_list st (gyms st)) ->
  collection (write l o st) = collection st.
Proof.
  intros (rs & Hl & Hrs) Hne Hnin. unfold collection, write. simpl gyms.
  assert (Hgl : get_list st (gyms st) = rs) by (unfold get_list; by rewrite Hl).
  rewrite Hgl in *.
  assert (get_list (set_heap (<[l:=o]> (heap st)) st) (gyms st) = rs) as ->.
  { unfold get_list. simpl. by rewrite lookup_insert_ne, Hl. }
  clear Hl Hgl Hrs. induction rs as [|r rs IH]; simpl; [done|].
  assert (get_dict (set_heap (<[l:=o]> (heap st)) st) r = get_dict st r) as ->.
  { unfold get_dict. simpl. rewrite lookup_insert_ne; [done|].
    intros ->. apply Hnin. by left. }
  rewrite IH; [done|]. intros Hin. apply Hnin. by right.
Qed.

Lemma get_gyms_by_partner_unfiltered partner st :
  truthy partner = false -> get_gyms_by_partner partner st = (gyms st, st).
Proof. by destruct partner as [[|c p]|]. Qed.

Lemma get_gyms_by_partner_filtered partner st :
  truthy partner = true ->
  exists p,
    partner = Some p /\
    get_gyms_by_partner partner st =
    alloc (List (List.filter
                   (on_dict st (fun gym =>
                      String.eqb (lower (partner_name gym)) (lower p)))
                   (get_list st (gyms st)))) st.
Proof. destruct partner as [[|c p]|]; try done. intros _. by eexists. Qed.

(** C2, as the code has it: the read operations hand out the stored objects,
    not copies. Lookup by identifier returns a dictionary held by
    [self.gyms], so a change made through the returned reference is a change
    of the collection. The filter returns the list [self.gyms] itself for an
    empty partner, so a change of the returned list is a change of the
    collection. For a non-empty partner it returns a new list object, whose
    elements are dictionaries held by [self.gyms]: changing that list leaves
    the collection as it is. *)
Theorem reads_return_stored_objects partner gym_id st :
  well_formed st ->
  (forall r, get_gym_by_id gym_id st = Some r ->
     In r (get_list st (gyms st)) /\
     forall g', In g' (collection (write r (Dict g') st))) /\
  (truthy partner = false ->
     get_gyms_by_partner partner st = (gyms st, st) /\
     forall rs, get_list (write (gyms st) (List rs) st) (gyms st) = rs) /\
  (truthy partner = true ->
     let l := fst (get_gyms_by_partner partner st) in
     let st' := snd (get_gyms_by_partner partner st) in
     heap st !! l = None /\
     collection st' = collection st /\
     (forall r, In r (get_list st' l) -> In r (get_list st (gyms st))) /\
     (forall rs, collection (write l (List rs) st') = collection st)).
Proof.
  intros Hwf. split; [|split].
  - intros r Hr. destruct (get_gym_by_id_Some _ _ _ Hr) as (Hin & g & Hg & _).
    split; [done|]. intros g'.
    pose proof (well_formed_distinct st r g Hwf Hg) as Hne.
    apply In_records. exists r. split.
    + unfold get_list, write in *. simpl. by rewrite lookup_insert_ne.
    + apply get_dict_Some. unfold write. simpl. apply lookup_insert_eq.
  - intros Hp. split; [by apply get_gyms_by_partner_unfiltered|].
    intros rs. unfold get_list, write. simpl. by rewrite lookup_insert_eq.
  - intros Hp l st'.
    destruct (get_gyms_by_partner_filtered partner st Hp) as (p & -> & E).
    subst l st'. rewrite E. set (o := List _).
    pose proof (alloc_fresh o st) as Hf.
    destruct (collection_extends st (snd (alloc o st)) Hwf (alloc_extends o st) eq_refl)
      as [Hwf' Hc].
    assert (Hne : fst (alloc o st) <> gyms st).
    { intros E'. destruct Hwf as (rs & Hl & _). congruence. }
    assert (Hnin : ~ In (fst (alloc o st)) (get_list st (gyms st))).
    { intros Hin. destruct (well_formed_dicts st _ Hwf Hin) as [g Hg].
      apply get_dict_Some in Hg. congruence. }
    assert (Hgl : get_list (snd (alloc o st)) (gyms st) = get_list st (gyms st)).
    { destruct Hwf as (rs & Hl & _). unfold get_list at 2. rewrite Hl.
      eapply get_list_mono; [apply alloc_extends | done]. }
    repeat split; try done.
    + intros r. unfold o. rewrite get_list_alloc_new. by intros [Hr _]%filter_In.
    + intros rs. rewrite <- Hc. apply collection_write_other; try done.
      change (gyms (snd (alloc o st))) with (gyms st). by rewrite Hgl.
Qed.

(** *** [get_nearby_gyms] *)

Local Arguments alloc : simpl never.

Lemma lookup_extends_None st st' (r : ref) :
  heap st ⊆ heap st' -> heap st' !! r = None -> heap st !! r = None.
Proof.
  intros Hsub Hn. destruct (heap st !! r) as [o|] eqn:E; [|done].
  by rewrite (lookup_weaken _ _ _ _ E Hsub) in Hn.
Qed.

(** The loop only allocates: the objects of the heap are untouched, and the
    references it returns are to new copies that carry the distance. *)
Lemma distance_loop_cons user_lat user_lon r gs st :
  distance_loop user_lat user_lon (r :: gs) st =
  match get_dict st r with
  | None => (Raise TypeError, st)
  | Some gym =>
      match haversine_distance user_lat user_lon (latitude gym) (longitude gym) with
      | Raise e => (Raise e, st)
      | Ok d =>
          let a := alloc (Dict (set_distance (Some d) gym)) st in
          match distance_loop user_lat user_lon gs (snd a) with
          | (Ok rest, st2) => (Ok ((d, fst a) :: rest), st2)
          | (Raise e, st2) => (Raise e, st2)
          end
      end
  end.
Proof. reflexivity. Qed.

Lemma distance_loop_frame user_lat user_lon gs : forall st,
  let res := distance_loop user_lat user_lon gs st in
  heap st ⊆ heap (snd res) /\ gyms (snd res) = gyms st /\
  csv (snd res) = csv st /\ writable (snd res) = writable st /\
  forall ds, fst res = Ok ds ->
    Forall (fun dc => heap st !! snd dc = None /\
                      exists g, get_dict (snd res) (snd dc)
                                = Some (set_distance (Some (fst dc)) g)) ds.
Proof.
  induction gs as [|r gs IH]; intros st.
  - simpl. repeat split; try done. intros ds [= <-]. constructor.
  - cbv zeta. rewrite distance_loop_cons.
    destruct (get_dict st r) as [gym|]; [|by repeat split].
    destruct (haversine_distance _ _ _ _) as [d|e]; [|by repeat split].
    cbv zeta.
    destruct (alloc_spec _ _ _ _ (surjective_pairing
                (alloc (Dict (set_distance (Some d) gym)) st)))
      as (Hf & _ & Hext & Hnew & Hg1 & Hc1 & Hw1).
    set (c := fst (alloc _ st)) in *. set (st1 := snd (alloc _ st)) in *.
    specialize (IH st1). cbv zeta in IH.
    destruct (distance_loop user_lat user_lon gs st1) as [[rest|e] st2];
      cbn [fst snd] in *; destruct IH as (Hsub & Hg & Hc & Hw & Hds).
    + split; [by etrans|]. repeat split; try congruence.
      intros ds [= <-]. constructor.
      * cbn [fst snd]. split; [done|]. exists gym.
        eapply get_dict_mono; [exact Hsub|]. by apply get_dict_Some.
      * eapply Forall_impl; [by apply Hds|]. intros [d' c'] [Hn Hd].
        cbn [fst snd] in *. split; [|done]. by eapply lookup_extends_None.
    + split; [by etrans|]. repeat split; congruence.
Qed.

Lemma records_Forall2 st rs :
  Forall (fun r => is_Some (get_dict st r)) rs ->
  Forall2 (fun r g => get_dict st r = Some g) rs (records st rs).
Proof.
  induction 1 as [|r rs [g Hg] _ IH]; simpl; [constructor|].
  rewrite Hg. by constructor.
Qed.

(** When every distance is computed, the loop returns the copies of the
    gyms, in order, each with its distance. *)
Lemma distance_loop_ok user_lat user_lon gs : forall st gl dists,
  Forall2 (fun r g => get_dict st r = Some g) gs gl ->
  Forall2 (fun g d =>
             haversine_distance user_lat user_lon (latitude g) (longitude g)
             = Ok d) gl dists ->
  exists ds st',
    distance_loop user_lat user_lon gs st = (Ok ds, st') /\
    heap st ⊆ heap st' /\
    Forall2 (stands_for st') ds (keyed gl dists).
Proof.
  induction gs as [|r gs IH]; intros st gl dists Hgl Hd.
  - apply Forall2_nil_inv_l in Hgl as ->. apply Forall2_nil_inv_l in Hd as ->.
    exists [], st. repeat split; [done | constructor].
  - apply Forall2_cons_inv_l in Hgl as (g & gl' & Hg & Hgl & ->).
    apply Forall2_cons_inv_l in Hd as (d & dists' & Hdg & Hd & ->).
    rewrite distance_loop_cons, Hg, Hdg. cbv zeta.
    destruct (alloc_spec _ _ _ _ (surjective_pairing
                (alloc (Dict (set_distance (Some d) g)) st)))
      as (Hf & _ & Hext & Hnew & _).
    set (c := fst (alloc _ st)) in *. set (st1 := snd (alloc _ st)) in *.
    destruct (IH st1 gl' dists') as (ds & st' & -> & Hsub & Hall); [|done|].
    { eapply Forall2_impl; [exact Hgl|]. intros r' g' Hr'.
      by eapply get_dict_mono. }
    exists ((d, c) :: ds), st'. split; [done|]. split; [by transitivity (heap st1)|].
    simpl. constructor; [|done]. split; [done|]. simpl.
    eapply get_dict_mono; [exact Hsub|]. by apply get_dict_Some.
Qed.

Lemma stands_for_mono st st' dc dg :
  heap st ⊆ heap st' -> stands_for st dc dg -> stands_for st' dc dg.
Proof. intros Hsub [Hk Hg]. split; [done|]. by eapply get_dict_mono. Qed.

Lemma stands_for_insert st dc dg ps qs :
  stands_for st dc dg -> Forall2 (stands_for st) ps qs ->
  Forall2 (stands_for st) (insert_by_key dc ps) (insert_by_key dg qs).
Proof.
  intros Hx. induction 1 as [|p q ps qs Hpq Hall IH]; simpl.
  - constructor; [done | constructor].
  - destruct Hx as [Hk Hg], Hpq as [Hk' Hg']. rewrite Hk, Hk'.
    destruct (flt (fst q) (fst dg)).
    + constructor; [by split|]. apply IH.
    + constructor; [by split|]. constructor; [by split | done].
Qed.

Lemma stands_for_sort st ps qs :
  Forall2 (stands_for st) ps qs ->
  Forall2 (stands_for st) (sort_by_key ps) (sort_by_key qs).
Proof.
  induction 1 as [|p q ps qs Hpq Hall IH]; simpl; [constructor|].
  by apply stands_for_insert.
Qed.

Lemma stands_for_records st ps qs :
  Forall2 (stands_for st) ps qs -> records st (map snd ps) = map snd qs.
Proof.
  induction 1 as [|p q ps qs [_ Hg] Hall IH]; simpl; [done|].
  by rewrite Hg, IH.
Qed.

Lemma keyed_snd gl dists :
  length gl = length dists ->
  map snd (keyed gl dists) = zip_with (fun g d => set_distance (Some d) g) gl dists.
Proof.
  revert dists. induction gl as [|g gl IH]; intros [|d dists]; simpl; try done.
  intros [= E]. by rewrite IH.
Qed.

Lemma keyed_keys gl dists :
  Forall (fun x => fst x = distance_of (snd x)) (keyed gl dists).
Proof.
  revert dists. induction gl as [|g gl IH]; intros [|d dists]; simpl;
    constructor; [done | apply IH].
Qed.

Lemma keyed_ordinary gl dists :
  Forall (fun d => is_nan d = false) dists ->
  keys_ordinary (keyed gl dists).
Proof.
  intros Hd. revert gl. induction Hd as [|d dists Hd _ IH]; intros [|g gl];
    simpl; constructor; [done | apply IH].
Qed.

(** Filtering gyms by their distance is filtering pairs by their key. *)
Lemma at_distance_keys (d : float) (l : list (float * Gym)) :
  Forall (fun x => fst x = distance_of (snd x)) l ->
  at_distance d (map snd l) = map snd (List.filter (fun x => feq (fst x) d) l).
Proof.
  unfold at_distance. induction 1 as [|x l Hx _ IH]; simpl; [done|].
  rewrite <- Hx. destruct (feq (fst x) d); simpl; by rewrite IH.
Qed.

Lemma sorted_keys_by_distance (l : list (float * Gym)) :
  Forall (fun x => fst x = distance_of (snd x)) l ->
  StronglySorted key_le l -> sorted_by_distance (map snd l).
Proof.
  intros Hk Hs. induction Hs as [|x l Hs IH Hx]; intros i j gi gj Hij Hi Hj.
  - done.
  - apply Forall_cons in Hk as [Hkx Hk].
    destruct j as [|j]; [lia|]. simpl in Hj. destruct i as [|i]; simpl in Hi.
    + injection Hi as <-.
      apply list_lookup_fmap_Some in Hj as (y & -> & Hy).
      rewrite Forall_forall in Hx, Hk.
      assert (Hin : y ∈ l) by (by eapply list_elem_of_lookup_2).
      specialize (Hx y Hin). unfold key_le in Hx.
      by rewrite <- Hkx, <- (Hk y Hin).
    + eapply (IH Hk i j); [lia | done | done].
Qed.

Lemma sorted_by_distance_firstn (n : nat) l :
  sorted_by_distance l -> sorted_by_distance (firstn n l).
Proof.
  intros Hs i j gi gj Hij Hi Hj.
  apply lookup_take_Some in Hi as [Hi _]. apply lookup_take_Some in Hj as [Hj _].
  by eapply Hs.
Qed.

Lemma get_gyms_by_partner_extends partner st :
  heap st ⊆ heap (snd (get_gyms_by_partner partner st)) /\
  gyms (snd (get_gyms_by_partner partner st)) = gyms st /\
  csv (snd (get_gyms_by_partner partner st)) = csv st /\
  writable (snd (get_gyms_by_partner partner st)) = writable st.
Proof.
  destruct (truthy partner) eqn:Hp.
  - destruct (get_gyms_by_partner_filtered partner st Hp) as (p & -> & ->).
    split; [apply alloc_extends | done].
  - by rewrite get_gyms_by_partner_unfiltered.
Qed.

(** C10. [get_nearby_gyms] leaves every object of the heap as it was, and
    with it the collection and the backing file; the list it returns and the
    dictionaries in that list are new objects, and only they carry a
    distance. *)
Theorem get_nearby_gyms_frame user_lat user_lon partner limit st :
  well_formed st ->
  let res := fst (get_nearby_gyms user_lat user_lon partner limit st) in
  let st' := snd (get_nearby_gyms user_lat user_lon partner limit st) in
  heap st ⊆ heap st' /\
  (forall r g, get_dict st r = Some g -> get_dict st' r = Some g) /\
  gyms st' = gyms st /\ csv st' = csv st /\
  collection st' = collection st /\
  (forall l, res = Ok l ->
     heap st !! l = None /\
     forall c, In c (get_list st' l) ->
       heap st !! c = None /\
       exists g d, get_dict st' c = Some (set_distance (Some d) g)).
Proof.
  intros Hwf res st'. subst res st'. unfold get_nearby_gyms.
  destruct (get_gyms_by_partner_extends partner st) as (Hs1 & Hg1 & Hc1 & Hw1).
  set (p1 := if truthy partner then get_gyms_by_partner partner st else (gyms st, st)).
  assert (Hp1 : heap st ⊆ heap (snd p1) /\ gyms (snd p1) = gyms st /\
                csv (snd p1) = csv st).
  { subst p1. by destruct (truthy partner). }
  destruct p1 as [gs st1]. cbn [fst snd] in Hp1. destruct Hp1 as (Hsub1 & Hgy1 & Hcsv1).
  pose proof (distance_loop_frame user_lat user_lon (get_list st1 gs) st1) as Hloop.
  cbv zeta in Hloop. destruct Hloop as (Hsub2 & Hgy2 & Hcsv2 & _ & Hds).
  destruct (distance_loop user_lat user_lon (get_list st1 gs) st1)
    as [[ds|e] st2]; cbn [fst snd] in *.
  - destruct (alloc _ st2) as [l st3] eqn:Ea.
    destruct (alloc_spec _ _ _ _ Ea) as (Hf & _ & Hext & Hnew & Hg3 & Hc3 & Hw3).
    cbn [fst snd].
    assert (Hsub12 : heap st ⊆ heap st2) by (by transitivity (heap st1)).
    assert (Hsub : heap st ⊆ heap st3) by (by transitivity (heap st2)).
    split; [done|]. split; [intros r g; by apply get_dict_mono|].
    split; [congruence|]. split; [congruence|]. split.
    + apply collection_extends; [done | done | congruence].
    + intros l' [= <-]. split.
      * exact (lookup_extends_None st st2 l Hsub12 Hf).
      * intros c. unfold get_list. rewrite Hnew.
        intros Hc%SortFacts.slice_to_In. apply in_map_iff in Hc as ([d c'] & <- & Hin).
        apply (Permutation_in _ (SortFacts.sort_by_key_perm ds)) in Hin.
        specialize (Hds ds eq_refl). rewrite Forall_forall in Hds.
        destruct (Hds (d, c') ltac:(by apply list_elem_of_In)) as [Hn [g Hg]].
        cbn [fst snd] in *. split; [exact (lookup_extends_None st st1 _ Hsub1 Hn)|].
        exists g, d. exact (get_dict_mono st2 st3 _ _ Hext Hg).
  - assert (Hsub : heap st ⊆ heap st2) by (by transitivity (heap st1)).
    split; [done|]. split; [intros r g; by apply get_dict_mono|].
    split; [congruence|]. split; [congruence|]. split; [|done].
    apply collection_extends; [done | done | congruence].
Qed.

(** The references [get_nearby_gyms] iterates over point to the
    candidates. *)
Lemma candidates_refs partner st :
  well_formed st ->
  let p := if truthy partner then get_gyms_by_partner partner st
           else (gyms st, st) in
  heap st ⊆ heap (snd p) /\
  Forall2 (fun r g => get_dict (snd p) r = Some g)
    (get_list (snd p) (fst p)) (candidates partner st).
Proof.
  intros Hwf. pose proof Hwf as (rs & Hl & Hrs).
  assert (Hgl : get_list st (gyms st) = rs) by (unfold get_list; by rewrite Hl).
  destruct (truthy partner) eqn:Hp; cbv zeta.
  - destruct (get_gyms_by_partner_filtered partner st Hp) as (q & -> & ->).
    rewrite Hgl.
    destruct (alloc_spec _ _ _ _ (surjective_pairing
                (alloc (List (List.filter
                   (on_dict st (fun gym =>
                      String.eqb (lower (partner_name gym)) (lower q)))
                   rs)) st)))
      as (Hf & _ & Hext & Hnew & _).
    split; [done|]. rewrite (get_list_Some _ _ _ Hnew).
    assert (candidates (Some q) st
            = records st (List.filter (on_dict st (fun gym =>
                String.eqb (lower (partner_name gym)) (lower q))) rs)) as ->.
    { rewrite records_filter, <- (well_formed_collection _ _ Hl).
      by destruct q. }
    eapply Forall2_impl.
    + apply records_Forall2, Forall_filter_dict, Hrs.
    + intros r g Hg. by eapply get_dict_mono.
  - split; [done|]. cbn [fst snd]. rewrite Hgl.
    assert (candidates partner st = records st rs) as ->.
    { rewrite <- (well_formed_collection _ _ Hl). by destruct partner as [[|c q]|]. }
    by apply records_Forall2.
Qed.

(** C5, as the code has it. For a limit that is not negative, and when the
    distance of every candidate is computed (no exception) and is not NaN,
    [get_nearby_gyms] returns at most [limit] gyms, with non-decreasing
    distances, gyms at equal distances in the order of the collection: the
    first [limit] gyms of the stable ranking of the candidates, where the
    candidates are the gyms of the partner, or all gyms without a filter. *)
Theorem get_nearby_gyms_ranking user_lat user_lon partner limit st dists :
  well_formed st -> 0 <= limit ->
  Forall2 (fun g d =>
             haversine_distance user_lat user_lon (latitude g) (longitude g)
             = Ok d /\ is_nan d = false)
    (candidates partner st) dists ->
  exists l st',
    get_nearby_gyms user_lat user_lon partner limit st = (Ok l, st') /\
    let result := records st' (get_list st' l) in
    let ranked := zip_with (fun g d => set_distance (Some d) g)
                    (candidates partner st) dists in
    Z.of_nat (length result) <= limit /\
    sorted_by_distance result /\
    (forall d, at_distance d result `prefix_of` at_distance d ranked) /\
    exists full,
      Permutation full ranked /\ sorted_by_distance full /\
      (forall d, at_distance d full = at_distance d ranked) /\
      result = firstn (Z.to_nat limit) full.
Proof.
  intros Hwf Hlimit Hd. unfold get_nearby_gyms.
  pose proof (candidates_refs partner st Hwf) as Hp. cbv zeta in Hp.
  destruct (if truthy partner then get_gyms_by_partner partner st
            else (gyms st, st)) as [gs st1].
  cbn [fst snd] in Hp. destruct Hp as [Hsub1 Hrefs].
  assert (Hlen : length (candidates partner st) = length dists)
    by (by eapply Forall2_length).
  assert (Hok : Forall2 (fun g d =>
             haversine_distance user_lat user_lon (latitude g) (longitude g)
             = Ok d) (candidates partner st) dists).
  { eapply Forall2_impl; [exact Hd|]. by intros g d [? _]. }
  assert (Hnan : Forall (fun d => is_nan d = false) dists).
  { clear -Hd. induction Hd as [|g d gl dl [_ Hn] _ IH]; by constructor. }
  destruct (distance_loop_ok user_lat user_lon _ st1 _ _ Hrefs Hok)
    as (ds & st2 & -> & Hsub2 & Hall).
  destruct (alloc_spec _ _ _ _ (surjective_pairing
              (alloc (List (slice_to limit (map snd (sort_by_key ds)))) st2)))
    as (Hf & _ & Hext & Hnew & _).
  set (l := fst (alloc _ st2)) in *. set (st3 := snd (alloc _ st2)) in *.
  change (alloc _ st2) with (l, st3).
  exists l, st3. split; [done|]. cbv zeta.
  set (kd := keyed (candidates partner st) dists).
  set (full := map snd (sort_by_key kd)).
  assert (Hres : records st3 (get_list st3 l) = firstn (Z.to_nat limit) full).
  { rewrite (get_list_Some _ _ _ Hnew), SortFacts.slice_to_nonneg by done.
    rewrite <- fmap_take. unfold full. rewrite <- fmap_take.
    apply stands_for_records, Forall2_take.
    apply stands_for_sort. eapply Forall2_impl; [exact Hall|].
    intros dc dg. by apply stands_for_mono. }
  assert (Hkeys : Forall (fun x => fst x = distance_of (snd x)) (sort_by_key kd)).
  { rewrite (SortFacts.sort_by_key_perm kd). apply keyed_keys. }
  assert (Hsorted : sorted_by_distance full).
  { apply sorted_keys_by_distance; [done|].
    apply SortFacts.sort_by_key_sorted. by apply keyed_ordinary. }
  assert (Hstable : forall d,
            at_distance d full
            = at_distance d (zip_with (fun g d => set_distance (Some d) g)
                               (candidates partner st) dists)).
  { intros d. unfold full. rewrite at_distance_keys by done.
    rewrite SortFacts.sort_by_key_stable.
    rewrite <- at_distance_keys by apply keyed_keys.
    unfold kd. by rewrite keyed_snd. }
  rewrite Hres. repeat split.
  - rewrite length_take. lia.
  - by apply sorted_by_distance_firstn.
  - intros d. rewrite <- Hstable. apply filter_firstn_prefix.
  - exists full. repeat split; try done.
    unfold full. rewrite (SortFacts.sort_by_key_perm kd).
    unfold kd. by rewrite keyed_snd.
Qed.

(** C7. On a well-formed store with unique identifiers (every state the
    store goes through is one, see [reachable_invariant] below),
    [delete_gym] returns [True] exactly when a gym with the identifier
    was in the collection. In that case the collection has one gym less and a
    lookup of the identifier finds nothing; otherwise the collection and the
    backing file are unchanged. *)
Theorem delete_gym_signal gym_id st :
  well_formed st -> unique_ids st ->
  let removed := fst (delete_gym gym_id st) in
  let st' := snd (delete_gym gym_id st) in
  (removed = true <-> exists g, In g (collection st) /\ gid g = gym_id) /\
  (removed = true ->
     S (length (collection st')) = length (collection st) /\
     get_gym_by_id gym_id st' = None) /\
  (removed = false ->
     collection st' = collection st /\ csv st' = csv st).
Proof.
  intros Hwf Hu removed st'.
  pose proof (delete_signal gym_id st Hwf) as Hsig.
  pose proof (delete_collection gym_id st Hwf) as Hcol.
  fold removed in Hsig. fold st' in Hcol.
  split; [done|]. split.
  - intros Hr. apply Hsig in Hr. split.
    + rewrite Hcol. by apply filter_key_length.
    + apply get_gym_by_id_None. intros g. rewrite Hcol.
      intros [_ Hg]%filter_In. by apply negb_true_iff, Z.eqb_neq in Hg.
  - intros Hr. split.
    + rewrite Hcol. apply filter_all. intros g Hg.
      apply negb_true_iff, Z.eqb_neq. intros E.
      assert (removed = true) by (apply Hsig; eauto). congruence.
    + subst removed st'. unfold delete_gym in *.
      destruct (alloc _ st) as [l st1] eqn:Ea.
      destruct (_ <? _)%nat; [done|]. simpl.
      by injection Ea as _ <-.
Qed.

(** *** The invariant *)

Lemma get_nearby_gyms_extends user_lat user_lon partner limit st :
  heap st ⊆ heap (snd (get_nearby_gyms user_lat user_lon partner limit st)) /\
  gyms (snd (get_nearby_gyms user_lat user_lon partner limit st)) = gyms st.
Proof.
  unfold get_nearby_gyms.
  destruct (get_gyms_by_partner_extends partner st) as (Hs1 & Hg1 & _).
  set (p1 := if truthy partner then get_gyms_by_partner partner st else (gyms st, st)).
  assert (Hp1 : heap st ⊆ heap (snd p1) /\ gyms (snd p1) = gyms st).
  { subst p1. by destruct (truthy partner). }
  destruct p1 as [gs st1]. cbn [fst snd] in Hp1. destruct Hp1 as (Hsub1 & Hgy1).
  pose proof (distance_loop_frame user_lat user_lon (get_list st1 gs) st1) as Hloop.
  cbv zeta in Hloop. destruct Hloop as (Hsub2 & Hgy2 & _).
  destruct (distance_loop user_lat user_lon (get_list st1 gs) st1)
    as [[ds|e] st2]; cbn [fst snd] in *.
  - destruct (alloc _ st2) as [l st3] eqn:Ea.
    destruct (alloc_spec _ _ _ _ Ea) as (_ & _ & Hext & _ & Hg3 & _).
    cbn [fst snd]. split; [|congruence].
    transitivity (heap st2); [|done]. by transitivity (heap st1).
  - split; [by transitivity (heap st1) | congruence].
Qed.

Lemma delete_gym_well_formed gym_id st :
  well_formed st -> well_formed (snd (delete_gym gym_id st)).
Proof.
  intros (rs & Hl & Hrs). unfold delete_gym.
  rewrite (get_list_Some _ _ _ Hl).
  set (kept := List.filter _ rs).
  destruct (alloc (List kept) st) as [l st1] eqn:Ea.
  destruct (alloc_spec _ _ _ _ Ea) as (_ & _ & Hext & Hnew & _).
  assert (Hwf : well_formed (set_gyms l st1)).
  { exists kept. split; [done|].
    eapply Forall_impl; [apply Forall_filter_dict, Hrs|].
    intros r [g Hg]. exists g. by eapply (get_dict_mono st st1). }
  destruct (_ <? _)%nat; cbn [snd]; [|done].
  destruct Hwf as (rs' & Hl' & Hrs'). exists rs'.
  unfold get_dict in *. by rewrite save_heap, save_gyms.
Qed.

Lemma NoDup_filter_keys (test : Gym -> bool) gs :
  NoDup (map gid gs) -> NoDup (map gid (List.filter test gs)).
Proof.
  induction gs as [|g gs IH]; simpl; [done|].
  intros [Hg Hnd]%NoDup_cons. destruct (test g); simpl; [|by apply IH].
  apply NoDup_cons. split; [|by apply IH].
  intros Hin. apply Hg. apply list_elem_of_In, in_map_iff in Hin as (g' & E & Hg').
  apply filter_In in Hg' as [Hg' _].
  apply list_elem_of_In, in_map_iff. eauto.
Qed.

(** Every state the store goes through is well formed and has unique
    identifiers: [load_gyms] numbers the gyms 1..N, [add_gym] picks an
    identifier above all others, [delete_gym] only removes gyms, and the
    read operations leave the collection as it is. *)
Lemma reachable_invariant st : reachable st -> well_formed st /\ unique_ids st.
Proof.
  induction 1 as [st | partner st _ [Hwf Hu]
                 | user_lat user_lon partner limit st _ [Hwf Hu]
                 | gym_data st _ [Hwf Hu] | gym_id st _ [Hwf Hu]].
  - destruct (load_gyms_collection st) as (Hwf & _ & _ & Hc).
    split; [done|]. unfold unique_ids. rewrite Hc.
    destruct (csv st) as [| |rows]; try apply NoDup_nil_2.
    destruct (gyms_of_rows 1 (dict_reader rows)) as [gs|] eqn:E;
      [|apply NoDup_nil_2].
    rewrite (gyms_of_rows_ids _ _ _ E). apply NoDup_seqZ.
  - destruct (get_gyms_by_partner_extends partner st) as (Hsub & Hg & _).
    destruct (collection_extends st _ Hwf Hsub Hg) as [Hwf' Hc].
    split; [done|]. unfold unique_ids. by rewrite Hc.
  - destruct (get_nearby_gyms_extends user_lat user_lon partner limit st)
      as [Hsub Hg].
    destruct (collection_extends st _ Hwf Hsub Hg) as [Hwf' Hc].
    split; [done|]. unfold unique_ids. by rewrite Hc.
  - destruct (add_gym_collection gym_data st Hwf) as [Hwf' Hc].
    split; [done|]. unfold unique_ids. rewrite Hc, map_app. simpl.
    apply NoDup_app. split; [done|]. split; [|apply NoDup_singleton].
    intros x Hx Hnew. apply list_elem_of_In, in_map_iff in Hx as (g & <- & Hg).
    apply list_elem_of_singleton in Hnew. simpl in Hnew.
    pose proof (max_default_bound (map gid (collection st)) (gid g)
                  (in_map gid _ _ Hg)). lia.
  - split; [by apply delete_gym_well_formed|].
    unfold unique_ids. rewrite delete_collection by done.
    by apply NoDup_filter_keys.
Qed.

End WithBuiltins.
End StoreFacts.

(** ** The request log *)

Module RequestLogFacts.
Import Py Str RequestLog StrFacts.

Lemma startswith_app a : forall b c, startswith (a +:+ b) (a +:+ (b +:+ c)) = true.
Proof.
  induction a as [|x a IH]; simpl; intros b c.
  - induction b as [|y b IHb]; simpl; [done|]. by rewrite Ascii.eqb_refl.
  - by rewrite Ascii.eqb_refl.
Qed.

(** Zero padding: what is in front of the digits is zeros. *)
Lemma zfill_cases (width : nat) s :
  exists k : nat, zfill width s = String.concat "" (repeat "0" k) +:+ s /\
                  k = (width - String.length s)%nat.
Proof. eexists. split; reflexivity. Qed.

Lemma read_zeros k : forall s b,
  read_digits (String.concat "" (repeat "0" k) +:+ s) 0 b
  = read_digits s 0 (match k with O => b | _ => true end).
Proof.
  induction k as [|k IH]; intros s b; [done|].
  destruct k as [|k].
  - simpl. reflexivity.
  - change (String.concat "" (repeat "0" (S (S k))) +:+ s)
      with (String "0" (String.concat "" (repeat "0" (S k)) +:+ s)).
    simpl read_digits. rewrite IH. reflexivity.
Qed.

Lemma zeros_no_space k : no_space (String.concat "" (repeat "0" k)) = true.
Proof.
  induction k as [|k IH]; [done|]. destruct k as [|k]; [done|].
  change (String.concat "" (repeat "0" (S (S k))))
    with (String "0" (String.concat "" (repeat "0" (S k)))).
  cbn [no_space]. exact IH.
Qed.

(** The sequence suffix denotes the sequence number. *)
Lemma int_of_format_03d n : 0 <= n -> int_of_str (format_03d n) = Some n.
Proof.
  intros Hn. unfold format_03d. destruct (Z.ltb_spec n 0); [lia|].
  destruct (zfill_cases 3 (str_of_nonneg n)) as (k & -> & _).
  destruct (digits_of_head (S (Z.to_nat (Z.log2 n))) n EmptyString)
    as (c & s & E & Hc); [lia | done |].
  assert (Hs : no_space (str_of_nonneg n) = true)
    by (by apply digits_of_no_space).
  assert (Hall : no_space (String.concat "" (repeat "0" k) +:+ str_of_nonneg n) = true)
    by (by rewrite no_space_app, zeros_no_space, Hs).
  assert (Hread : read_digits (String.concat "" (repeat "0" k) +:+ str_of_nonneg n)
                    0 false = Some n)
    by (rewrite read_zeros; by apply read_str_of_nonneg).
  destruct k as [|k].
  - change (String.concat "" (repeat "0" 0) +:+ str_of_nonneg n)
      with (str_of_nonneg n) in *.
    unfold str_of_nonneg in *. rewrite E in *.
    by rewrite int_of_digits.
  - destruct k as [|k].
    + change (String.concat "" (repeat "0" 1) +:+ str_of_nonneg n)
        with (String "0" (str_of_nonneg n)) in *.
      by rewrite int_of_digits.
    + change (String.concat "" (repeat "0" (S (S k))) +:+ str_of_nonneg n)
        with (String "0" (String.concat "" (repeat "0" (S k)) +:+ str_of_nonneg n)) in *.
      by rewrite int_of_digits.
Qed.

Lemma length_append s t : String.length (s +:+ t) = (String.length s + String.length t)%nat.
Proof. induction s as [|c s IH]; simpl; [done|]. by rewrite IH. Qed.

Lemma length_zeros k : String.length (String.concat "" (repeat "0" k)) = k.
Proof.
  induction k as [|k IH]; [done|]. destruct k as [|k]; [done|].
  change (String.concat "" (repeat "0" (S (S k))))
    with (String "0" (String.concat "" (repeat "0" (S k)))).
  cbn [String.length]. f_equal. exact IH.
Qed.

Lemma format_03d_length n : 0 <= n -> (3 <= String.length (format_03d n))%nat.
Proof.
  intros Hn. unfold format_03d. destruct (Z.ltb_spec n 0); [lia|].
  destruct (zfill_cases 3 (str_of_nonneg n)) as (k & -> & ->).
  rewrite length_append, length_zeros. lia.
Qed.

(** Below 1000 the suffix has exactly three digits (checked on every
    number). *)
Lemma format_03d_three n : 0 <= n < 1000 -> String.length (format_03d n) = 3%nat.
Proof.
  intros Hn.
  assert (Hall : forallb (fun k => Nat.eqb (String.length (format_03d k)) 3)
                   (seqZ 0 1000) = true) by (by vm_compute).
  rewrite forallb_forall in Hall. apply Nat.eqb_eq, Hall.
  apply list_elem_of_In, elem_of_seqZ. lia.
Qed.

(** C9, as the code has it. The sequence number of [save_request] is the
    number of stored requests whose identifier starts with ["REQ_" + date],
    plus 1. Two calls in a row on the same day return identifiers that share
    the prefix ["REQ_" + date + "_"] and end in the decimal sequence numbers
    [n] and [n + 1], padded with zeros to at least three digits: exactly
    three while the number is below 1000. *)
Theorem save_request_sequence date_str now1 now2 data1 data2 st :
  log_writable st = true ->
  let n := Z.of_nat (length (List.filter
                       (fun r => startswith ("REQ_" +:+ date_str) (request_id r))
                       (get_all_requests st))) + 1 in
  let id1 := fst (save_request date_str now1 data1 st) in
  let st1 := snd (save_request date_str now1 data1 st) in
  let id2 := fst (save_request date_str now2 data2 st1) in
  id1 = Ok ("REQ_" +:+ date_str +:+ "_" +:+ format_03d n) /\
  id2 = Ok ("REQ_" +:+ date_str +:+ "_" +:+ format_03d (n + 1)) /\
  int_of_str (format_03d n) = Some n /\
  int_of_str (format_03d (n + 1)) = Some (n + 1) /\
  (3 <= String.length (format_03d n))%nat /\
  (3 <= String.length (format_03d (n + 1)))%nat /\
  (n + 1 < 1000 ->
   String.length (format_03d n) = 3%nat /\
   String.length (format_03d (n + 1)) = 3%nat).
Proof.
  intros Hw n id1 st1 id2. subst id1 st1 id2. unfold save_request.
  rewrite Hw. cbn [fst snd log_writable get_all_requests log].
  fold n. split; [done|]. split.
  - rewrite List.filter_app, length_app. cbn [List.filter request_id].
    rewrite startswith_app. cbn [length].
    replace (Z.of_nat (_ + 1) + 1) with (n + 1) by (subst n; lia). done.
  - assert (Hn : 0 <= n) by (subst n; lia).
    split; [apply int_of_format_03d; lia|].
    split; [apply int_of_format_03d; lia|].
    split; [apply format_03d_length; lia|].
    split; [apply format_03d_length; lia|].
    intros Hlt. split; apply format_03d_three; lia.
Qed.

End RequestLogFacts.

(** ** More on strings: stripping twice, and the order of strings *)

Module TextFacts.
Import Str Text.

Lemma rstrip_rstrip s : rstrip (rstrip s) = rstrip s.
Proof.
  induction s as [|c s IH]; [done|]. cbn [rstrip].
  destruct (rstrip s) as [|d r] eqn:E.
  - destruct (is_space c) eqn:Ec; [done|]. cbn [rstrip]. by rewrite Ec.
  - cbn [rstrip]. cbn [rstrip] in IH. by rewrite IH.
Qed.

Lemma lstrip_head_ok s : head_ok (lstrip s) = true.
Proof.
  induction s as [|c s IH]; [done|]. cbn [lstrip].
  destruct (is_space c) eqn:Ec; [done|]. cbn [head_ok]. by rewrite Ec.
Qed.

Lemma lstrip_rstrip s : head_ok s = true -> lstrip (rstrip s) = rstrip s.
Proof.
  destruct s as [|c s]; [done|]. cbn [head_ok]. intros Hc%negb_true_iff.
  cbn [rstrip]. destruct (rstrip s); [|by cbn [lstrip]; rewrite Hc].
  rewrite Hc. cbn [lstrip]. by rewrite Hc.
Qed.

Lemma strip_strip s : strip (strip s) = strip s.
Proof.
  unfold strip. rewrite (lstrip_rstrip (lstrip s)) by apply lstrip_head_ok.
  apply rstrip_rstrip.
Qed.

Lemma lstrip_length s : (String.length (lstrip s) <= String.length s)%nat.
Proof.
  induction s as [|c s IH]; [done|]. cbn [lstrip].
  destruct (is_space c); cbn [String.length]; lia.
Qed.

Lemma rstrip_length s : (String.length (rstrip s) <= String.length s)%nat.
Proof.
  induction s as [|c s IH]; [done|]. cbn [rstrip].
  destruct (rstrip s); [destruct (is_space c)|]; cbn [String.length] in *; lia.
Qed.

Lemma strip_length s : (String.length (strip s) <= String.length s)%nat.
Proof.
  unfold strip. pose proof (rstrip_length (lstrip s)).
  pose proof (lstrip_length s). lia.
Qed.

(** *** The order [<] of strings *)

Lemma ascii_compare_refl c : Ascii.compare c c = Eq.
Proof. apply N.compare_refl. Qed.

Lemma compare_refl s : String.compare s s = Eq.
Proof.
  induction s as [|c s IH]; [done|]. cbn [String.compare].
  by rewrite ascii_compare_refl.
Qed.

Lemma compare_Lt_trans a : forall b c,
  String.compare a b = Lt -> String.compare b c = Lt -> String.compare a c = Lt.
Proof.
  induction a as [|x a IH]; intros [|y b] [|z c]; cbn [String.compare];
    try done.
  unfold Ascii.compare.
  destruct (N.compare_spec (N_of_ascii x) (N_of_ascii y)) as [E1|L1|G1];
    try done;
  destruct (N.compare_spec (N_of_ascii y) (N_of_ascii z)) as [E2|L2|G2];
    try done; intros H1 H2.
  - rewrite E1, E2, N.compare_refl. by eapply IH.
  - rewrite E1. by apply N.compare_lt_iff in L2 as ->.
  - rewrite <- E2. by apply N.compare_lt_iff in L1 as ->.
  - assert (L : (N_of_ascii x < N_of_ascii z)%N) by lia.
    by apply N.compare_lt_iff in L as ->.
Qed.

Lemma ltb_trans a b c :
  String.ltb a b = true -> String.ltb b c = true -> String.ltb a c = true.
Proof.
  unfold String.ltb. intros H1 H2.
  destruct (String.compare a b) eqn:E1; try done.
  destruct (String.compare b c) eqn:E2; try done.
  by rewrite (compare_Lt_trans _ _ _ E1 E2).
Qed.

Lemma ltb_irrefl a : String.ltb a a = false.
Proof. unfold String.ltb. by rewrite compare_refl. Qed.

(** Two different strings are ordered one way or the other. *)
Lemma ltb_total a b : a <> b -> String.ltb b a = false -> String.ltb a b = true.
Proof.
  unfold String.ltb. intros Hne. rewrite (String.compare_antisym a b).
  destruct (String.compare b a) eqn:E; try done.
  by apply String.compare_eq_iff in E.
Qed.

End TextFacts.

(** ** The partner list *)

Module PartnersFacts.
Import Py Str Store Partners TextFacts.

Lemma count_at_count_partner q p d :
  count_at q (count_partner p d)
  = count_at q d + (if String.eqb p q then 1 else 0).
Proof.
  unfold count_at. induction d as [|[k c] d IH]; cbn [count_partner List.find fst snd].
  - destruct (String.eqb_spec p q); [done|lia].
  - destruct (String.eqb_spec k p) as [->|Hkp]; cbn [List.find fst snd].
    + destruct (String.eqb_spec p q); [done|lia].
    + destruct (String.eqb_spec k q) as [->|Hkq]; [|done].
      destruct (String.eqb_spec p q); [congruence|lia].
Qed.

Lemma keys_count_partner q p d :
  In q (map fst (count_partner p d)) <-> q = p \/ In q (map fst d).
Proof.
  induction d as [|[k c] d IH]; cbn [count_partner map In fst snd].
  - intuition congruence.
  - destruct (String.eqb_spec k p) as [->|Hkp]; cbn [map In fst];
      intuition congruence.
Qed.

Lemma NoDup_count_partner p d :
  NoDup (map fst d) -> NoDup (map fst (count_partner p d)).
Proof.
  induction d as [|[k c] d IH]; cbn [count_partner map fst snd]; intros Hd.
  - apply NoDup_singleton.
  - apply NoDup_cons in Hd as [Hk Hd].
    destruct (String.eqb_spec k p) as [->|Hkp]; cbn [map fst].
    + by apply NoDup_cons.
    + apply NoDup_cons. split; [|by apply IH].
      rewrite list_elem_of_In, keys_count_partner, <- list_elem_of_In.
      intuition congruence.
Qed.

Lemma positive_count_partner p d :
  Forall (fun item => 0 < snd item) d ->
  Forall (fun item => 0 < snd item) (count_partner p d).
Proof.
  induction 1 as [|[k c] d Hc Hd IH]; cbn [count_partner fst snd].
  - by repeat constructor.
  - destruct (String.eqb k p); constructor; cbn [snd] in *; try done. lia.
Qed.

Lemma sum_if_count_partner test p d :
  sum_if test (count_partner p d)
  = sum_if test d + (if test p then 1 else 0).
Proof.
  induction d as [|[k c] d IH]; cbn [count_partner sum_if fold_right fst snd].
  - destruct (test p); lia.
  - destruct (String.eqb_spec k p) as [->|Hkp];
      cbn [sum_if fold_right fst snd].
    + fold (sum_if test d). destruct (test p); lia.
    + fold (sum_if test (count_partner p d)) (sum_if test d). rewrite IH.
      destruct (test k), (test p); lia.
Qed.

Lemma partner_counts_snoc gs g :
  partner_counts (gs ++ [g])
  = count_partner (partner_name g) (partner_counts gs).
Proof. unfold partner_counts. by rewrite fold_left_app. Qed.

Lemma filter_snoc_length {A} (test : A -> bool) l x :
  Z.of_nat (length (List.filter test (l ++ [x])))
  = Z.of_nat (length (List.filter test l)) + (if test x then 1 else 0).
Proof.
  rewrite List.filter_app, length_app. cbn [List.filter].
  destruct (test x); cbn [length]; lia.
Qed.

(** What the loop of [get_all_partners] builds. *)
Lemma partner_counts_spec gs :
  NoDup (map fst (partner_counts gs)) /\
  Forall (fun item => 0 < snd item) (partner_counts gs) /\
  (forall q, count_at q (partner_counts gs) = gyms_of q gs) /\
  (forall q, In q (map fst (partner_counts gs)) <->
             exists g, In g gs /\ partner_name g = q) /\
  (forall test,
     sum_if test (partner_counts gs)
     = Z.of_nat (length (List.filter (fun g => test (partner_name g)) gs))).
Proof.
  induction gs as [|g gs (Hn & Hp & Hc & Hk & Hs)] using rev_ind.
  - split; [apply NoDup_nil_2|]. split; [constructor|].
    split; [done|]. split; [|done].
    intros q. split; [intros []|by intros (g & [] & _)].
  - rewrite partner_counts_snoc. split; [by apply NoDup_count_partner|].
    split; [by apply positive_count_partner|].
    split; [|split].
    + intros q. rewrite count_at_count_partner, Hc. unfold gyms_of.
      by rewrite filter_snoc_length.
    + intros q. rewrite keys_count_partner, Hk. split.
      * intros [->|(g' & Hg' & E)].
        -- exists g. split; [|done]. apply in_or_app. right. by left.
        -- exists g'. split; [|done]. apply in_or_app. by left.
      * intros (g' & [Hg'|[<-|[]]]%in_app_or & E); [right; eauto|by left].
    + intros test. by rewrite sum_if_count_partner, Hs, filter_snoc_length.
Qed.

(** In a dictionary, an item is determined by its key. *)
Lemma In_count_at q c d :
  NoDup (map fst d) -> In (q, c) d -> count_at q d = c.
Proof.
  unfold count_at.
  induction d as [|[k c'] d IH]; cbn [map fst In List.find]; [done|].
  intros [Hk Hd]%NoDup_cons [E|Hin].
  - injection E as -> ->. by rewrite String.eqb_refl.
  - destruct (String.eqb_spec k q) as [->|Hne]; [|by apply IH].
    exfalso. apply Hk, list_elem_of_In. by apply (in_map fst) in Hin.
Qed.

Lemma count_at_In q d : In q (map fst d) -> In (q, count_at q d) d.
Proof.
  unfold count_at.
  induction d as [|[k c'] d IH]; cbn [map fst In List.find]; [done|].
  destruct (String.eqb_spec k q) as [->|Hne]; [by left|].
  intros [E|Hin]; [done|]. right. by apply IH.
Qed.

(** *** Sorting the items *)

Lemma insert_item_perm x l : Permutation (insert_item x l) (x :: l).
Proof.
  induction l as [|y l IH]; cbn [insert_item]; [done|].
  destruct (item_lt y x); [|done].
  rewrite IH. apply perm_swap.
Qed.

Lemma sorted_perm l : Permutation (sorted l) l.
Proof.
  induction l as [|x l IH]; cbn [sorted]; [done|].
  by rewrite insert_item_perm, IH.
Qed.

Lemma item_lt_names x y :
  fst x <> fst y -> item_lt x y = String.ltb (fst x) (fst y).
Proof. unfold item_lt. intros Hne. by destruct (String.eqb_spec (fst x) (fst y)). Qed.

Lemma insert_item_sorted x l :
  ~ In (fst x) (map fst l) -> StronglySorted by_name l ->
  StronglySorted by_name (insert_item x l).
Proof.
  induction l as [|y l IH]; cbn [insert_item map In]; intros Hx Hs.
  - by repeat constructor.
  - apply StronglySorted_inv in Hs as [Hs Hy].
    assert (Hne : fst y <> fst x) by (intros E; apply Hx; by left).
    rewrite (item_lt_names _ _ Hne).
    destruct (String.ltb (fst y) (fst x)) eqn:E.
    + constructor; [apply IH; [tauto|done]|].
      rewrite (insert_item_perm x l). by constructor.
    + assert (Hxy : by_name x y) by (apply ltb_total; [congruence|done]).
      constructor; [by constructor|]. constructor; [done|].
      eapply Forall_impl; [exact Hy|]. intros z Hz. by eapply ltb_trans.
Qed.

Lemma sorted_sorted l :
  NoDup (map fst l) -> StronglySorted by_name (sorted l).
Proof.
  induction l as [|x l IH]; cbn [sorted map]; [constructor|].
  intros [Hx Hl]%NoDup_cons. apply insert_item_sorted; [|by apply IH].
  rewrite list_elem_of_In in Hx.
  intros Hin. apply Hx. revert Hin.
  apply Permutation_in, Permutation_map, sorted_perm.
Qed.

Lemma sum_if_perm test l l' :
  Permutation l l' -> sum_if test l = sum_if test l'.
Proof.
  induction 1 as [|x l l' _ IH|x y l|l l' l'' _ IH1 _ IH2];
    cbn [sum_if fold_right]; try done.
  - fold (sum_if test l) (sum_if test l'). by rewrite IH.
  - lia.
  - congruence.
Qed.

Lemma total_count_sum_if (test : string -> bool) d :
  total_count
    (List.filter (fun p => test (name p))
       (map (fun item => {| name := fst item; count := snd item |}) d))
  = sum_if test d.
Proof.
  induction d as [|[k c] d IH]; cbn [map List.filter name fst snd]; [done|].
  cbn [sum_if fold_right fst snd]. fold (sum_if test d).
  destruct (test k); cbn [total_count fold_right count]; rewrite <- IH; done.
Qed.

Lemma filter_true {A} (l : list A) : List.filter (fun _ => true) l = l.
Proof. induction l as [|x l IH]; cbn [List.filter]; congruence. Qed.

Lemma StronglySorted_map {A B} (f : A -> B) (R : B -> B -> Prop) l :
  StronglySorted (fun x y => R (f x) (f y)) l -> StronglySorted R (map f l).
Proof.
  induction 1 as [|x l Hs IH Hx]; cbn [map]; constructor; [done|].
  apply List.Forall_map. exact Hx.
Qed.

(** X3. The partner list. The names are listed in strictly increasing order
    (so each once); a partner is listed exactly with the number of gyms that
    carry this very name, which is at least 1; and the counts add up to the
    size of the collection. *)
Theorem get_all_partners_counts st :
  let ps := get_all_partners st in
  StronglySorted (fun p q => String.ltb p q = true) (map name ps) /\
  (forall p, In p ps <->
     count p = gyms_of (name p) (collection st) /\ 0 < count p) /\
  (forall g, In g (collection st) ->
     In {| name := partner_name g;
           count := gyms_of (partner_name g) (collection st) |} ps) /\
  total_count ps = Z.of_nat (length (collection st)).
Proof.
  intros ps. subst ps. unfold get_all_partners.
  set (gs := collection st).
  destruct (partner_counts_spec gs) as (Hn & Hp & Hc & Hk & Hs).
  set (d := partner_counts gs) in *.
  set (mk := fun item : string * Z => {| name := fst item; count := snd item |}).
  assert (Hin : forall p, In p (map mk (sorted d)) <->
            count p = gyms_of (name p) gs /\ 0 < count p).
  { intros [n c]. cbn [name count]. rewrite in_map_iff. split.
    - intros ([k c'] & E & Hin). injection E as -> ->.
      apply (Permutation_in _ (sorted_perm d)) in Hin.
      split.
      + by rewrite <- Hc, (In_count_at _ _ _ Hn Hin).
      + rewrite Forall_forall in Hp. apply list_elem_of_In in Hin.
        exact (Hp _ Hin).
    - intros [-> Hpos]. exists (n, gyms_of n gs). split; [done|].
      apply (Permutation_in _ (Permutation_sym (sorted_perm d))).
      rewrite <- Hc. apply count_at_In, Hk.
      unfold gyms_of in Hpos.
      destruct (List.filter _ gs) as [|g l] eqn:E; [simpl in Hpos; lia|].
      assert (Hg : In g (List.filter (fun gym => String.eqb (partner_name gym) n) gs))
        by (rewrite E; by left).
      apply filter_In in Hg as [Hg Hn']. exists g. split; [done|].
      by apply String.eqb_eq. }
  split; [|split; [done|split]].
  - rewrite map_map. cbn [name]. apply StronglySorted_map.
    exact (sorted_sorted d Hn).
  - intros g Hg. apply Hin. cbn [name count]. split; [done|].
    unfold gyms_of.
    assert (Hf : In g (List.filter (fun gym => String.eqb (partner_name gym) (partner_name g)) gs))
      by (apply filter_In; split; [done|apply String.eqb_refl]).
    destruct (List.filter _ gs); [done|]. cbn [length]. lia.
  - pose proof (total_count_sum_if (fun _ => true) (sorted d)) as Ht.
    rewrite filter_true in Ht. fold mk in Ht.
    by rewrite Ht, (sum_if_perm _ _ _ (sorted_perm d)), Hs, filter_true.
Qed.

(** The gyms whose partner name equals [p] up to case are as many as the
    counts add up to that are listed under the names equal to [p] up to
    case. *)
Lemma filter_count_by_case p gs_st :
  Z.of_nat (length
    (List.filter (fun gym => String.eqb (lower (partner_name gym)) (lower p))
       (collection gs_st)))
  = total_count
      (List.filter (fun q => String.eqb (lower (name q)) (lower p))
         (get_all_partners gs_st)).
Proof.
  unfold get_all_partners.
  rewrite (total_count_sum_if (fun n => String.eqb (lower n) (lower p))).
  rewrite (sum_if_perm _ _ _ (sorted_perm _)).
  by destruct (partner_counts_spec (collection gs_st)) as (_ & _ & _ & _ & ->).
Qed.

End PartnersFacts.

(** ** More on the gym store *)

Module StoreMoreFacts.
Import Py Str Distance Store HeapFacts ListFacts StoreFacts.
Import Partners Numbering TextFacts PartnersFacts.

Local Arguments alloc : simpl never.

Lemma ids_injective gs g g' :
  NoDup (map gid gs) -> In g gs -> In g' gs -> gid g = gid g' -> g = g'.
Proof.
  induction gs as [|a gs IH]; cbn [map In]; [done|].
  intros [Ha Hnd]%NoDup_cons [<-|Hg] [<-|Hg'] E; try done.
  - exfalso. apply Ha, list_elem_of_In. rewrite E. by apply in_map.
  - exfalso. apply Ha, list_elem_of_In. rewrite <- E. by apply in_map.
  - by apply IH.
Qed.

(** The first dictionary that passes [test] is the one [find] returns. *)
Lemma find_first st (test : Gym -> bool) : forall rs l1 g l2,
  records st rs = l1 ++ g :: l2 ->
  Forall (fun g' => test g' = false) l1 -> test g = true ->
  exists r, List.find (on_dict st test) rs = Some r /\ get_dict st r = Some g.
Proof.
  induction rs as [|r rs IH]; intros l1 g l2 E Hl1 Hg.
  - by destruct l1.
  - cbn [records List.find] in *. unfold on_dict at 1.
    destruct (get_dict st r) as [g0|] eqn:Er; [|by eapply IH].
    destruct l1 as [|g1 l1]; cbn [app] in E; injection E as -> E.
    + rewrite Hg. by exists r.
    + apply Forall_cons in Hl1 as [-> Hl1]. by eapply IH.
Qed.

Lemma lower_char_idem c : lower_char (lower_char c) = lower_char c.
Proof. by destruct c as [[] [] [] [] [] [] [] []]. Qed.

Lemma lower_lower s : lower (lower s) = lower s.
Proof.
  induction s as [|c s IH]; [done|]. cbn [lower].
  by rewrite lower_char_idem, IH.
Qed.


Lemma renumber_length gs : forall idx, length (renumber idx gs) = length gs.
Proof.
  induction gs as [|g gs IH]; intros idx; [done|].
  cbn [renumber length]. by rewrite IH.
Qed.

(** *** Identifiers in growing order *)









Section WithBuiltins.
Context `{Builtins}.

(** X1. Every state the store goes through, from [load_gyms] on and under
    any sequence of its own operations, is well formed and has unique
    identifiers: two gyms of the collection with the same identifier are the
    same gym. *)
Theorem identifiers_stay_unique st :
  reachable st ->
  well_formed st /\ unique_ids st /\
  (forall g g', In g (collection st) -> In g' (collection st) ->
     gid g = gid g' -> g = g').
Proof.
  intros Hr. destruct (reachable_invariant st Hr) as [Hwf Hu].
  split; [done|]. split; [done|]. intros g g'. by apply ids_injective.
Qed.

Lemma get_gym_by_id_absent gym_id st :
  get_gym_by_id gym_id st = None <-> ~ In gym_id (map gid (collection st)).
Proof.
  rewrite get_gym_by_id_None, in_map_iff. split.
  - intros Hno (g & Hid & Hg). by apply (Hno g).
  - intros Hno g Hg Hid. apply Hno. eauto.
Qed.

Lemma get_gym_by_id_member gym_id st r :
  get_gym_by_id gym_id st = Some r ->
  exists g, get_dict st r = Some g /\ gid g = gym_id /\ In g (collection st).
Proof.
  intros Hr. destruct (get_gym_by_id_Some _ _ _ Hr) as (Hin & g & Hg & Hid).
  exists g. repeat split; try done. apply In_records. eauto.
Qed.

Lemma get_gym_by_id_unique gym_id st :
  unique_ids st ->
  forall g, In g (collection st) -> gid g = gym_id ->
    exists r, get_gym_by_id gym_id st = Some r /\ get_dict st r = Some g.
Proof.
  intros Hu g Hg Hid.
  destruct (get_gym_by_id gym_id st) as [r|] eqn:E.
  - exists r. split; [done|].
    destruct (get_gym_by_id_member _ _ _ E) as (g' & Hg' & Hid' & Hin').
    rewrite Hg'. f_equal. apply (ids_injective _ _ _ Hu); congruence.
  - exfalso. rewrite get_gym_by_id_None in E. by apply (E g).
Qed.

(** X2. Lookup by identifier: it finds nothing exactly when no gym of the
    collection has the identifier; what it finds is a gym of the collection
    with that identifier, the first one in the order of the collection; and
    when identifiers are unique, it finds every gym by its identifier. *)
Theorem get_gym_by_id_finds gym_id st :
  (get_gym_by_id gym_id st = None <-> ~ In gym_id (map gid (collection st))) /\
  (forall r, get_gym_by_id gym_id st = Some r ->
     exists g, get_dict st r = Some g /\ gid g = gym_id /\
               In g (collection st)) /\
  (forall l1 g l2,
     collection st = l1 ++ g :: l2 -> gid g = gym_id ->
     Forall (fun g' => gid g' <> gym_id) l1 ->
     exists r, get_gym_by_id gym_id st = Some r /\ get_dict st r = Some g) /\
  (unique_ids st ->
   forall g, In g (collection st) -> gid g = gym_id ->
     exists r, get_gym_by_id gym_id st = Some r /\ get_dict st r = Some g).
Proof.
  split; [apply get_gym_by_id_absent|].
  split; [apply get_gym_by_id_member|].
  split; [|apply get_gym_by_id_unique].
  intros l1 g l2 E Hid Hl1. unfold get_gym_by_id.
  apply (find_first st _ _ l1 g l2 E).
  - eapply Forall_impl; [exact Hl1|]. intros g' Hg'. by apply Z.eqb_neq.
  - by apply Z.eqb_eq.
Qed.

(** X4. The partner filter compares names without regard to case. For a
    filter [p] that is not empty, the gyms of the list it returns are the
    gyms of the collection whose partner name equals [p] up to case, in the
    order of the collection; they are as many as the counts add up to that
    [get_all_partners] lists under the names equal to [p] up to case; and a
    filter [q] that equals [p] up to case gives the same result. *)
Theorem get_gyms_by_partner_case p q st :
  well_formed st -> p <> "" -> lower p = lower q ->
  let l := fst (get_gyms_by_partner (Some p) st) in
  let st' := snd (get_gyms_by_partner (Some p) st) in
  records st' (get_list st' l)
  = List.filter (fun gym => String.eqb (lower (partner_name gym)) (lower p))
      (collection st) /\
  Z.of_nat (length (get_list st' l))
  = total_count
      (List.filter (fun x => String.eqb (lower (name x)) (lower p))
         (get_all_partners st)) /\
  get_gyms_by_partner (Some q) st = get_gyms_by_partner (Some p) st /\
  get_gyms_by_partner (Some (lower p)) st = get_gyms_by_partner (Some p) st.
Proof.
  intros (rs & Hl & Hrs) Hp E l st'.
  destruct p as [|c p]; [done|]. clear Hp.
  subst l st'. cbn [get_gyms_by_partner].
  rewrite (get_list_Some _ _ _ Hl).
  set (test := fun gym => String.eqb (lower (partner_name gym)) (lower (String c p))).
  set (kept := List.filter (on_dict st test) rs).
  assert (Hkept : Forall (fun r => is_Some (get_dict st r)) kept)
    by apply Forall_filter_dict, Hrs.
  rewrite get_list_alloc_new, (records_alloc st _ kept Hkept).
  unfold kept at 1. rewrite records_filter, <- (well_formed_collection _ _ Hl).
  split; [done|]. split; [|split].
  - rewrite <- (records_length st kept Hkept). unfold kept.
    rewrite records_filter, <- (well_formed_collection _ _ Hl).
    apply filter_count_by_case.
  - destruct q as [|d q]; [done|]. by rewrite <- E.
  - change (String (lower_char c) (lower p)) with (lower (String c p)).
    by rewrite lower_lower.
Qed.

Lemma delete_gym_unfold gym_id st :
  delete_gym gym_id st =
  let old := get_list st (gyms st) in
  let kept :=
    List.filter (fun r => negb (on_dict st (fun g => gid g =? gym_id) r)) old in
  let st2 := set_gyms (fst (alloc (List kept) st)) (snd (alloc (List kept) st)) in
  if (length kept <? length old)%nat then (true, _save_to_csv st2)
  else (false, st2).
Proof. unfold delete_gym. by destruct (alloc _ st). Qed.




(** X6. When the backing file cannot be written, [add_gym] and
    [delete_gym] still change the collection in memory, and [delete_gym]
    still returns [True] whenever a gym has the identifier; the file keeps
    its content, so loading it again gives what loading gave before the
    call. When the collection before the call was what the file gives, the
    reload is that collection: without the added gym, and with the deleted
    one. *)
Theorem unwritable_store_forgets gym_data gym_id st :
  well_formed st -> writable st = false ->
  let added := snd (add_gym gym_data st) in
  let deleted := snd (delete_gym gym_id st) in
  collection added
  = collection st ++ [gym_of_data (fst (add_gym gym_data st)) gym_data] /\
  csv added = csv st /\
  collection (load_gyms added) = collection (load_gyms st) /\
  collection deleted
  = List.filter (fun g => negb (gid g =? gym_id)) (collection st) /\
  csv deleted = csv st /\
  collection (load_gyms deleted) = collection (load_gyms st) /\
  (fst (delete_gym gym_id st) = true <->
   In gym_id (map gid (collection st))) /\
  (collection (load_gyms st) = collection st ->
   collection (load_gyms added) = collection st /\
   collection (load_gyms deleted) = collection st).
Proof.
  intros Hwf Hw added deleted.
  assert (Hload : forall s, csv s = csv st ->
            collection (load_gyms s) = collection (load_gyms st)).
  { intros s Hs.
    destruct (load_gyms_collection s) as (_ & _ & _ & ->).
    destruct (load_gyms_collection st) as (_ & _ & _ & ->).
    by rewrite Hs. }
  assert (Ha : csv added = csv st).
  { subst added. rewrite add_gym_unfold. cbn [snd].
    destruct (push_spec (gym_of_data (max_default (map gid (collection st)) + 1)
                gym_data) st Hwf) as (_ & _ & _ & _ & _ & Hc & Hw').
    unfold _save_to_csv. by rewrite Hw', Hw. }
  assert (Hd : csv deleted = csv st).
  { subst deleted. rewrite delete_gym_unfold. cbv zeta.
    destruct (alloc_spec _ _ _ _ (surjective_pairing
      (alloc (List (List.filter
         (fun r => negb (on_dict st (fun g => gid g =? gym_id) r))
         (get_list st (gyms st)))) st))) as (_ & _ & _ & _ & _ & Hc & Hw').
    destruct (_ <? _)%nat; cbn [snd]; [|done].
    unfold _save_to_csv. cbn [writable set_gyms]. by rewrite Hw', Hw. }
  split; [apply (add_gym_collection gym_data st Hwf)|].
  split; [done|]. split; [by apply Hload|].
  split; [by apply delete_collection|]. split; [done|].
  split; [by apply Hload|]. split.
  - rewrite (delete_signal gym_id st Hwf), in_map_iff.
    split; intros (g & ? & ?); eauto.
  - intros Hsync. split; (etransitivity; [|exact Hsync]); by apply Hload.
Qed.

(** X7. What [load_gyms] leaves in the collection: text fields without
    whitespace around them, and no ['distance'] key. *)
Theorem load_gyms_strips st :
  Forall (fun g =>
            strip (partner_name g) = partner_name g /\
            strip (gym_name g) = gym_name g /\
            strip (address g) = address g /\
            strip (pincode g) = pincode g /\
            strip (amenities g) = amenities g /\
            distance g = None)
    (collection (load_gyms st)).
Proof.
  destruct (load_gyms_collection st) as (_ & _ & _ & ->).
  destruct (csv st) as [| |rows]; try constructor.
  generalize (dict_reader rows) 1. intros data.
  induction data as [|row data IH]; intros idx; cbn [gyms_of_rows];
    [constructor|].
  destruct (gym_of_row idx row) as [g|] eqn:Eg; cbn [bind]; [|constructor].
  specialize (IH (idx + 1)).
  destruct (gyms_of_rows (idx + 1) data) as [gs|]; cbn [bind]; [|constructor].
  constructor; [|done]. clear IH. unfold gym_of_row in Eg.
  repeat match type of Eg with
  | context [getitem row ?k] =>
      destruct (getitem row k) as [[?|]|]; cbn [bind strip_cell float_cell int_cell] in Eg;
      try discriminate
  | context [float_of_str ?s] =>
      destruct (float_of_str s); cbn [bind] in Eg; try discriminate
  | context [int_of_str ?s] =>
      destruct (int_of_str s); cbn [bind] in Eg; try discriminate
  end.
  injection Eg as <-. cbn [partner_name gym_name address pincode amenities distance].
  by rewrite !strip_strip.
Qed.

(** The loop stops at the first gym whose distance cannot be computed. *)
Lemma distance_loop_raises user_lat user_lon gs : forall st gl g e,
  Forall2 (fun r g => get_dict st r = Some g) gs gl ->
  In g gl ->
  haversine_distance user_lat user_lon (latitude g) (longitude g) = Raise e ->
  exists e', fst (distance_loop user_lat user_lon gs st) = Raise e'.
Proof.
  induction gs as [|r gs IH]; intros st gl g e Hgl Hin Hg.
  - apply Forall2_nil_inv_l in Hgl as ->. destruct Hin.
  - apply Forall2_cons_inv_l in Hgl as (g0 & gl' & Hg0 & Hgl & ->).
    rewrite distance_loop_cons, Hg0.
    destruct (haversine_distance _ _ (latitude g0) _) as [d|e0] eqn:Ed;
      [|by eexists].
    destruct Hin as [->|Hin]; [congruence|]. cbv zeta.
    destruct (IH (snd (alloc (Dict (set_distance (Some d) g0)) st)) gl' g e)
      as [e' He']; try done.
    { eapply Forall2_impl; [exact Hgl|]. intros r' g' Hr'.
      eapply get_dict_mono; [apply alloc_extends|done]. }
    destruct (distance_loop _ _ gs _) as [[rest|e1] st2]; cbn [fst] in *;
      [done|by eexists].
Qed.

(** X8. One gym whose distance cannot be computed makes the whole query
    fail: when [haversine_distance] raises for a candidate,
    [get_nearby_gyms] raises, whatever the limit; the collection is as it
    was. *)
Theorem get_nearby_gyms_raises user_lat user_lon partner limit st g e :
  well_formed st -> In g (candidates partner st) ->
  haversine_distance user_lat user_lon (latitude g) (longitude g) = Raise e ->
  (exists e', fst (get_nearby_gyms user_lat user_lon partner limit st)
              = Raise e') /\
  collection (snd (get_nearby_gyms user_lat user_lon partner limit st))
  = collection st.
Proof.
  intros Hwf Hin Hg. split.
  - unfold get_nearby_gyms.
    pose proof (candidates_refs partner st Hwf) as Hp. cbv zeta in Hp.
    destruct (if truthy partner then get_gyms_by_partner partner st
              else (gyms st, st)) as [gs st1].
    cbn [fst snd] in Hp. destruct Hp as [_ Hrefs].
    destruct (distance_loop_raises user_lat user_lon _ _ _ g e Hrefs Hin Hg)
      as [e' He'].
    destruct (distance_loop _ _ _ st1) as [[ds|e1] st2]; cbn [fst] in *;
      [done|by eexists].
  - destruct (get_nearby_gyms_extends user_lat user_lon partner limit st)
      as [Hsub Hgy].
    by destruct (collection_extends st _ Hwf Hsub Hgy).
Qed.

End WithBuiltins.
End StoreMoreFacts.

(** ** Replacing the backing file *)

Module FilesFacts.
Import Py Str Store Files HeapFacts StoreFacts RequestLogFacts.

Lemma read_write_same p f w : read_path p (write_path p f w) = f.
Proof.
  unfold read_path, write_path.
  destruct (String.eqb_spec p (csv_path w)) as [E|N];
    cbn [csv_path store others set_store set_csv csv].
  - by rewrite E, String.eqb_refl.
  - destruct (String.eqb_spec p (csv_path w)); [done|].
    by rewrite lookup_insert_eq.
Qed.

Lemma read_write_other p q f w :
  p <> q -> read_path q (write_path p f w) = read_path q w.
Proof.
  intros Hne. unfold read_path, write_path.
  destruct (String.eqb_spec p (csv_path w)) as [E|N];
    cbn [csv_path store others set_store set_csv csv].
  - destruct (String.eqb_spec q (csv_path w)); [congruence|done].
  - destruct (String.eqb_spec q (csv_path w)); [done|].
    by rewrite lookup_insert_ne.
Qed.

Lemma csv_path_write p f w : csv_path (write_path p f w) = csv_path w.
Proof. unfold write_path. by destruct (String.eqb p (csv_path w)). Qed.

Lemma read_csv_path w : read_path (csv_path w) w = csv (store w).
Proof. unfold read_path. by rewrite String.eqb_refl. Qed.

(** Writing a file changes at most the file of the store. *)
Lemma store_write p f w :
  heap (store (write_path p f w)) = heap (store w) /\
  gyms (store (write_path p f w)) = gyms (store w) /\
  writable (store (write_path p f w)) = writable (store w).
Proof. unfold write_path. by destruct (String.eqb p (csv_path w)). Qed.

Lemma path_replace_moves src dst w :
  src <> dst -> read_path src w <> Missing ->
  path_replace src dst w
  = (Ok tt, write_path src Missing (write_path dst (read_path src w) w)).
Proof.
  intros Hne Hsrc. unfold path_replace.
  destruct (String.eqb_spec src dst); [done|].
  by destruct (read_path src w).
Qed.

Lemma path_replace_missing src dst w :
  read_path src w = Missing -> path_replace src dst w = (Raise FileNotFoundError, w).
Proof. intros E. unfold path_replace. by rewrite E. Qed.

Lemma backup_path_differs s : s +:+ ".backup" <> s.
Proof.
  intros E. apply (f_equal String.length) in E.
  rewrite length_append in E. cbn [String.length] in E. lia.
Qed.

Lemma moved_to_backup b f w :
  b <> csv_path w ->
  let w1 := write_path (csv_path w) Missing (write_path b f w) in
  csv_path w1 = csv_path w /\
  csv (store w1) = Missing /\
  read_path b w1 = f /\
  (forall q, q <> csv_path w -> q <> b -> read_path q w1 = read_path q w) /\
  heap (store w1) = heap (store w) /\ gyms (store w1) = gyms (store w) /\
  writable (store w1) = writable (store w).
Proof.
  intros Hb w1. subst w1. set (w0 := write_path b f w).
  assert (Hp : csv_path w0 = csv_path w) by apply csv_path_write.
  split; [by rewrite csv_path_write|].
  split; [by rewrite <- read_csv_path, csv_path_write, Hp, read_write_same|].
  split; [unfold w0; by rewrite read_write_other, read_write_same by done|].
  split.
  { intros q Hq1 Hq2. unfold w0. by rewrite !read_write_other by done. }
  destruct (store_write (csv_path w) Missing w0) as (-> & -> & ->).
  apply store_write.
Qed.

(** The attempt to back the file up: the file of the store, if there is
    one, is at the backup path afterwards, and the store has no file. *)
Lemma backup_spec w :
  let b := csv_path w +:+ ".backup" in
  let w1 := snd (path_replace (csv_path w) b w) in
  csv_path w1 = csv_path w /\
  csv (store w1) = Missing /\
  read_path b w1 =
    match csv (store w) with Missing => read_path b w | f => f end /\
  (forall q, q <> csv_path w -> q <> b -> read_path q w1 = read_path q w) /\
  heap (store w1) = heap (store w) /\ gyms (store w1) = gyms (store w) /\
  writable (store w1) = writable (store w).
Proof.
  intros b w1. subst w1.
  pose proof (backup_path_differs (csv_path w)) as Hb. fold b in Hb.
  destruct (csv (store w)) as [| |rows] eqn:Ec.
  - rewrite path_replace_missing by (by rewrite read_csv_path).
    cbn [snd]. by rewrite Ec.
  - rewrite path_replace_moves by (rewrite ?read_csv_path, ?Ec; done).
    cbn [snd]. rewrite read_csv_path, Ec. by apply moved_to_backup.
  - rewrite path_replace_moves by (rewrite ?read_csv_path, ?Ec; done).
    cbn [snd]. rewrite read_csv_path, Ec. by apply moved_to_backup.
Qed.

Section WithBuiltins.
Context `{Builtins}.

(** What [load_gyms] builds depends on the file alone. *)
Lemma load_gyms_file st st' :
  csv st = csv st' -> collection (load_gyms st) = collection (load_gyms st').
Proof.
  intros E.
  destruct (load_gyms_collection st) as (_ & _ & _ & ->).
  destruct (load_gyms_collection st') as (_ & _ & _ & ->).
  by rewrite E.
Qed.

Lemma load_gyms_length st :
  length (get_list (load_gyms st) (gyms (load_gyms st)))
  = length (collection (load_gyms st)).
Proof.
  destruct (load_gyms_collection st) as ((rs & Hl & Hrs) & _).
  rewrite (get_list_Some _ _ _ Hl), (well_formed_collection _ _ Hl).
  symmetry. by apply records_length.
Qed.

(** What [replace_all_gyms] does with a new file at a path of its own. *)
Lemma replace_all_gyms_spec new_csv_path w :
  new_csv_path <> csv_path w ->
  new_csv_path <> csv_path w +:+ ".backup" ->
  read_path new_csv_path w <> Missing ->
  let content := read_path new_csv_path w in
  let res := replace_all_gyms new_csv_path w in
  let w' := snd res in
  fst res = Ok (Z.of_nat (length (collection (store w')))) /\
  csv_path w' = csv_path w /\
  read_path (csv_path w) w' = content /\
  read_path new_csv_path w' = Missing /\
  read_path (csv_path w +:+ ".backup") w' =
    match csv (store w) with
    | Missing => read_path (csv_path w +:+ ".backup") w
    | f => f
    end /\
  well_formed (store w') /\
  collection (store w') = collection (load_gyms (set_csv content (store w))).
Proof.
  intros Hc Hb Hsrc content res w'. subst res w'. unfold replace_all_gyms.
  destruct (backup_spec w) as (Hp1 & Hcsv1 & Hb1 & Hq1 & _). cbv zeta in *.
  set (b := csv_path w +:+ ".backup") in *.
  set (w1 := snd (path_replace (csv_path w) b w)) in *.
  assert (Hnew : read_path new_csv_path w1 = content) by (by apply Hq1).
  rewrite path_replace_moves by (rewrite ?Hp1, ?Hnew; done).
  rewrite Hnew, Hp1.
  set (w2 := write_path new_csv_path Missing (write_path (csv_path w) content w1)).
  assert (Hp2 : csv_path w2 = csv_path w)
    by (unfold w2; by rewrite !csv_path_write).
  assert (Hcsv2 : csv (store w2) = content).
  { rewrite <- read_csv_path, Hp2. unfold w2.
    by rewrite read_write_other, read_write_same by done. }
  destruct (load_gyms_collection (store w2)) as (Hwf & Hcsv & _ & _).
  cbn [fst snd store csv_path set_store].
  split; [by rewrite load_gyms_length|]. split; [done|].
  split; [by rewrite <- Hp2 at 1; unfold read_path; cbn [csv_path store set_store];
          rewrite String.eqb_refl, Hcsv|].
  assert (Hread : forall q, q <> csv_path w ->
            read_path q (set_store (load_gyms (store w2)) w2) = read_path q w2).
  { intros q Hq. unfold read_path. cbn [csv_path store others set_store].
    rewrite Hp2. by destruct (String.eqb_spec q (csv_path w)). }
  split; [rewrite Hread by done; unfold w2; apply read_write_same|].
  split.
  { rewrite Hread by apply backup_path_differs. unfold w2.
    by rewrite !read_write_other by (try done; by apply not_eq_sym, backup_path_differs). }
  split; [done|]. apply load_gyms_file. by rewrite Hcsv2.
Qed.


(** X10. [replace_all_gyms] when there is no file at the new path. The
    backup has been made by then: the call raises [FileNotFoundError], the
    collection in memory is as it was, but the store has lost its file,
    which is at the backup path; loading again gives the empty
    collection. *)
Theorem replace_all_gyms_missing_source new_csv_path w :
  new_csv_path <> csv_path w ->
  new_csv_path <> csv_path w +:+ ".backup" ->
  read_path new_csv_path w = Missing ->
  let res := replace_all_gyms new_csv_path w in
  let w' := snd res in
  fst res = Raise FileNotFoundError /\
  collection (store w') = collection (store w) /\
  read_path (csv_path w) w' = Missing /\
  read_path (csv_path w +:+ ".backup") w' =
    match csv (store w) with
    | Missing => read_path (csv_path w +:+ ".backup") w
    | f => f
    end /\
  collection (load_gyms (store w')) = [].
Proof.
  intros Hc Hb Hsrc res w'. subst res w'. unfold replace_all_gyms.
  destruct (backup_spec w) as (Hp1 & Hcsv1 & Hb1 & Hq1 & Hh & Hg & _).
  cbv zeta in *.
  set (b := csv_path w +:+ ".backup") in *.
  set (w1 := snd (path_replace (csv_path w) b w)) in *.
  rewrite path_replace_missing by (by rewrite Hq1).
  cbn [fst snd]. split; [done|].
  split; [by apply collection_heap|].
  split; [by rewrite <- Hp1, read_csv_path|]. split; [done|].
  destruct (load_gyms_collection (store w1)) as (_ & _ & _ & ->).
  by rewrite Hcsv1.
Qed.

End WithBuiltins.
End FilesFacts.

(** ** The request log over time *)

Module JournalFacts.
Import Py Str RequestLog Journal StrFacts RequestLogFacts.

Lemma append_inj a : forall x y, a +:+ x = a +:+ y -> x = y.
Proof.
  induction a as [|c a IH]; intros x y E; [done|].
  simpl in E. injection E as E. by apply IH.
Qed.

Lemma startswith_self d : forall rest, startswith d (d +:+ rest) = true.
Proof.
  induction d as [|c d IH]; intros rest; [done|].
  simpl. by rewrite Ascii.eqb_refl.
Qed.

(** A prefix of the same length as the date is the date. *)
Lemma startswith_date d : forall d' rest,
  String.length d = String.length d' ->
  startswith d' (d +:+ rest) = true -> d = d'.
Proof.
  induction d as [|c d IH]; intros [|c' d'] rest Hlen Hs; try done.
  simpl in Hlen, Hs.
  destruct (Ascii.eqb_spec c' c) as [->|]; [|done].
  f_equal. apply (IH d' rest); [lia|done].
Qed.

Lemma startswith_prefix a : forall d' s,
  startswith (a +:+ d') (a +:+ s) = startswith d' s.
Proof.
  induction a as [|c a IH]; intros d' s; [done|].
  simpl. by rewrite Ascii.eqb_refl.
Qed.

(** An identifier starts with the prefix of a day exactly when it was built
    on that day. *)
Lemma startswith_request_id d d' n :
  String.length d = String.length d' ->
  startswith ("REQ_" +:+ d') (request_id_of d n) = String.eqb d d'.
Proof.
  intros Hlen. unfold request_id_of.
  rewrite (startswith_prefix "REQ_").
  destruct (String.eqb_spec d d') as [->|Hne].
  - apply startswith_self.
  - destruct (startswith d' _) eqn:E; [|done].
    by apply startswith_date in E.
Qed.

Lemma request_id_of_inj d n m :
  0 <= n -> 0 <= m -> request_id_of d n = request_id_of d m -> n = m.
Proof.
  intros Hn Hm E. unfold request_id_of in E.
  apply (append_inj "REQ_"), append_inj, (append_inj "_") in E.
  pose proof (int_of_format_03d n Hn) as E1.
  pose proof (int_of_format_03d m Hm) as E2.
  rewrite E in E1. congruence.
Qed.

Lemma save_request_requests date_str now data st :
  get_all_requests (snd (save_request date_str now data st))
  = if log_writable st
    then get_all_requests st ++
         [ {| request_id :=
                request_id_of date_str
                  (Z.of_nat (length (of_day date_str (get_all_requests st))) + 1);
              timestamp := now;
              gym_id := data_gym_id data;
              gym_name := data_gym_name data;
              partner_name := data_partner_name data;
              full_name := data_full_name data;
              email := data_email data;
              phone := data_phone data;
              preferred_plan := data_preferred_plan data;
              billing_address := data_billing_address data;
              message := data_message data;
              user_latitude := data_user_latitude data;
              user_longitude := data_user_longitude data;
              user_city := data_user_city data;
              status := "pending" |} ]
    else get_all_requests st.
Proof.
  unfold save_request, of_day. rewrite length_map.
  by destruct (log_writable st).
Qed.

Lemma of_day_snoc d requests r :
  of_day d (requests ++ [r])
  = of_day d requests ++
    (if startswith ("REQ_" +:+ d) (request_id r) then [request_id r] else []).
Proof.
  unfold of_day. rewrite List.filter_app, map_app. cbn [List.filter].
  by destruct (startswith _ _).
Qed.

Lemma seqZ_snoc (m : Z) (n : nat) :
  seqZ m (Z.of_nat (S n)) = seqZ m (Z.of_nat n) ++ [m + Z.of_nat n].
Proof.
  by rewrite Nat2Z.inj_succ, <- Z.add_1_r, seqZ_app by lia.
Qed.

Lemma numbered_save len date_str now data st :
  String.length date_str = len ->
  numbered len (get_all_requests st) ->
  NoDup (map request_id (get_all_requests st)) ->
  numbered len (get_all_requests (snd (save_request date_str now data st))) /\
  NoDup (map request_id
           (get_all_requests (snd (save_request date_str now data st)))).
Proof.
  intros Hlen Hnum Hnd. rewrite save_request_requests.
  destruct (log_writable st); [|done].
  set (requests := get_all_requests st) in *.
  set (n := Z.of_nat (length (of_day date_str requests))).
  split.
  - intros d Hd. rewrite of_day_snoc. cbn [request_id].
    rewrite startswith_request_id by congruence.
    destruct (String.eqb_spec date_str d) as [<-|Hne].
    + rewrite length_app. cbn [length]. rewrite Nat.add_1_r, seqZ_snoc, map_app.
      rewrite <- (Hnum date_str Hlen). cbn [map]. fold n.
      by rewrite (Z.add_comm 1 n).
    + rewrite !app_nil_r. by apply Hnum.
  - rewrite map_app. cbn [map request_id]. apply NoDup_app.
    split; [done|]. split; [|apply NoDup_singleton].
    intros x Hx Hnew%list_elem_of_singleton. subst x. fold n in Hx.
    assert (Hday : In (request_id_of date_str (n + 1)) (of_day date_str requests)).
    { apply list_elem_of_In, in_map_iff in Hx as (r & Er & Hr).
      unfold of_day. apply in_map_iff. exists r. split; [done|].
      apply filter_In. split; [done|]. rewrite Er.
      by rewrite startswith_request_id, String.eqb_refl. }
    rewrite (Hnum date_str Hlen) in Hday. fold n in Hday.
    apply in_map_iff in Hday as (k & Ek & Hk).
    apply list_elem_of_In, elem_of_seqZ in Hk.
    apply request_id_of_inj in Ek; lia.
Qed.

(** X11. The log is append-only under [save_request]: the requests that
    could be read before are still there, unchanged and in the same places,
    and every request behind them has the status ["pending"]. (From a log
    that could not be read, nothing could be read before.) *)
Theorem save_request_appends len st0 st :
  saves len st0 st ->
  exists added,
    get_all_requests st = get_all_requests st0 ++ added /\
    Forall (fun r => status r = "pending") added.
Proof.
  induction 1 as [|date_str now data st _ (added & E & Hp) _].
  - exists []. by rewrite app_nil_r.
  - rewrite save_request_requests. destruct (log_writable st); [|by exists added].
    eexists (added ++ [_]). rewrite E, <- app_assoc. split; [done|].
    apply Forall_app. split; [done|]. by repeat constructor.
Qed.

(** X12. Request identifiers are unique: in a log that [save_request] built
    from an empty one, on days whose date strings have the same length, no
    two requests have the same identifier, and the identifiers of each day
    carry the numbers 1, 2, ... in the order of the log. *)
Theorem request_ids_unique len st0 st :
  saves len st0 st -> get_all_requests st0 = [] ->
  NoDup (map request_id (get_all_requests st)) /\
  forall d, String.length d = len ->
    of_day d (get_all_requests st)
    = map (request_id_of d)
        (seqZ 1 (Z.of_nat (length (of_day d (get_all_requests st))))).
Proof.
  intros Hs H0.
  assert (Hinv : numbered len (get_all_requests st) /\
                 NoDup (map request_id (get_all_requests st))).
  { induction Hs as [|date_str now data st _ [Hnum Hnd] Hlen].
    - rewrite H0. split; [by intros d _|apply NoDup_nil_2].
    - by apply numbered_save. }
  destruct Hinv as [Hnum Hnd]. split; [done|exact Hnum].
Qed.

End JournalFacts.

(** ** The validators *)

Module ValidatorsFacts.
Import Py Str Plans Text Validators StrFacts TextFacts PlansFacts.

Lemma lstrip_all_space s : all_space s = true -> lstrip s = EmptyString.
Proof.
  induction s as [|c s IH]; [done|]. cbn [all_space lstrip].
  intros [-> Hs]%andb_true_iff. by apply IH.
Qed.

(** X13. [validate_name] checks the length before it strips: what it
    returns is the stripped name, which has at most 100 characters and no
    whitespace around it, but may have fewer than 3 characters; a name of 3 to
    100 whitespace characters is accepted and becomes the empty name. *)
Theorem validate_name_checks_then_strips v :
  (forall w, validate_name v = Ok w ->
     w = strip v /\ (3 <= String.length v <= 100)%nat /\
     (String.length w <= 100)%nat /\ strip w = w) /\
  (validate_name v = Raise ValueError <->
     (String.length v < 3)%nat \/ (100 < String.length v)%nat) /\
  (all_space v = true -> (3 <= String.length v <= 100)%nat ->
     validate_name v = Ok EmptyString).
Proof.
  unfold validate_name.
  destruct (Nat.ltb_spec (String.length v) 3) as [H3|H3];
    [|destruct (Nat.ltb_spec 100 (String.length v)) as [H100|H100]].
  - split; [done|]. split; [split; [by left|done]|]. lia.
  - split; [done|]. split; [split; [by right|done]|]. lia.
  - split; [|split].
    + intros w [= <-]. pose proof (strip_length v).
      repeat split; try lia. apply strip_strip.
    + split; [done|lia].
    + intros Hs _. unfold strip. by rewrite (lstrip_all_space v Hs).
Qed.

(** X14. The coordinates of a validated [GymAddRequest] are finite: the
    range checks refuse NaN and the infinities, and what they accept is
    returned as it is. *)
Theorem validated_coordinates_finite v :
  (forall w, validate_latitude v = Ok w ->
     w = v /\ is_finite v = true /\
     fle (round_int (-90)) v = true /\ fle v (round_int 90) = true) /\
  (forall w, validate_longitude v = Ok w ->
     w = v /\ is_finite v = true /\
     fle (round_int (-180)) v = true /\ fle v (round_int 180) = true) /\
  (is_finite v = false ->
     validate_latitude v = Raise ValueError /\
     validate_longitude v = Raise ValueError).
Proof.
  unfold validate_latitude, validate_longitude, between.
  split; [|split].
  - intros w.
    destruct (fle (round_int (-90)) v) eqn:E1; [|done].
    destruct (fle v (round_int 90)) eqn:E2; [|done].
    intros [= <-]. repeat split; try done.
    destruct v as [s|[]| |s m e]; try done.
  - intros w.
    destruct (fle (round_int (-180)) v) eqn:E1; [|done].
    destruct (fle v (round_int 180)) eqn:E2; [|done].
    intros [= <-]. repeat split; try done.
    destruct v as [s|[]| |s m e]; try done.
  - by destruct v as [s|[]| |s m e].
Qed.

(** X15. The plan names agree: [validate_plan] accepts exactly the keys of
    the dictionary that [calculate_subscription_plans] returns. *)
Theorem validate_plan_names base_monthly plans v :
  calculate_subscription_plans base_monthly = Ok plans ->
  (validate_plan v = Ok v <-> is_Some (plans !! v)) /\
  (forall w, validate_plan v = Ok w -> w = v) /\
  (validate_plan v = Raise ValueError <-> plans !! v = None).
Proof.
  unfold calculate_subscription_plans. intros E.
  repeat match type of E with
  | context [int_scaled ?z ?c] =>
      destruct (int_scaled z c); cbn [bind] in E; try discriminate
  end.
  injection E as <-. unfold validate_plan, valid_plans. cbn [existsb].
  destruct (String.eqb_spec v "1-month") as [->|N1].
  { rewrite lookup_insert_ne, lookup_insert_ne, lookup_insert_eq by done.
    cbn [orb negb]. split; [split; eauto|]. split; [congruence|done]. }
  destruct (String.eqb_spec v "3-month") as [->|N3].
  { rewrite lookup_insert_ne, lookup_insert_eq by done.
    cbn [orb negb]. split; [split; eauto|]. split; [congruence|done]. }
  destruct (String.eqb_spec v "12-month") as [->|N12].
  { rewrite lookup_insert_eq.
    cbn [orb negb]. split; [split; eauto|]. split; [congruence|done]. }
  cbn [orb negb].
  rewrite !lookup_insert_ne, lookup_empty by done.
  split; [split; [done|by intros []]|]. done.
Qed.

(** *** Decimal numbers of a given length *)

Lemma append_String a s t : String a s +:+ t = String a (s +:+ t).
Proof. reflexivity. Qed.

Lemma append_cons s c : forall t,
  s +:+ String c t = (s +:+ String c EmptyString) +:+ t.
Proof.
  induction s as [|a s IH]; intros t; [done|].
  by rewrite !append_String, IH.
Qed.

Lemma append_empty s : s +:+ EmptyString = s.
Proof. induction s as [|a s IH]; [done|]. by rewrite append_String, IH. Qed.

Lemma all_chars_app p s : forall t,
  all_chars p (s +:+ t) = all_chars p s && all_chars p t.
Proof.
  induction s as [|c s IH]; intros t; [done|].
  rewrite append_String. cbn [all_chars]. by rewrite IH, andb_assoc.
Qed.

(** A number with [k + 1] digits: its first digit, and [k] digits more. *)
Lemma digits_of_shape (k : nat) : forall fuel n acc,
  (k < fuel)%nat -> 10 ^ Z.of_nat k <= n < 10 ^ Z.of_nat (S k) ->
  exists s,
    digits_of fuel n acc = String (digit_char (n / 10 ^ Z.of_nat k)) (s +:+ acc) /\
    String.length s = k /\ all_chars is_digit s = true.
Proof.
  induction k as [|k IH]; intros fuel n acc Hf Hn.
  - destruct fuel as [|fuel]; [lia|]. cbn [digits_of].
    change (10 ^ Z.of_nat 0) with 1 in *. change (10 ^ Z.of_nat 1) with 10 in Hn.
    destruct (Z.ltb_spec n 10); [|lia].
    exists EmptyString. rewrite Z.div_1_r, Z.mod_small by lia. done.
  - destruct fuel as [|fuel]; [lia|]. cbn [digits_of].
    rewrite !Nat2Z.inj_succ, !Z.pow_succ_r in Hn by lia.
    assert (Hpos : 0 < 10 ^ Z.of_nat k) by (apply Z.pow_pos_nonneg; lia).
    destruct (Z.ltb_spec n 10); [lia|].
    assert (Hd : 0 <= n mod 10 < 10) by (apply Z.mod_pos_bound; lia).
    destruct (digit_char_spec _ Hd) as (Hdig & _ & _).
    destruct (IH fuel (n / 10) (String (digit_char (n mod 10)) acc))
      as (s & E & Hlen & Hall); [lia| |].
    { rewrite Nat2Z.inj_succ, Z.pow_succ_r by lia. split.
      - apply Z.div_le_lower_bound; lia.
      - apply Z.div_lt_upper_bound; lia. }
    exists (s +:+ String (digit_char (n mod 10)) EmptyString).
    rewrite E. split; [|split].
    + f_equal; [|apply append_cons].
      by rewrite Nat2Z.inj_succ, Z.pow_succ_r, Z.div_div by lia.
    + rewrite RequestLogFacts.length_append. cbn [String.length]. lia.
    + rewrite all_chars_app, Hall. cbn [all_chars]. by rewrite Hdig.
Qed.

Lemma str_of_int_shape (k : nat) n :
  10 ^ Z.of_nat k <= n < 10 ^ Z.of_nat (S k) ->
  exists s,
    str_of_int n = String (digit_char (n / 10 ^ Z.of_nat k)) s /\
    String.length s = k /\ all_chars is_digit s = true.
Proof.
  intros Hn.
  assert (Hpos : 0 < 10 ^ Z.of_nat k) by (apply Z.pow_pos_nonneg; lia).
  unfold str_of_int, str_of_nonneg. destruct (Z.ltb_spec n 0); [lia|].
  destruct (digits_of_shape k (S (Z.to_nat (Z.log2 n))) n EmptyString)
    as (s & E & Hlen & Hall); [|done|].
  - assert (Z.of_nat k <= Z.log2 n); [|lia].
    apply Z.log2_le_pow2; [lia|].
    etransitivity; [|exact (proj1 Hn)].
    apply Z.pow_le_mono_l. lia.
  - exists s. split; [|done]. by rewrite E, append_empty.
Qed.

Lemma all_digits_isdigit s :
  all_chars is_digit s = true -> all_chars isdigit_char s = true.
Proof.
  induction s as [|c s IH]; [done|]. cbn [all_chars].
  intros [Hc Hs]%andb_true_iff. rewrite (IH Hs).
  unfold isdigit_char. by rewrite Hc.
Qed.

(** X16. The phone and pincode validators return what they accept as it
    is. An accepted phone number has 10 characters that are digits for
    [str.isdigit], the first of them 6, 7, 8 or 9; every ten-digit decimal
    number from 6000000000 to 9999999999 is accepted. An accepted pincode has
    6 such characters; every six-digit decimal number is accepted. *)
Theorem validate_phone_and_pincode v :
  (forall w, validate_phone v = Ok w ->
     w = v /\ String.length v = 10%nat /\
     all_chars isdigit_char v = true /\
     first_in ["6"; "7"; "8"; "9"]%char v = true) /\
  (forall w, validate_pincode v = Ok w ->
     w = v /\ String.length v = 6%nat /\ all_chars isdigit_char v = true) /\
  (forall n, 6000000000 <= n <= 9999999999 ->
     validate_phone (str_of_int n) = Ok (str_of_int n)) /\
  (forall n, 100000 <= n <= 999999 ->
     validate_pincode (str_of_int n) = Ok (str_of_int n)).
Proof.
  split; [|split; [|split]].
  - intros w. unfold validate_phone, isdigit.
    destruct v as [|c v]; [done|].
    destruct (all_chars isdigit_char (String c v)) eqn:Ed; [|done].
    destruct (Nat.eqb_spec (String.length (String c v)) 10) as [El|]; [|done].
    cbn [negb orb].
    destruct (first_in _ (String c v)) eqn:Ef; [|done].
    by intros [= <-].
  - intros w. unfold validate_pincode, isdigit.
    destruct v as [|c v]; [done|].
    destruct (all_chars isdigit_char (String c v)) eqn:Ed; [|done].
    destruct (Nat.eqb_spec (String.length (String c v)) 6) as [El|]; [|done].
    by intros [= <-].
  - intros n Hn.
    destruct (str_of_int_shape 9 n) as (s & E & Hlen & Hall);
      [change (10 ^ Z.of_nat 9) with 1000000000;
       change (10 ^ Z.of_nat 10) with 10000000000; lia|].
    change (10 ^ Z.of_nat 9) with 1000000000 in E. rewrite E.
    assert (Hd : 6 <= n / 1000000000 <= 9).
    { split; [apply Z.div_le_lower_bound; lia|].
      assert (n / 1000000000 < 10); [apply Z.div_lt_upper_bound; lia|lia]. }
    unfold validate_phone, isdigit. cbn [all_chars String.length first_in].
    rewrite (all_digits_isdigit s Hall), Hlen.
    assert (Hc : n / 1000000000 = 6 \/ n / 1000000000 = 7 \/
                 n / 1000000000 = 8 \/ n / 1000000000 = 9) by lia.
    by destruct Hc as [->|[->|[->| ->]]].
  - intros n Hn.
    destruct (str_of_int_shape 5 n) as (s & E & Hlen & Hall);
      [change (10 ^ Z.of_nat 5) with 100000;
       change (10 ^ Z.of_nat 6) with 1000000; lia|].
    change (10 ^ Z.of_nat 5) with 100000 in E. rewrite E.
    assert (Hd : 0 <= n / 100000 < 10).
    { split; [apply Z.div_pos; lia|apply Z.div_lt_upper_bound; lia]. }
    destruct (digit_char_spec _ Hd) as (Hdig & _ & _).
    unfold validate_pincode, isdigit. cbn [all_chars String.length].
    rewrite (all_digits_isdigit s Hall), Hlen.
    unfold isdigit_char. by rewrite Hdig.
Qed.

End ValidatorsFacts.

(** ** The endpoints *)

Module ApiFacts.
Import Py Str Plans Store Files Api.
Import HeapFacts ListFacts SortFacts StoreFacts PlansFacts TextFacts.
Import StoreMoreFacts FilesFacts JournalFacts ValidatorsFacts.

Local Arguments alloc : simpl never.

(** *** [split] *)

Lemma split_length sep s :
  length (split sep s) = S (occurrences sep s).
Proof.
  induction s as [|c s IH]; [done|]. cbn [split occurrences].
  destruct (Ascii.eqb c sep); cbn [length Nat.add]; [by rewrite IH|].
  destruct (split sep s) as [|piece pieces]; [done|]. exact IH.
Qed.

Lemma split_no_sep sep s :
  Forall (fun piece => occurrences sep piece = 0%nat) (split sep s).
Proof.
  induction s as [|c s IH]; [by repeat constructor|]. cbn [split].
  destruct (Ascii.eqb c sep) eqn:Ec; [by constructor|].
  destruct (split sep s) as [|piece pieces].
  - repeat constructor. cbn [occurrences]. by rewrite Ec.
  - apply Forall_cons in IH as [Hp Hps]. constructor; [|done].
    cbn [occurrences]. by rewrite Ec.
Qed.

Lemma occurrences_lstrip c s :
  (occurrences c (lstrip s) <= occurrences c s)%nat.
Proof.
  induction s as [|a s IH]; [done|]. cbn [lstrip].
  destruct (is_space a); cbn [occurrences]; lia.
Qed.

Lemma occurrences_rstrip c s :
  (occurrences c (rstrip s) <= occurrences c s)%nat.
Proof.
  induction s as [|a s IH]; [done|]. cbn [rstrip].
  destruct (rstrip s); [destruct (is_space a)|]; cbn [occurrences] in *; lia.
Qed.

Lemma occurrences_strip c s :
  occurrences c s = 0%nat -> occurrences c (strip s) = 0%nat.
Proof.
  intros E. unfold strip.
  pose proof (occurrences_rstrip c (lstrip s)).
  pose proof (occurrences_lstrip c s). lia.
Qed.

(** The plan calculator returns for every price that is not negative and
    whose 12-fold converts to a float. *)
Lemma plans_ok base_monthly :
  0 <= base_monthly -> base_monthly * 12 < float_limit ->
  exists plans, calculate_subscription_plans base_monthly = Ok plans.
Proof.
  intros Hb Hlim. destruct factors as (F93 & F07 & F83 & F17).
  destruct (int_scaled_ok (base_monthly * 3) f0_93) as [t3 Ht3]; [lia|done|].
  destruct (int_scaled_ok base_monthly f0_93) as [m3 Hm3]; [lia|done|].
  destruct (int_scaled_ok (base_monthly * 3) f0_07) as [s3 Hs3]; [lia|done|].
  destruct (int_scaled_ok (base_monthly * 12) f0_83) as [t12 Ht12]; [lia|done|].
  destruct (int_scaled_ok base_monthly f0_83) as [m12 Hm12]; [lia|done|].
  destruct (int_scaled_ok (base_monthly * 12) f0_17) as [s12 Hs12]; [lia|done|].
  unfold calculate_subscription_plans.
  rewrite Ht3, Hm3, Hs3, Ht12, Hm12, Hs12. by eexists.
Qed.

(** X17. [get_gym_details] answers 404 exactly when no gym has the
    identifier. For a gym of a collection with unique identifiers whose price
    is in the range of the plan calculator, it answers with that gym, its
    plans, and its amenities: the text between the commas, one entry more
    than there are commas (so never an empty list), each entry without
    whitespace around it and without a comma. *)
Theorem get_gym_details_answers gym_id a :
  let st := store (db a) in
  (get_gym_details gym_id a = HTTPException 404 <->
     ~ In gym_id (map gid (collection st))) /\
  (forall g,
     unique_ids st -> In g (collection st) -> gid g = gym_id ->
     0 <= subscription_amount g -> subscription_amount g * 12 < float_limit ->
     exists d,
       get_gym_details gym_id a = Respond d /\
       gym d = g /\
       calculate_subscription_plans (subscription_amount g)
       = Ok (subscription_plans d) /\
       amenities_list d = map strip (split "," (amenities g)) /\
       length (amenities_list d) = S (occurrences "," (amenities g)) /\
       Forall (fun x => strip x = x /\ occurrences "," x = 0%nat)
         (amenities_list d)).
Proof.
  intros st. unfold get_gym_details. fold st. split.
  - rewrite <- get_gym_by_id_absent.
    destruct (get_gym_by_id gym_id st) as [r|]; [|done].
    split; [|done].
    destruct (get_dict st r) as [g|]; [|done].
    by destruct (calculate_subscription_plans _).
  - intros g Hu Hg Hid Hlo Hhi.
    destruct (get_gym_by_id_unique gym_id st Hu g Hg Hid) as (r & -> & ->).
    destruct (plans_ok _ Hlo Hhi) as [plans ->].
    eexists. split; [done|]. cbn [gym subscription_plans amenities_list].
    split; [done|]. split; [done|]. split; [done|].
    split; [by rewrite length_map, split_length|].
    apply List.Forall_map.
    eapply Forall_impl; [apply split_no_sep|]. intros x Hx. cbn beta.
    split; [apply strip_strip|by apply occurrences_strip].
Qed.

(** X18. [submit_subscription_request] never answers 404: the check that
    the gym exists is inside the [try] block, so for an unknown gym the
    answer is 500, and nothing is saved. For a known gym and a log that can
    be written, the answer is the new request identifier, and the log holds
    one more request, with that identifier, for that gym, pending. The gym
    store is never changed. *)
Theorem submit_subscription_request_status date_str now request a :
  let res := submit_subscription_request date_str now request a in
  let known := get_gym_by_id (RequestLog.data_gym_id request) (store (db a)) in
  db (snd res) = db a /\
  (forall c, fst res = HTTPException c -> c = 500) /\
  (known = None -> res = (HTTPException 500, a)) /\
  (is_Some known -> RequestLog.log_writable (sub_manager a) = false ->
     res = (HTTPException 500, a)) /\
  (is_Some known -> RequestLog.log_writable (sub_manager a) = true ->
     exists r,
       fst res = Respond (RequestLog.request_id r) /\
       RequestLog.get_all_requests (sub_manager (snd res))
       = RequestLog.get_all_requests (sub_manager a) ++ [r] /\
       RequestLog.gym_id r = RequestLog.data_gym_id request /\
       RequestLog.status r = "pending").
Proof.
  intros res known. subst res known. unfold submit_subscription_request.
  destruct (get_gym_by_id _ (store (db a))) as [r|].
  - unfold RequestLog.save_request.
    destruct (RequestLog.log_writable (sub_manager a)) eqn:Ew;
      cbn [except_Exception fst snd set_sub_manager db sub_manager].
    + split; [done|]. split; [done|]. split; [done|]. split; [done|].
      intros _ _.
      cbn [RequestLog.get_all_requests RequestLog.log].
      match goal with |- context [_ ++ [?x]] => by exists x end.
    + split; [done|]. split; [by intros c [= <-]|]. split; [done|].
      split; [|done]. intros _ _. by destruct a.
  - cbn [except_Exception fst snd]. split; [done|].
    split; [by intros c [= <-]|]. split; [done|].
    split; by intros [? ?].
Qed.

Section WithBuiltins.
Context `{Builtins}.

(** X19. The admin endpoints do nothing without the password: with any
    other password, adding, deleting and uploading answer 401 and leave the
    application as it is. *)
Theorem admin_requires_password password gym_data gym_id filename content a :
  password <> ADMIN_PASSWORD ->
  admin_add_gym password gym_data a = (HTTPException 401, a) /\
  admin_delete_gym gym_id password a = (HTTPException 401, a) /\
  admin_upload_csv password filename content a = (HTTPException 401, a).
Proof.
  intros Hp. unfold admin_add_gym, admin_delete_gym, admin_upload_csv, verify_admin.
  by destruct (String.eqb_spec password ADMIN_PASSWORD).
Qed.

(** X20. With the password, [admin_add_gym] answers with the identifier
    that [add_gym] assigned, and the gym is in the collection (without a
    body it answers 500 and changes nothing); and [admin_delete_gym] answers
    404 exactly when no gym has the identifier, and otherwise removes the
    gyms with that identifier. The request log is not touched. *)
Theorem admin_add_delete_status gym_data gym_id a :
  well_formed (store (db a)) ->
  let st := store (db a) in
  let added := admin_add_gym ADMIN_PASSWORD (Some gym_data) a in
  let deleted := admin_delete_gym gym_id ADMIN_PASSWORD a in
  admin_add_gym ADMIN_PASSWORD None a = (HTTPException 500, a) /\
  fst added = Respond (max_default (map gid (collection st)) + 1) /\
  collection (store (db (snd added)))
  = collection st ++
    [gym_of_data (max_default (map gid (collection st)) + 1) gym_data] /\
  sub_manager (snd added) = sub_manager a /\
  (fst deleted = HTTPException 404 <-> ~ In gym_id (map gid (collection st))) /\
  (fst deleted = Respond tt <-> In gym_id (map gid (collection st))) /\
  collection (store (db (snd deleted)))
  = List.filter (fun g => negb (gid g =? gym_id)) (collection st) /\
  sub_manager (snd deleted) = sub_manager a.
Proof.
  intros Hwf st added deleted. subst added deleted.
  unfold admin_add_gym, admin_delete_gym, verify_admin.
  rewrite String.eqb_refl. cbn [negb]. fold st.
  split; [done|].
  rewrite add_gym_unfold. cbn [except_Exception fst snd].
  pose proof (add_gym_collection gym_data st Hwf) as [_ Hadd].
  rewrite add_gym_unfold in Hadd. cbn [fst snd] in Hadd.
  split; [done|]. split; [exact Hadd|]. split; [done|].
  pose proof (delete_signal gym_id st Hwf) as Hsig.
  pose proof (delete_collection gym_id st Hwf) as Hcol.
  destruct (delete_gym gym_id st) as [success st'].
  cbn [fst snd] in Hsig, Hcol.
  assert (Hin : success = true <-> In gym_id (map gid (collection st))).
  { rewrite Hsig, in_map_iff. split; intros (g & ? & ?); eauto. }
  destruct success; cbn [negb fst snd set_gyms_store set_db db store set_store
                         sub_manager].
  - split; [split; [done|intros Hno; by destruct Hno, Hin as [Hin _]; apply Hin]|].
    split; [split; [intros _; by apply Hin|done]|]. done.
  - split; [split; [intros _ Hyes; by apply Hin in Hyes|done]|].
    split; [split; [done|intros Hyes; by apply Hin in Hyes]|]. done.
Qed.

(** X21. [admin_upload_csv] never answers with success. With the password
    and a file name that ends in [.csv], the store is replaced by the
    upload, and the old file is kept at the backup path; but
    [replace_all_gyms] has moved the uploaded file away, so the clean-up that
    follows raises, and the answer is 500. *)
Theorem admin_upload_csv_never_succeeds password filename content a :
  csv_path (db a) = "gyms.csv" ->
  let res := admin_upload_csv password filename content a in
  (fst res = HTTPException 401 \/ fst res = HTTPException 400 \/
   fst res = HTTPException 500) /\
  (password = ADMIN_PASSWORD -> endswith ".csv" filename = true ->
   fst res = HTTPException 500 /\
   read_path "gyms.csv" (db (snd res)) = file_of_upload content /\
   read_path upload_path (db (snd res)) = Missing /\
   (csv (store (db a)) <> Missing ->
    read_path "gyms.csv.backup" (db (snd res)) = csv (store (db a))) /\
   collection (store (db (snd res)))
   = collection (load_gyms (set_csv (file_of_upload content) (store (db a)))) /\
   sub_manager (snd res) = sub_manager a).
Proof.
  intros Hpath res.
  assert (Hok : password = ADMIN_PASSWORD -> endswith ".csv" filename = true ->
    fst res = HTTPException 500 /\
    read_path "gyms.csv" (db (snd res)) = file_of_upload content /\
    read_path upload_path (db (snd res)) = Missing /\
    (csv (store (db a)) <> Missing ->
     read_path "gyms.csv.backup" (db (snd res)) = csv (store (db a))) /\
    collection (store (db (snd res)))
    = collection (load_gyms (set_csv (file_of_upload content) (store (db a)))) /\
    sub_manager (snd res) = sub_manager a).
  { intros -> Hname. subst res. unfold admin_upload_csv, verify_admin.
    rewrite String.eqb_refl, Hname. cbn [negb].
    set (w1 := write_path upload_path (file_of_upload content) (db a)).
    assert (Hp1 : csv_path w1 = "gyms.csv")
      by (unfold w1; by rewrite csv_path_write).
    assert (Hst1 : store w1 = store (db a)).
    { unfold w1, write_path. rewrite Hpath. done. }
    assert (Hup : read_path upload_path w1 = file_of_upload content)
      by apply read_write_same.
    destruct (replace_all_gyms_spec upload_path w1)
      as (Hres & Hp2 & Hcsv & Hgone & Hbackup & _ & Hcol).
    { by rewrite Hp1. }
    { by rewrite Hp1. }
    { rewrite Hup. by destruct content. }
    cbv zeta in *. rewrite Hp1, Hup, Hst1 in *.
    destruct (replace_all_gyms upload_path w1) as [[count|e] w2];
      cbn [fst snd] in *; [|done].
    unfold unlink. rewrite Hgone.
    cbn [except_Exception fst snd set_db db sub_manager].
    split; [done|]. split; [done|]. split; [done|].
    split; [|done]. intros Hold.
    change "gyms.csv.backup" with ("gyms.csv" +:+ ".backup").
    rewrite Hbackup. by destruct (csv (store (db a))). }
  split; [|exact Hok].
  subst res. unfold admin_upload_csv, verify_admin in *.
  destruct (String.eqb_spec password ADMIN_PASSWORD) as [->|Hne];
    cbn [negb fst]; [|by left].
  destruct (endswith ".csv" filename); cbn [negb fst]; [|by right; left].
  right; right. by apply Hok.
Qed.

(** X22. The nearest-gym endpoint refuses a limit outside 1..50 with
    status 422; when it answers, the list has at most [limit] gyms, hence at
    most 50, whatever the distances are; and the collection is as it was. *)
Theorem nearby_endpoint_cap lat lon partner limit a :
  let res := Api.get_nearby_gyms lat lon partner limit a in
  (fst res = HTTPException 422 <-> ~ (1 <= limit <= 50)) /\
  (forall l, fst res = Respond l ->
     Z.of_nat (length (get_list (store (db (snd res))) l)) <= limit /\
     (length (get_list (store (db (snd res))) l) <= 50)%nat) /\
  (well_formed (store (db a)) ->
   collection (store (db (snd res))) = collection (store (db a))) /\
  sub_manager (snd res) = sub_manager a.
Proof.
  intros res. subst res. unfold Api.get_nearby_gyms.
  destruct (Z.leb_spec 1 limit) as [H1|H1];
    [destruct (Z.leb_spec limit 50) as [H50|H50]|]; cbn [andb negb fst snd];
    [|by split; [split; [intros _; lia|done]|]..].
  pose proof (StoreFacts.get_nearby_gyms_extends lat lon partner limit (store (db a)))
    as [Hsub Hg].
  assert (Hlen : forall l st',
            Store.get_nearby_gyms lat lon partner limit (store (db a))
            = (Ok l, st') ->
            (length (get_list st' l) <= Z.to_nat limit)%nat).
  { unfold Store.get_nearby_gyms. intros l st'.
    destruct (if truthy partner then _ else _) as [gs st1].
    destruct (distance_loop _ _ _ st1) as [[ds|e] st2]; [|done].
    set (out := slice_to limit (map snd (sort_by_key ds))).
    destruct (alloc (List out) st2) as [r st3] eqn:Ea.
    intros [= <- <-].
    pose proof (get_list_alloc_new st2 out) as Hnew. rewrite Ea in Hnew.
    cbn [fst snd] in Hnew. rewrite Hnew. unfold out.
    rewrite slice_to_nonneg by lia. rewrite length_firstn. lia. }
  destruct (Store.get_nearby_gyms lat lon partner limit (store (db a)))
    as [[l|e] st'] eqn:E; cbn [fst snd set_gyms_store set_db db store set_store
                               sub_manager] in *.
  - split; [split; [done|lia]|]. split.
    + intros l' [= <-]. specialize (Hlen l st' eq_refl). lia.
    + split; [|done]. intros Hwf. by destruct (collection_extends _ st' Hwf Hsub Hg).
  - split; [split; [done|lia]|]. split; [done|].
    split; [|done]. intros Hwf. by destruct (collection_extends _ st' Hwf Hsub Hg).
Qed.

End WithBuiltins.
End ApiFacts.

(** ** The definitions at work on the sample data *)

Module SampleFacts.
Import Py Str Distance Store Sample.

Lemma st3_well_formed : well_formed st3.
Proof.
  exists [2; 3; 4]%positive. split; [by vm_compute|].
  repeat constructor; by vm_compute; eexists.
Qed.

Lemma st3_unique_ids : unique_ids st3.
Proof.
  unfold unique_ids. assert (map gid (collection st3) = [1; 2; 3]) as -> by (by vm_compute).
  rewrite !NoDup_cons, !elem_of_cons, !elem_of_nil.
  repeat split; try lia. apply NoDup_nil_2.
Qed.


(** Witness of C7: deleting gym 2 of the sample store. *)
Lemma delete_gym_signal_witness :
  well_formed st3 /\ unique_ids st3 /\
  fst (delete_gym 2 st3) = true /\
  S (length (collection (snd (delete_gym 2 st3)))) = length (collection st3) /\
  get_gym_by_id 2 (snd (delete_gym 2 st3)) = None.
Proof.
  split; [exact st3_well_formed|]. split; [exact st3_unique_ids|].
  destruct (StoreFacts.delete_gym_signal 2 st3 st3_well_formed st3_unique_ids)
    as (_ & Hpresent & _).
  assert (Hr : fst (delete_gym 2 st3) = true) by (by vm_compute).
  split; [exact Hr|]. exact (Hpresent Hr).
Defined.

(** Counterexample to C1: gym 3 is deleted from the sample store, and the
    next gym that is added gets the identifier 3 again. *)
Lemma identifier_reused_after_delete :
  map gid (collection st3) = [1; 2; 3] /\
  fst (delete_gym 3 st3) = true /\
  fst (add_gym new_data (snd (delete_gym 3 st3))) = 3.
Proof. repeat split; by vm_compute. Qed.

(** Witness of C2: reading the sample store. *)
Lemma reads_return_stored_objects_witness :
  well_formed st3 /\
  heap st3 !! fst (get_gyms_by_partner (Some "CULT") st3) = None /\
  collection (snd (get_gyms_by_partner (Some "CULT") st3)) = collection st3.
Proof.
  split; [exact st3_well_formed|].
  destruct (StoreFacts.reads_return_stored_objects (Some "CULT") 1 st3
              st3_well_formed) as (_ & _ & Hfilter).
  destruct (Hfilter eq_refl) as (Hfresh & Hsame & _).
  split; [exact Hfresh | exact Hsame].
Defined.

(** Counterexample to C2: the dictionary that lookup by identifier returns
    is the stored one, so writing to it changes the collection; and the list
    that the filter returns for an empty partner is [self.gyms] itself, so
    clearing it empties the collection. *)
Lemma reads_hand_out_the_store :
  get_gym_by_id 1 st3 = Some 2%positive /\
  map gid (collection st3) = [1; 2; 3] /\
  map gid (collection (setitem_id 2%positive 99 st3)) = [99; 2; 3] /\
  fst (get_gyms_by_partner None st3) = gyms st3 /\
  collection (write (gyms st3) (List []) st3) = [].
Proof. repeat split; by vm_compute. Qed.



(** Witness of C4: the plans for a base price of 2499. *)
Lemma calculate_subscription_plans_witness :
  0 <= 2499 /\ 2499 * 12 < float_limit /\
  exists plans,
    Plans.calculate_subscription_plans 2499 = Ok plans /\
    Plans.total <$> plans !! "1-month" = Some 2499 /\
    Plans.total <$> plans !! "3-month" = Some 6972 /\
    Plans.total <$> plans !! "12-month" = Some 24890 /\
    Plans.savings <$> plans !! "3-month" = Some 524 /\
    Plans.savings <$> plans !! "12-month" = Some 5097.
Proof.
  assert (H0 : 0 <= 2499) by lia.
  assert (H1 : 2499 * 12 < float_limit) by (by vm_compute).
  split; [exact H0|]. split; [exact H1|].
  destruct (PlansFacts.calculate_subscription_plans_spec 2499 H0)
    as [Hspec _].
  destruct (Hspec H1)
    as (t3 & m3 & s3 & t12 & m12 & s12 & plans & Hp & _ & P1 & P3 & P12
        & _ & _ & _ & _ & _ & _ & Hval).
  destruct (Hval eq_refl) as (-> & -> & _ & -> & -> & _).
  exists plans. rewrite P1, P3, P12. repeat split; done.
Defined.

(** Counterexample to C4: a base price of [2^1024] is a non-negative
    integer, and the call raises [OverflowError] at the first product. *)
Lemma plans_overflow :
  0 <= 2 ^ 1024 /\
  Plans.calculate_subscription_plans (2 ^ 1024) = Raise OverflowError.
Proof. split; [lia | by vm_compute]. Qed.

(** The stand-in library meets what the symmetry of the distance takes from
    a library. *)
Lemma sample_symmetric_library : symmetric_library.
Proof.
  split.
  - intros x. by destruct x.
  - intros x. cbn [float_pow sample_builtins]. unfold pow_. f_equal.
    by destruct x as [[]|[]| |[] m e].
  - intros x e. cbn [math_cos sample_builtins]. unfold cos_.
    destruct (finite_or_nan x); congruence.
Qed.

Lemma sample_exact_at_zero : exact_at_zero.
Proof.
  split; try reflexivity.
  - intros s x Hx. exists s. cbn [math_radians sample_builtins].
    apply RoundingFacts.mul_ordinary; [done|by vm_compute|by vm_compute].
  - intros s x Hx. exists false, one. split; [|split].
    + cbn [math_cos sample_builtins]. unfold cos_.
      by destruct Hx as [-> | (m & e & -> & _)].
    + right. eexists _, _. split; [reflexivity|]. split; by vm_compute.
    + by vm_compute.
Qed.

(** Witness of C6: the stand-in library is such a library; the distance
    between (19, 72) and (21, 74) in both directions, and from (19, 72) to
    itself. *)
Lemma haversine_distance_symmetry_witness :
  symmetric_library /\ exact_at_zero /\
  ordinary false (f 19) /\ ordinary false (f 72) /\
  haversine_distance (f 19) (f 72) (f 21) (f 74)
  = haversine_distance (f 21) (f 74) (f 19) (f 72) /\
  haversine_distance (f 19) (f 72) (f 19) (f 72) = Ok (S754_zero false).
Proof.
  assert (H19 : ordinary false (f 19))
    by (apply RoundingFacts.round_int_ordinary; split; [lia|by vm_compute]).
  assert (H72 : ordinary false (f 72))
    by (apply RoundingFacts.round_int_ordinary; split; [lia|by vm_compute]).
  split; [exact sample_symmetric_library|].
  split; [exact sample_exact_at_zero|].
  split; [exact H19|]. split; [exact H72|].
  destruct (DistanceFacts.haversine_distance_symmetry (f 19) (f 72) (f 21) (f 74))
    as [Hsym Hzero].
  split; [exact (proj1 (Hsym sample_symmetric_library))|].
  exact (proj1 (Hzero sample_exact_at_zero false false H19 H72)).
Defined.

(** Witness of C10: a nearest-gym query on the sample store. *)
Lemma get_nearby_gyms_frame_witness :
  well_formed st3 /\
  collection (snd (get_nearby_gyms (f 20) (f 72) (Some "cult") 5 st3))
  = collection st3 /\
  csv (snd (get_nearby_gyms (f 20) (f 72) (Some "cult") 5 st3)) = csv st3.
Proof.
  split; [exact st3_well_formed|].
  destruct (StoreFacts.get_nearby_gyms_frame (f 20) (f 72) (Some "cult") 5 st3
              st3_well_formed) as (_ & _ & _ & Hcsv & Hcol & _).
  split; [exact Hcol | exact Hcsv].
Defined.

(** Witness of C5: the two gyms of the sample store nearest to (20, 72). *)
Lemma get_nearby_gyms_ranking_witness :
  well_formed st3 /\ 0 <= 2 /\
  Forall2 (fun g d =>
             haversine_distance (f 20) (f 72) (latitude g) (longitude g)
             = Ok d /\ is_nan d = false)
    (candidates None st3) st3_dists /\
  exists result,
    nearby (f 20) (f 72) None 2 st3 = Some result /\
    map gid result = [1; 2] /\
    sorted_by_distance result.
Proof.
  assert (Hd : Forall2 (fun g d =>
             haversine_distance (f 20) (f 72) (latitude g) (longitude g)
             = Ok d /\ is_nan d = false)
    (candidates None st3) st3_dists).
  { assert (exists gs, candidates None st3 = gs /\
              Forall2 (fun g d =>
                haversine_distance (f 20) (f 72) (latitude g) (longitude g)
                = Ok d /\ is_nan d = false) gs st3_dists)
      as (gs & -> & Hgs); [|exact Hgs].
    eexists. split; [by vm_compute|].
    repeat constructor; by vm_compute. }
  assert (H2 : 0 <= 2) by lia.
  split; [exact st3_well_formed|]. split; [exact H2|]. split; [exact Hd|].
  destruct (StoreFacts.get_nearby_gyms_ranking (f 20) (f 72) None 2 st3
              st3_dists st3_well_formed H2 Hd)
    as (l & st' & Hrun & _ & Hsorted & _).
  exists (records st' (get_list st' l)). unfold nearby. rewrite Hrun.
  split; [reflexivity|]. split; [|exact Hsorted].
  assert (Hn : option_map (map gid) (nearby (f 20) (f 72) None 2 st3)
               = Some [1; 2]) by (by vm_compute).
  unfold nearby in Hn. rewrite Hrun in Hn. by injection Hn.
Defined.

(** Counterexample to C5. With the limit -1 the query on the three gyms of
    the sample store returns two gyms, which is more than -1. And in a store
    whose first gym has a NaN latitude, the distance of that gym is NaN, the
    gym stays in front, and NaN is not [<=] the distance of the gym after
    it. *)
Lemma ranking_limit_and_nan :
  option_map (map gid) (nearby (f 20) (f 72) None (-1) st3) = Some [1; 2] /\
  (exists d,
     option_map (map distance_of) (nearby (f 20) (f 72) None 10 st_nan)
     = Some [S754_nan; d] /\
     fle S754_nan d = false).
Proof.
  split; [by vm_compute|]. eexists. split; by vm_compute.
Qed.

(** Witness of C9: the first two requests of a day. *)
Lemma save_request_sequence_witness :
  RequestLog.log_writable empty_log = true /\
  fst (RequestLog.save_request "20240101" "2024-01-01T09:00:00"
         request_data empty_log) = Ok "REQ_20240101_001" /\
  fst (RequestLog.save_request "20240101" "2024-01-01T09:05:00" request_data
         (snd (RequestLog.save_request "20240101" "2024-01-01T09:00:00"
                 request_data empty_log))) = Ok "REQ_20240101_002".
Proof.
  split; [reflexivity|].
  destruct (RequestLogFacts.save_request_sequence "20240101"
              "2024-01-01T09:00:00" "2024-01-01T09:05:00"
              request_data request_data empty_log eq_refl)
    as (H1 & H2 & _).
  split; [exact H1 | exact H2].
Defined.

(** Counterexample to C9: with 999 requests of the day in the log, the next
    identifier ends in the four digits 1000. *)
Lemma sequence_suffix_four_digits :
  length (RequestLog.get_all_requests log999) = 999%nat /\
  fst (RequestLog.save_request "20240101" "2024-01-01T23:59:00"
         request_data log999) = Ok "REQ_20240101_1000".
Proof. split; by vm_compute. Qed.

End SampleFacts.

(** ** More of the definitions at work on the sample data *)

Module SampleAppFacts.
Import Py Str Distance Store Files Api Sample SampleApp SampleFacts.


Lemma st3_readonly_well_formed : well_formed st3_readonly.
Proof. apply StoreFacts.load_gyms_collection. Qed.

Lemma st_inf_well_formed : well_formed st_inf.
Proof. apply StoreFacts.load_gyms_collection. Qed.

(** Witness of X1: the sample store after an addition and a deletion. *)
Lemma identifiers_stay_unique_witness :
  reachable (snd (delete_gym 2 (snd (add_gym new_data st3)))) /\
  unique_ids (snd (delete_gym 2 (snd (add_gym new_data st3)))).
Proof.
  assert (Hr : reachable (snd (delete_gym 2 (snd (add_gym new_data st3)))))
    by apply reach_delete, reach_add, (reach_load (empty_state (Table rows3))).
  split; [exact Hr|].
  exact (proj1 (proj2 (StoreMoreFacts.identifiers_stay_unique _ Hr))).
Defined.

(** Witness of X4: the filters ["CULT"] and ["cult"] on the sample store. *)
Lemma get_gyms_by_partner_case_witness :
  well_formed st3 /\ lower "CULT" = lower "cult" /\
  get_gyms_by_partner (Some "cult") st3 = get_gyms_by_partner (Some "CULT") st3 /\
  Z.of_nat (length (get_list (snd (get_gyms_by_partner (Some "CULT") st3))
                      (fst (get_gyms_by_partner (Some "CULT") st3)))) = 2.
Proof.
  split; [exact st3_well_formed|]. split; [reflexivity|].
  destruct (StoreMoreFacts.get_gyms_by_partner_case "CULT" "cult" st3
              st3_well_formed ltac:(discriminate) eq_refl)
    as (_ & Hcount & Hsame & _).
  split; [exact Hsame|]. rewrite Hcount. by vm_compute.
Defined.


(** Witness of X6: the sample store over a file that cannot be written;
    a gym is added, or gym 2 is deleted, and the file is loaded again. *)
Lemma unwritable_store_forgets_witness :
  well_formed st3_readonly /\ writable st3_readonly = false /\
  collection (load_gyms st3_readonly) = collection st3_readonly /\
  length (collection (snd (add_gym new_data st3_readonly))) = 4%nat /\
  collection (load_gyms (snd (add_gym new_data st3_readonly)))
  = collection st3_readonly /\
  fst (delete_gym 2 st3_readonly) = true /\
  collection (load_gyms (snd (delete_gym 2 st3_readonly)))
  = collection st3_readonly.
Proof.
  assert (Hsync : collection (load_gyms st3_readonly) = collection st3_readonly)
    by (by vm_compute).
  split; [exact st3_readonly_well_formed|]. split; [reflexivity|].
  split; [exact Hsync|].
  destruct (StoreMoreFacts.unwritable_store_forgets new_data 2 st3_readonly
              st3_readonly_well_formed eq_refl)
    as (Hc & _ & _ & _ & _ & _ & Hsig & Hreload).
  destruct (Hreload Hsync) as [Ha Hd].
  split; [rewrite Hc, length_app; by vm_compute|]. split; [exact Ha|].
  split; [|exact Hd]. apply Hsig.
  assert (Hids : map gid (collection st3_readonly) = [1; 2; 3])
    by (by vm_compute).
  rewrite Hids. right; left; reflexivity.
Defined.

(** Witness of X8: a gym at the latitude [inf], for which the sine of the
    stand-in library raises. *)
Lemma get_nearby_gyms_raises_witness :
  well_formed st_inf /\ In gym_inf (candidates None st_inf) /\
  haversine_distance (f 20) (f 72) (latitude gym_inf) (longitude gym_inf)
  = Raise ValueError /\
  exists e, fst (Store.get_nearby_gyms (f 20) (f 72) None 10 st_inf) = Raise e.
Proof.
  split; [exact st_inf_well_formed|].
  assert (Hc : candidates None st_inf = [gym_inf]) by (by vm_compute).
  assert (Hin : In gym_inf (candidates None st_inf)) by (rewrite Hc; by left).
  assert (Hr : haversine_distance (f 20) (f 72) (latitude gym_inf)
                 (longitude gym_inf) = Raise ValueError) by (by vm_compute).
  split; [exact Hin|]. split; [exact Hr|].
  exact (proj1 (StoreMoreFacts.get_nearby_gyms_raises (f 20) (f 72) None 10
                  st_inf gym_inf ValueError st_inf_well_formed Hin Hr)).
Defined.


(** Witness of X10: the sample store is to be replaced by a file that does
    not exist. *)
Lemma replace_all_gyms_missing_source_witness :
  read_path "nowhere.csv" world3 = Missing /\
  fst (replace_all_gyms "nowhere.csv" world3) = Raise FileNotFoundError /\
  length (collection (store (snd (replace_all_gyms "nowhere.csv" world3))))
  = 3%nat /\
  collection (load_gyms (store (snd (replace_all_gyms "nowhere.csv" world3))))
  = [].
Proof.
  split; [reflexivity|].
  destruct (FilesFacts.replace_all_gyms_missing_source "nowhere.csv" world3
              ltac:(discriminate) ltac:(discriminate) eq_refl)
    as (Hres & Hcol & _ & _ & Hload).
  split; [exact Hres|]. split; [|exact Hload]. rewrite Hcol. by vm_compute.
Defined.

Lemma log2_saves : Journal.saves 8 empty_log log2.
Proof. apply Journal.saves_next; [apply Journal.saves_next|]; try done. constructor. Qed.

(** Witness of X11: two requests saved to the empty log. *)
Lemma save_request_appends_witness :
  Journal.saves 8 empty_log log2 /\
  exists added,
    RequestLog.get_all_requests log2
    = RequestLog.get_all_requests empty_log ++ added /\
    Forall (fun r => RequestLog.status r = "pending") added.
Proof.
  split; [exact log2_saves|].
  exact (JournalFacts.save_request_appends 8 empty_log log2 log2_saves).
Defined.

(** Witness of X12: the identifiers of these two requests. *)
Lemma request_ids_unique_witness :
  Journal.saves 8 empty_log log2 /\
  RequestLog.get_all_requests empty_log = [] /\
  NoDup (map RequestLog.request_id (RequestLog.get_all_requests log2)).
Proof.
  split; [exact log2_saves|]. split; [reflexivity|].
  exact (proj1 (JournalFacts.request_ids_unique 8 empty_log log2 log2_saves
                  eq_refl)).
Defined.

(** Witness of X15: the plans for a base price of 2499. *)
Lemma validate_plan_names_witness :
  exists plans,
    Plans.calculate_subscription_plans 2499 = Ok plans /\
    (Validators.validate_plan "3-month" = Ok "3-month" <->
     is_Some (plans !! "3-month")).
Proof.
  destruct (ApiFacts.plans_ok 2499 ltac:(lia) ltac:(by vm_compute))
    as [plans E].
  exists plans. split; [exact E|].
  exact (proj1 (ValidatorsFacts.validate_plan_names 2499 plans "3-month" E)).
Defined.

(** Witness of X19: a wrong password. *)
Lemma admin_requires_password_witness :
  admin_add_gym "habitadmin" (Some new_data) app3 = (HTTPException 401, app3) /\
  admin_delete_gym 1 "habitadmin" app3 = (HTTPException 401, app3) /\
  admin_upload_csv "habitadmin" "gyms.csv" (Rows rows1) app3
  = (HTTPException 401, app3).
Proof.
  exact (ApiFacts.admin_requires_password "habitadmin" (Some new_data) 1
           "gyms.csv" (Rows rows1) app3 ltac:(discriminate)).
Defined.

(** Witness of X20: the sample application. *)
Lemma admin_add_delete_status_witness :
  well_formed (store (db app3)) /\
  fst (admin_add_gym ADMIN_PASSWORD (Some new_data) app3) = Respond 4 /\
  fst (admin_delete_gym 9 ADMIN_PASSWORD app3) = HTTPException 404.
Proof.
  split; [exact st3_well_formed|].
  destruct (ApiFacts.admin_add_delete_status new_data 9 app3 st3_well_formed)
    as (_ & Hadd & _ & _ & Hdel & _).
  split; [rewrite Hadd; by vm_compute|].
  apply Hdel. by vm_compute; intros [|[|[|[]]]].
Defined.

(** Witness of X21: an upload of one gym to the sample application. *)
Lemma admin_upload_csv_never_succeeds_witness :
  csv_path (db app3) = "gyms.csv" /\
  fst (admin_upload_csv ADMIN_PASSWORD "new.csv" (Rows rows1) app3)
  = HTTPException 500 /\
  read_path "gyms.csv"
    (db (snd (admin_upload_csv ADMIN_PASSWORD "new.csv" (Rows rows1) app3)))
  = Table rows1.
Proof.
  split; [reflexivity|].
  destruct (ApiFacts.admin_upload_csv_never_succeeds ADMIN_PASSWORD "new.csv"
              (Rows rows1) app3 eq_refl) as [_ Hok].
  destruct (Hok eq_refl eq_refl) as (Hres & Hfile & _).
  split; [exact Hres|exact Hfile].
Defined.

End SampleAppFacts.
